(** * App Attest verification scripts: a shallow embedding

    The development follows [scripts/verify_attestation.py] and
    [scripts/verify_assertion.py].  Python [bytes] are lists of [byte],
    Python integers are [N] (lengths, counters read from a buffer) or [Z]
    (a caller-supplied counter), exceptions are explicit outcomes, and the
    [errors] list that [verify_attestation] appends to is threaded as state.
    The libraries the scripts import (base64, cbor2, hashlib, cryptography,
    json) are an interface, [Libraries], over which everything is stated. *)

From stdpp Require Import base option list strings gmap.
From Stdlib Require Import Strings.Byte NArith ZArith Lia.

#[local] Set Warnings "-register-all".
#[local] Open Scope N_scope.

(** ** Bytes *)

Abbreviation bytes := (list byte).

#[global] Instance byte_eq_decision : EqDecision byte := Byte.byte_eq_dec.

(** [b[i:j]] for [0 <= i] and [0 <= j]: never raises, silently shortened
    when the buffer ends early. *)
Definition slice (b : bytes) (i j : nat) : bytes := take (j - i) (drop i b).

(** [bytes([n0, n1, ...])]: [None] stands for the [ValueError] raised when
    an element is not in [range(256)]. *)
Definition bytes_of_ints (l : list N) : option bytes := mapM Byte.of_N l.

(** [int.from_bytes(bs, 'big')]. *)
Definition int_from_bytes (bs : bytes) : N :=
  foldl (fun acc c => acc * 256 + Byte.to_N c) 0 bs.

(** [len(b)] as a Python integer. *)
Definition len (b : bytes) : N := N.of_nat (length b).

(** ** [build_der_public_key] and its inner [der_len] *)

Definition der_len (length : N) : option bytes :=
  if length <? 128 then bytes_of_ints [length]
  else if length <? 256 then bytes_of_ints [0x81; length]
  else bytes_of_ints [0x82; N.shiftr length 8; N.land length 0xff].

(** [bytes.fromhex('2a8648ce3d0201')], 1.2.840.10045.2.1 *)
Definition ec_public_key_oid : bytes := [x2a; x86; x48; xce; x3d; x02; x01].
(** [bytes.fromhex('2a8648ce3d030107')], 1.2.840.10045.3.1.7 *)
Definition prime256v1_oid : bytes := [x2a; x86; x48; xce; x3d; x03; x01; x07].

Definition build_der_public_key (x y : bytes) : option bytes :=
  let point := [x04] ++ x ++ y in
  l_algo ← der_len (len ec_public_key_oid + len prime256v1_oid + 4);
  let algo_seq := [x30] ++ l_algo in
  l_oid1 ← der_len (len ec_public_key_oid);
  let algo_seq := algo_seq ++ [x06] ++ l_oid1 ++ ec_public_key_oid in
  l_oid2 ← der_len (len prime256v1_oid);
  let algo_seq := algo_seq ++ [x06] ++ l_oid2 ++ prime256v1_oid in
  l_bits ← der_len (len point + 1);
  let bit_string := [x03] ++ l_bits ++ [x00] ++ point in
  let inner := algo_seq ++ bit_string in
  l_inner ← der_len (len inner);
  let der := [x30] ++ l_inner ++ inner in
  Some der.

(** *** The reading side of the round trip

    Loading the key back is the job of the cryptography library
    ([load_der_public_key]).  What follows is that reading for the keys the
    encoder writes, after X.690 (definite lengths), RFC 5480 (the
    SubjectPublicKeyInfo of an EC key) and SEC 1, section 2.3.4 (an
    uncompressed point is accepted only when both coordinates are field
    elements and satisfy the equation of the curve).  It is the reference
    against which the encoder is checked, and no part of the scripts. *)

Definition der_read_len (b : bytes) : option (N * bytes) :=
  match b with
  | [] => None
  | c :: rest =>
      if Byte.to_N c <? 128 then Some (Byte.to_N c, rest)
      else if decide (c = x81) then
        match rest with
        | c1 :: rest' => Some (Byte.to_N c1, rest')
        | _ => None
        end
      else if decide (c = x82) then
        match rest with
        | c1 :: c2 :: rest' => Some (Byte.to_N c1 * 256 + Byte.to_N c2, rest')
        | _ => None
        end
      else None
  end.

(** One tag-length-value triplet off the front of [b]: the tag, the value
    and what follows. *)
Definition der_read_tlv (b : bytes) : option (byte * bytes * bytes) :=
  match b with
  | [] => None
  | tag :: b' =>
      '(n, rest) ← der_read_len b';
      if (len rest <? n) then None
      else Some (tag, take (N.to_nat n) rest, drop (N.to_nat n) rest)
  end.

Definition expect_tlv (tag : byte) (b : bytes) : option (bytes * bytes) :=
  '(t, v, rest) ← der_read_tlv b;
  if decide (t = tag) then Some (v, rest) else None.

(** The structure alone:
    SEQUENCE { SEQUENCE { OID ecPublicKey, OID prime256v1 },
               BIT STRING { 00, 04 || X || Y } } with 32-byte X and Y. *)
Definition read_spki_point (der : bytes) : option (bytes * bytes) :=
  '(inner, trailing) ← expect_tlv x30 der;
  '(algo, after_algo) ← expect_tlv x30 inner;
  '(oid1, after_oid1) ← expect_tlv x06 algo;
  '(oid2, after_oid2) ← expect_tlv x06 after_oid1;
  '(bits, after_bits) ← expect_tlv x03 after_algo;
  match bits with
  | unused :: form :: point =>
      if decide (trailing = [] ∧ after_oid2 = [] ∧ after_bits = []
                 ∧ oid1 = ec_public_key_oid ∧ oid2 = prime256v1_oid
                 ∧ unused = x00 ∧ form = x04 ∧ length point = 64%nat)
      then Some (take 32 point, drop 32 point)
      else None
  | _ => None
  end.

(** The curve P-256 (secp256r1, prime256v1): [y^2 = x^3 - 3x + b] over the
    integers modulo [p]. *)
Definition p256_p : N := 2 ^ 256 - 2 ^ 224 + 2 ^ 192 + 2 ^ 96 - 1.
Definition p256_b : N :=
  0x5ac635d8aa3a93e7b3ebbd55769886bc651d06b0cc53b0f63bce3c3e27d2604b.

(** [(x, y)] is a point of the curve: both are below [p] and the equation
    holds. *)
Definition on_p256 (x y : N) : bool :=
  (x <? p256_p) && (y <? p256_p)
  && ((y * y) mod p256_p
      =? (x * x * x + (p256_p - 3) * x + p256_b) mod p256_p).

(** Parsing as an EC public key: the structure, and then the point, which
    must be on the curve the key names. *)
Definition parse_ec_public_key (der : bytes) : option (bytes * bytes) :=
  '(x, y) ← read_spki_point der;
  if on_p256 (int_from_bytes x) (int_from_bytes y) then Some (x, y) else None.

(** The 26 bytes every encoded P-256 key starts with. *)
Definition spki_p256_header : bytes :=
  [x30; x59; x30; x13; x06; x07] ++ ec_public_key_oid
  ++ [x06; x08] ++ prime256v1_oid ++ [x03; x42; x00].

(** ** Exceptions

    An exception is modelled up to what the scripts' handlers can tell
    apart: [except InvalidSignature], [except x509.ExtensionNotFound], and
    [except Exception] for everything else ([TypeError], [IndexError],
    [KeyError], [AttributeError], [struct.error], [ValueError],
    [binascii.Error], ...).  The text of the exception is not kept. *)

Inductive exn := InvalidSignature | ExtensionNotFound | OtherException.

Inductive outcome (A : Type) :=
  | Returned (a : A)
  | Raised (e : exn).
Arguments Returned {A} a.
Arguments Raised {A} e.

#[global] Instance exn_eq_decision : EqDecision exn.
Proof. solve_decision. Defined.

(** ** [extract_nonce_from_extension] and its inner [find_octet32] *)

(** [if result:], where [None] and the empty byte string are both falsy. *)
Definition truthy (result : option bytes) : bool :=
  match result with
  | Some (_ :: _) => true
  | _ => false
  end.

(** [tag & 0x20 or tag in (0x30, 0x31, 0x04)] *)
Definition recurse_into (tag : byte) : bool :=
  negb (N.land (Byte.to_N tag) 0x20 =? 0)
  || bool_decide (tag = x30 ∨ tag = x31 ∨ tag = x04).

(** The [while i < len(b)] loop of [find_octet32], from index [i] on.
    [recurse] is the call [find_octet32(value, depth + 1)].  Every pass moves
    [i] forward by two or more, so [length b] passes are never used up
    ([while_loop_steps] below); [steps] only makes the recursion
    structural. *)
Fixpoint while_loop (recurse : bytes -> option bytes) (b : bytes)
    (steps : nat) (i : nat) : option bytes :=
  match steps with
  | O => None
  | S steps' =>
      match b !! i with
      | None => None                       (* i >= len(b) *)
      | Some tag =>
          let i := S i in
          match b !! i with
          | None => None                   (* break *)
          | Some length_byte =>
              let i := S i in
              let length := Byte.to_N length_byte in
              let header :=
                if negb (N.land length 0x80 =? 0) then
                  let n := N.land length 0x7F in
                  if len b <? N.of_nat i + n then None   (* break *)
                  else Some (int_from_bytes (slice b i (i + N.to_nat n)),
                             (i + N.to_nat n)%nat)
                else Some (length, i) in
              match header with
              | None => None
              | Some (length, i) =>
                  if len b <? N.of_nat i + length then None   (* break *)
                  else
                    let value := slice b i (i + N.to_nat length) in
                    let i := (i + N.to_nat length)%nat in
                    if bool_decide (tag = x04) && (len value =? 32)
                    then Some value
                    else if recurse_into tag then
                      let result := recurse value in
                      if truthy result then result
                      else while_loop recurse b steps' i
                    else while_loop recurse b steps' i
              end
          end
      end
  end.

(** [find_octet32(b, depth)].  [gas] bounds the nesting of calls; the test
    on [depth] stops the recursion before [gas] does as soon as
    [depth + gas > 11] ([find_octet32_gas] below). *)
Fixpoint find_octet32_rec (gas : nat) (b : bytes) (depth : N) : option bytes :=
  match gas with
  | O => None
  | S gas' =>
      if (10 <? depth) || (len b <? 2) then None
      else while_loop (fun value => find_octet32_rec gas' value (depth + 1))
             b (length b) 0
  end.

(** The call [find_octet32(payload)], with [depth] at its default 0. *)
Definition find_octet32 (b : bytes) : option bytes := find_octet32_rec 12 b 0.

(** [ValueError("Could not find 32-byte nonce in extension")] is an
    [OtherException]. *)
Definition extract_nonce_from_extension (payload : bytes) : outcome bytes :=
  match find_octet32 payload with
  | None => Raised OtherException
  | Some result => Returned result
  end.

(** *** Payloads for the extractor

    An OCTET STRING holding [value] and a SEQUENCE around [content], both
    written with the script's own [der_len]; [nest k tlv] puts [k] SEQUENCE
    layers around [tlv]. *)
Definition tlv (tag : byte) (content : bytes) : option bytes :=
  l ← der_len (len content); Some ([tag] ++ l ++ content).

Fixpoint nest (k : nat) (inner : bytes) : option bytes :=
  match k with
  | O => Some inner
  | S k' => c ← nest k' inner; tlv x30 c
  end.

(** A length field that reads as [n]: one byte below 128, or [0x80 + k]
    followed by [k] bytes, big-endian. *)
Definition length_field (hdr : bytes) (n : N) : Prop :=
  match hdr with
  | [] => False
  | c :: more =>
      if N.land (Byte.to_N c) 0x80 =? 0 then more = [] /\ Byte.to_N c = n
      else length more = N.to_nat (N.land (Byte.to_N c) 0x7F)
           /\ int_from_bytes more = n
  end.

(** *** What the payload holds, read as TLV elements

    The tags whose content is itself read as elements: those with the
    constructed bit (bit 5, [0x20]) set, SEQUENCE and SET among them, and
    OCTET STRING.  This is stated with [N.testbit], apart from the code's
    [recurse_into]; the two are shown to agree. *)
Definition descends (tag : byte) : bool :=
  N.testbit (Byte.to_N tag) 5 || bool_decide (tag ∈ [x30; x31; x04]).

(** [octet32_at depth b value]: read as a sequence of elements at nesting
    [depth], [b] holds an OCTET STRING of 32 bytes with content [value],
    either as one of its elements or inside the content of one whose tag
    [descends], no deeper than nesting 10.  The elements of a level are read
    one after the other, each by its own length field, so that an element
    exists only where all those before it are well formed. *)
Inductive octet32_at : N -> bytes -> bytes -> Prop :=
  | octet32_here depth hdr value rest :
      depth <= 10 -> length_field hdr 32 -> length value = 32%nat ->
      octet32_at depth ([x04] ++ hdr ++ value ++ rest) value
  | octet32_inside depth tag hdr content rest value :
      depth <= 10 -> descends tag = true ->
      length_field hdr (len content) ->
      octet32_at (depth + 1) content value ->
      octet32_at depth ([tag] ++ hdr ++ content ++ rest) value
  | octet32_later depth tag hdr content rest value :
      length_field hdr (len content) ->
      octet32_at depth rest value ->
      octet32_at depth ([tag] ++ hdr ++ content ++ rest) value.

(** The element that starts at index [i] has a length field that is cut
    short or runs past the end of [b]: the cases in which the loop leaves
    by [break] once the tag is read. *)
Definition bad_length_at (b : bytes) (i : nat) : Prop :=
  is_Some (b !! i) /\
  match b !! S i with
  | None => True
  | Some c =>
      let l := Byte.to_N c in
      if N.land l 0x80 =? 0 then len b < N.of_nat (S (S i)) + l
      else
        let n := N.land l 0x7F in
        len b < N.of_nat (S (S i)) + n
        \/ len b < N.of_nat (S (S i) + N.to_nat n)
                   + int_from_bytes (slice b (S (S i)) (S (S i) + N.to_nat n))
  end.

(** ** Python values

    What [cbor2.loads] and [json.load] hand to the scripts.  A dict keeps
    its items in insertion order, one item per key; integer-valued keys
    ([True], [1], [1.0]) are one key, [KInt 1].  [POther] is an object of
    any other class (a float, a tagged value, a date, a set, ...): it has
    no [.get], no item access and no buffer interface, and [size] is its
    [len()] when it has one.  A [str] is kept as its UTF-8 encoding. *)

Inductive pykey := KInt (z : Z) | KStr (s : string) | KOther (n : N).

#[global] Instance pykey_eq_decision : EqDecision pykey.
Proof. solve_decision. Defined.

Inductive pyval :=
  | PNone
  | PBool (v : bool)
  | PInt (z : Z)
  | PStr (s : string)
  | PBytes (b : bytes)
  | PList (l : list pyval)
  | PDict (items : list (pykey * pyval))
  | POther (size : option nat).

Abbreviation pydict := (list (pykey * pyval)).

(** [d[key]] on a dict: [None] stands for [KeyError]. *)
Fixpoint dict_lookup (items : pydict) (key : pykey) : option pyval :=
  match items with
  | [] => None
  | (k, v) :: rest => if decide (k = key) then Some v else dict_lookup rest key
  end.

#[global] Instance outcome_ret : MRet outcome := fun _ a => Returned a.
#[global] Instance outcome_bind : MBind outcome := fun _ _ f m =>
  match m with
  | Returned a => f a
  | Raised e => Raised e
  end.

(** [None] of the model to the exception it stands for. *)
Definition or_raise {A} (o : option A) : outcome A :=
  match o with
  | Some a => Returned a
  | None => Raised OtherException
  end.

(** [s.encode()] *)
Definition encode (s : string) : bytes := String.list_byte_of_string s.

(** The characters of a [str]: a byte of the form [10xxxxxx] continues the
    character before it. *)
Definition continuation (c : byte) : bool :=
  (128 <=? Byte.to_N c) && (Byte.to_N c <? 192).

Fixpoint characters (s : bytes) : list bytes :=
  match s with
  | [] => []
  | c :: rest =>
      match characters rest with
      | (c' :: _) as next :: more =>
          if continuation c' then (c :: next) :: more else [c] :: next :: more
      | other => [c] :: other
      end
  end.

(** [v.get(key, fallback)]: only a dict has the method. *)
Definition py_get (v : pyval) (key : string) (fallback : pyval) : outcome pyval :=
  match v with
  | PDict items => Returned (default fallback (dict_lookup items (KStr key)))
  | _ => Raised OtherException
  end.

(** [v[key]] with a [str] key: [KeyError] on a dict without it, [TypeError]
    on everything else. *)
Definition py_subscript (v : pyval) (key : string) : outcome pyval :=
  match v with
  | PDict items => or_raise (dict_lookup items (KStr key))
  | _ => Raised OtherException
  end.

(** [len(v)] *)
Definition py_len (v : pyval) : outcome N :=
  match v with
  | PStr s => Returned (N.of_nat (length (characters (encode s))))
  | PBytes b => Returned (len b)
  | PList l => Returned (N.of_nat (length l))
  | PDict items => Returned (N.of_nat (length items))
  | POther (Some size) => Returned (N.of_nat size)
  | _ => Raised OtherException
  end.

(** [v[i]] with an integer [i >= 0]. *)
Definition py_item (v : pyval) (i : nat) : outcome pyval :=
  match v with
  | PStr s =>
      or_raise (c ← characters (encode s) !! i; Some (PStr (String.string_of_list_byte c)))
  | PBytes b => or_raise (c ← b !! i; Some (PInt (Z.of_N (Byte.to_N c))))
  | PList l => or_raise (l !! i)
  | PDict items => or_raise (dict_lookup items (KInt (Z.of_nat i)))
  | _ => Raised OtherException
  end.

(** ** Reading [authenticatorData] *)

(** [struct.unpack(fmt, buf)[0]] for a big-endian unsigned integer of
    [size] bytes: [struct.error] unless [buf] has exactly that many. *)
Definition struct_unpack (size : nat) (buf : bytes) : outcome N :=
  if decide (length buf = size) then Returned (int_from_bytes buf)
  else Raised OtherException.

(** [b[i]]: [IndexError] past the end. *)
Definition byte_at (b : bytes) (i : nat) : outcome N :=
  or_raise (c ← b !! i; Some (Byte.to_N c)).

Record AuthenticatorData := {
  rp_id_hash : bytes;
  flags : N;
  sign_count : N;
  aaguid : bytes;
  cred_id_len : N;
  credential_id : bytes;
}.

(** Step 2 of [verify_attestation] (the six assignments under
    [# 2. Parse authData]) on a [bytes] value. *)
Definition parse_auth_data (auth_data : bytes) : outcome AuthenticatorData :=
  let rp_id_hash := slice auth_data 0 32 in
  flags ← byte_at auth_data 32;
  sign_count ← struct_unpack 4 (slice auth_data 33 37);
  let aaguid := slice auth_data 37 53 in
  cred_id_len ← struct_unpack 2 (slice auth_data 53 55);
  let credential_id := slice auth_data 55 (55 + N.to_nat cred_id_len) in
  Returned {| rp_id_hash := rp_id_hash; flags := flags;
              sign_count := sign_count; aaguid := aaguid;
              cred_id_len := cred_id_len; credential_id := credential_id |}.

(** The same step on whatever [att.get('authData')] gave.  On a value that
    is not [bytes] one of the six lines raises: [None], numbers and
    [POther] cannot be subscripted, a dict cannot be sliced, and
    [struct.unpack] refuses the slice of a [str] or of a list. *)
Definition parse_auth_data_value (auth_data : pyval) : outcome (bytes * AuthenticatorData) :=
  match auth_data with
  | PBytes b => ad ← parse_auth_data b; Returned (b, ad)
  | _ => Raised OtherException
  end.

(** [n.to_bytes(width, 'big')]: [None] stands for the [OverflowError]
    raised when [n] does not fit. *)
Fixpoint to_bytes_be (width : nat) (n : N) : option bytes :=
  match width with
  | O => if n =? 0 then Some [] else None
  | S width' =>
      high ← to_bytes_be width' (n / 256);
      low ← Byte.of_N (n mod 256);
      Some (high ++ [low])
  end.

(** ** The libraries

    What the scripts use of [base64], [cbor2], [hashlib], [json] and
    [cryptography].  Every theorem below holds for every instance, the real
    libraries included. *)

Inductive public_key :=
  | EllipticCurvePublicKey (x y : N)   (* [public_numbers().x], [.y] *)
  | OtherPublicKey.                    (* RSA, Ed25519, ... *)

Class Libraries := {
  (** [base64.b64decode(s)] *)
  b64decode : pyval -> outcome bytes;
  (** [base64.b64encode(b).decode()] *)
  b64encode : bytes -> string;
  (** [cbor2.loads(raw)] *)
  cbor2_loads : bytes -> outcome pyval;
  (** [hashlib.sha256(m).digest()] *)
  sha256 : bytes -> bytes;
  (** [json.dumps(payload, separators=(',', ':')).encode()] *)
  json_dumps : pyval -> outcome bytes;
  (** a loaded [x509.Certificate] *)
  certificate : Type;
  (** [x509.load_der_x509_certificate(der, default_backend())] *)
  load_der_x509_certificate : bytes -> outcome certificate;
  (** [x509.load_pem_x509_certificate(APPLE_ROOT_CA_PEM, default_backend())]:
      the PEM text is a constant of the script, and loading it is taken to
      succeed *)
  root_ca : certificate;
  (** [issuer.public_key().verify(cert.signature,
        cert.tbs_certificate_bytes, ec.ECDSA(cert.signature_hash_algorithm))] *)
  verify_issued_by : certificate -> certificate -> outcome unit;
  (** [cert.public_key()] *)
  cert_public_key : certificate -> outcome public_key;
  (** [ext = cert.extensions.get_extension_for_oid(APPLE_NONCE_OID)]
      followed by [ext.value.value] (or [bytes(ext.value)]) *)
  nonce_extension_payload : certificate -> outcome bytes;
  (** a key loaded by [serialization.load_der_public_key] *)
  loaded_key : Type;
  (** [serialization.load_der_public_key(der, default_backend())] *)
  load_der_public_key : bytes -> outcome loaded_key;
  (** [key.verify(signature, data, ec.ECDSA(hashes.SHA256()))] *)
  key_verify : loaded_key -> pyval -> bytes -> outcome unit;
}.

(** ** [verify_attestation] *)

(** The strings appended to [errors], one constructor per message. *)
Inductive error :=
  | InvalidFormat (fmt : pyval)          (* "Invalid format: {fmt}" *)
  | ChainTooShort                        (* "Certificate chain too short" *)
  | RpIdHashMismatch                     (* "rpIdHash mismatch" *)
  | ATFlagNotSet                         (* "AT flag not set" *)
  | SignCountNotZero (sign_count : N)    (* "signCount should be 0, got {sign_count}" *)
  | AaguidMismatch (env : string)        (* "aaguid mismatch (expected {env})" *)
  | IntermediateSignatureInvalid (e : exn)
                                         (* "Intermediate cert signature invalid: {e}" *)
  | LeafSignatureInvalid (e : exn)       (* "Leaf cert signature invalid: {e}" *)
  | LeafKeyNotEC                         (* "Leaf cert public key is not EC" *)
  | CredentialIdMismatch                 (* "credentialId != SHA256(publicKey)" *)
  | NonceMismatch                        (* "Nonce mismatch" *)
  | NonceExtensionNotFound               (* "Nonce extension not found" *)
  | NonceVerificationError (e : exn)     (* "Nonce verification error: {e}" *)
  | ParseError (e : exn).                (* "Parse error: {e}" *)

Record VerificationResult := {
  ok : bool;
  public_key_uncompressed : option bytes;
  public_key_x : option bytes;
  public_key_y : option bytes;
  key_id : option bytes;
  key_id_b64 : option string;
  result_credential_id : option bytes;
  errors : list error;
}.

(** [VerificationResult(False, None, None, None, None, None, cred, errors)] *)
Definition failed (cred : option bytes) (errors : list error) : VerificationResult :=
  {| ok := false; public_key_uncompressed := None; public_key_x := None;
     public_key_y := None; key_id := None; key_id_b64 := None;
     result_credential_id := cred; errors := errors |}.

(** *** Statements that append to [errors] and may raise

    A computation takes the current [errors] list and gives back the list
    as it has become, together with a value or the exception that ended it;
    what was appended before an exception stays appended. *)
Definition Verify (A : Type) : Type := list error -> outcome A * list error.

#[global] Instance verify_ret : MRet Verify := fun _ a errors => (Returned a, errors).
#[global] Instance verify_bind : MBind Verify := fun _ _ f m errors =>
  match m errors with
  | (Returned a, errors') => f a errors'
  | (Raised e, errors') => (Raised e, errors')
  end.

(** A call that may raise and leaves [errors] alone. *)
Definition call {A} (o : outcome A) : Verify A := fun errors => (o, errors).

(** [errors.append(e)] *)
Definition append (e : error) : Verify unit := fun errors => (Returned tt, errors ++ [e]).

(** Reading the [errors] variable. *)
Definition current_errors : Verify (list error) := fun errors => (Returned errors, errors).

(** [if c: body] *)
Definition when (c : bool) (body : Verify unit) : Verify unit :=
  if c then body else mret tt.

(** [try: body / except ... as e: handler] *)
Definition try_except (body : Verify unit) (handler : exn -> Verify unit) : Verify unit :=
  fun errors =>
    match body errors with
    | (Returned _, errors') => (Returned tt, errors')
    | (Raised e, errors') => handler e errors'
    end.

(** [fmt != 'apple-appattest'] *)
Definition differs_from_str (v : pyval) (s : string) : bool :=
  match v with
  | PStr s' => negb (bool_decide (s' = s))
  | _ => true
  end.

(** [x509.load_der_x509_certificate(v, ...)] on a Python value: the library
    takes [bytes] only. *)
Definition load_certificate `{Libraries} (v : pyval) : outcome certificate :=
  match v with
  | PBytes der => load_der_x509_certificate der
  | _ => Raised OtherException
  end.

(** [b"appattestdevelop" if env == "dev" else b"appattest" + b"\x00" * 7] *)
Definition expected_aaguid (env : string) : bytes :=
  if decide (env = "dev"%string) then encode "appattestdevelop"
  else encode "appattest" ++ repeat x00 7.

Section verification.
Context `{Libraries}.

(** The body of the outer [try] of [verify_attestation].  The debugging
    [print]s of the nonce step only write to the standard output: they are
    taken to succeed and are left out. *)
Definition verify_attestation_body (attestation_b64 : string)
    (challenge : bytes) (team_id bundle_id env : string)
    : Verify VerificationResult :=
  (* 1. Decode attestation *)
  raw ← call (b64decode (PStr attestation_b64));
  att ← call (cbor2_loads raw);
  fmt ← call (py_get att "fmt" PNone);
  if differs_from_str fmt "apple-appattest" then
    append (InvalidFormat fmt);;
    errors ← current_errors;
    mret (failed None errors)
  else
  att_stmt ← call (py_get att "attStmt" (PDict []));
  auth_data ← call (py_get att "authData" PNone);
  x5c ← call (py_get att_stmt "x5c" (PList []));
  chain_length ← call (py_len x5c);
  if chain_length <? 2 then
    append ChainTooShort;;
    errors ← current_errors;
    mret (failed None errors)
  else
  (* 2. Parse authData *)
  '(auth_data, ad) ← call (parse_auth_data_value auth_data);
  (* 3. Verify rpIdHash *)
  let expected_rp_hash :=
    sha256 (encode (team_id ++ "." ++ bundle_id)) in
  when (negb (bool_decide (rp_id_hash ad = expected_rp_hash)))
    (append RpIdHashMismatch);;
  (* 4. Verify flags (AT bit must be set) *)
  when (N.land (flags ad) 0x40 =? 0) (append ATFlagNotSet);;
  (* 5. Verify signCount == 0 *)
  when (negb (sign_count ad =? 0)) (append (SignCountNotZero (sign_count ad)));;
  (* 6. Verify aaguid *)
  when (negb (bool_decide (aaguid ad = expected_aaguid env)))
    (append (AaguidMismatch env));;
  (* 7. Load and verify certificate chain *)
  leaf_cert ← call (item ← py_item x5c 0; load_certificate item);
  intermediate ← call (item ← py_item x5c 1; load_certificate item);
  try_except (call (verify_issued_by root_ca intermediate))
    (fun e => append (IntermediateSignatureInvalid e));;
  try_except (call (verify_issued_by intermediate leaf_cert))
    (fun e => append (LeafSignatureInvalid e));;
  (* 8. Extract public key from leaf cert *)
  leaf_pk ← call (cert_public_key leaf_cert);
  match leaf_pk with
  | OtherPublicKey =>
      append LeafKeyNotEC;;
      errors ← current_errors;
      mret (failed (Some (credential_id ad)) errors)
  | EllipticCurvePublicKey x y =>
      x_bytes ← call (or_raise (to_bytes_be 32 x));
      y_bytes ← call (or_raise (to_bytes_be 32 y));
      let uncompressed := [x04] ++ x_bytes ++ y_bytes in
      let key_id := sha256 uncompressed in
      let key_id_b64 := b64encode key_id in
      (* 9. Verify credentialId == SHA256(uncompressed public key) *)
      when (negb (bool_decide (credential_id ad = key_id)))
        (append CredentialIdMismatch);;
      (* 10. Verify nonce *)
      try_except
        (payload ← call (nonce_extension_payload leaf_cert);
         cert_nonce ← call (extract_nonce_from_extension payload);
         let expected_nonce_1 := sha256 (auth_data ++ challenge) in
         let client_data_hash := sha256 challenge in
         let expected_nonce_2 := sha256 (auth_data ++ client_data_hash) in
         if bool_decide (cert_nonce = expected_nonce_1) then mret tt
         else if bool_decide (cert_nonce = expected_nonce_2) then mret tt
         else append NonceMismatch)
        (fun e =>
           match e with
           | ExtensionNotFound => append NonceExtensionNotFound
           | _ => append (NonceVerificationError e)
           end);;
      errors ← current_errors;
      let ok := bool_decide (length errors = 0%nat) in
      mret {| ok := ok;
              public_key_uncompressed := Some uncompressed;
              public_key_x := Some x_bytes;
              public_key_y := Some y_bytes;
              key_id := Some key_id;
              key_id_b64 := Some key_id_b64;
              result_credential_id := Some (credential_id ad);
              errors := errors |}
  end.

(** [verify_attestation]: [errors = []], the body, and the handler
    [except Exception as e] of the outer [try]. *)
Definition verify_attestation (attestation_b64 : string) (challenge : bytes)
    (team_id bundle_id env : string) : VerificationResult :=
  match verify_attestation_body attestation_b64 challenge team_id bundle_id env [] with
  | (Returned result, _) => result
  | (Raised e, errors) => failed None (errors ++ [ParseError e])
  end.

End verification.

(** ** [verify_assertion] *)

(** The third component of the result, one constructor per message (the
    symbol some of them start with is left out). *)
Inductive message :=
  | Replay (counter : N) (stored_counter : Z)
                                 (* "Replay: counter {counter} <= {stored_counter}" *)
  | Valid (counter : N)          (* "Valid (counter: {counter})" *)
  | InvalidSignatureMessage      (* "Invalid signature" *)
  | ErrorMessage (e : exn).      (* "Error: {e}" *)

Section assertion.
Context `{Libraries}.

(** [struct.unpack('>I', auth_data[33:37])[0]]: a value that is not
    [bytes] cannot be sliced, or gives a slice [struct.unpack] refuses. *)
Definition read_counter (auth_data : pyval) : outcome (bytes * N) :=
  match auth_data with
  | PBytes b => counter ← struct_unpack 4 (slice b 33 37); Returned (b, counter)
  | _ => Raised OtherException
  end.

(** The body of the [try] of [verify_assertion]. *)
Definition verify_assertion_body (signed_data : pydict)
    (public_key_bytes : bytes) (stored_counter : Z)
    : outcome (bool * Z * message) :=
  (* Extract fields *)
  passport_hash ← or_raise (dict_lookup signed_data (KStr "passportHash"));
  evm_address ← or_raise (dict_lookup signed_data (KStr "evmAddress"));
  assertion_b64 ← or_raise (dict_lookup signed_data (KStr "assertion"));
  (* Decode assertion *)
  assertion_data ← b64decode assertion_b64;
  assertion ← cbor2_loads assertion_data;
  signature ← py_subscript assertion "signature";
  auth_data ← py_subscript assertion "authenticatorData";
  (* Check counter *)
  '(auth_data, counter) ← read_counter auth_data;
  if (Z.of_N counter <=? stored_counter)%Z then
    Returned (false, stored_counter, Replay counter stored_counter)
  else
  (* Reconstruct signed payload *)
  let payload := PDict [(KStr "passportHash", passport_hash);
                        (KStr "evmAddress", evm_address)] in
  request_data ← json_dumps payload;
  (* Compute nonce = SHA256(authData || SHA256(requestData)) *)
  let client_data_hash := sha256 request_data in
  let nonce := sha256 (auth_data ++ client_data_hash) in
  (* Verify ECDSA signature *)
  public_key ← load_der_public_key public_key_bytes;
  key_verify public_key signature nonce;;
  Returned (true, Z.of_N counter, Valid counter).

(** [verify_assertion] with its two handlers, [except InvalidSignature]
    and [except Exception as e]. *)
Definition verify_assertion (signed_data : pydict) (public_key_bytes : bytes)
    (stored_counter : Z) : bool * Z * message :=
  match verify_assertion_body signed_data public_key_bytes stored_counter with
  | Returned result => result
  | Raised InvalidSignature => (false, stored_counter, InvalidSignatureMessage)
  | Raised e => (false, stored_counter, ErrorMessage e)
  end.

End assertion.

(** ** The checks of [verify_attestation], one by one

    What each numbered step appends to [errors], seen on its own; the
    theorems below relate the list the verifier returns to these. *)
Section checks.
Context `{Libraries}.

(** Step 3 *)
Definition rp_id_hash_errors (ad : AuthenticatorData) (team_id bundle_id : string)
    : list error :=
  if bool_decide (rp_id_hash ad = sha256 (encode (team_id ++ "." ++ bundle_id)))
  then [] else [RpIdHashMismatch].

(** Step 4 *)
Definition flag_errors (ad : AuthenticatorData) : list error :=
  if N.land (flags ad) 0x40 =? 0 then [ATFlagNotSet] else [].

(** Step 5 *)
Definition sign_count_errors (ad : AuthenticatorData) : list error :=
  if sign_count ad =? 0 then [] else [SignCountNotZero (sign_count ad)].

(** Step 6 *)
Definition aaguid_errors (ad : AuthenticatorData) (env : string) : list error :=
  if bool_decide (aaguid ad = expected_aaguid env) then [] else [AaguidMismatch env].

(** Step 7, either signature *)
Definition signature_errors (report : exn -> error) (parent child : certificate)
    : list error :=
  match verify_issued_by parent child with
  | Returned _ => []
  | Raised e => [report e]
  end.

(** Steps 3 to 7 in the order they run. *)
Definition errors_before_key (ad : AuthenticatorData)
    (team_id bundle_id env : string) (leaf_cert intermediate : certificate)
    : list error :=
  rp_id_hash_errors ad team_id bundle_id ++ flag_errors ad
  ++ sign_count_errors ad ++ aaguid_errors ad env
  ++ signature_errors IntermediateSignatureInvalid root_ca intermediate
  ++ signature_errors LeafSignatureInvalid intermediate leaf_cert.

(** Step 9 *)
Definition credential_errors (ad : AuthenticatorData) (key_id : bytes) : list error :=
  if bool_decide (credential_id ad = key_id) then [] else [CredentialIdMismatch].

(** The two handlers of step 10. *)
Definition nonce_handler_error (e : exn) : error :=
  match e with
  | ExtensionNotFound => NonceExtensionNotFound
  | _ => NonceVerificationError e
  end.

(** Step 10 *)
Definition nonce_errors (leaf_cert : certificate) (auth_data challenge : bytes)
    : list error :=
  match nonce_extension_payload leaf_cert with
  | Raised e => [nonce_handler_error e]
  | Returned payload =>
      match extract_nonce_from_extension payload with
      | Raised e => [nonce_handler_error e]
      | Returned cert_nonce =>
          if bool_decide (cert_nonce = sha256 (auth_data ++ challenge)
                          \/ cert_nonce = sha256 (auth_data ++ sha256 challenge))
          then [] else [NonceMismatch]
      end
  end.

(** The submission decodes to a dict with the expected format tag, in
    which [att.get('authData')] is [auth_data] and
    [att.get('attStmt', {}).get('x5c', [])] is [x5c]. *)
Definition decodes (attestation_b64 : string) (auth_data x5c : pyval) : Prop :=
  exists raw att att_stmt,
    b64decode (PStr attestation_b64) = Returned raw
    /\ cbor2_loads raw = Returned (PDict att)
    /\ dict_lookup att (KStr "fmt") = Some (PStr "apple-appattest")
    /\ py_get (PDict att) "attStmt" (PDict []) = Returned att_stmt
    /\ py_get (PDict att) "authData" PNone = Returned auth_data
    /\ py_get att_stmt "x5c" (PList []) = Returned x5c.


End checks.

(** ** Assertions about [Verify] computations *)

(** [post m errors Q]: run from [errors], [m] ends in an outcome and an
    [errors] list that satisfy [Q]. *)
Definition post {A} (m : Verify A) (errors : list error)
    (Q : outcome A -> list error -> Prop) : Prop :=
  Q (m errors).1 (m errors).2.

(** [m] keeps [I] true of the [errors] list. *)
Definition keeps {A} (I : list error -> Prop) (m : Verify A) : Prop :=
  forall errors, I errors -> I (m errors).2.


(** The assertion decodes: the three fields are there, and the CBOR map
    holds [signature] and a byte string [auth_data] whose bytes 33 to 36
    read as [counter]. *)
Definition assertion_decodes `{Libraries} (signed_data : pydict)
    (passport_hash evm_address signature : pyval) (auth_data : bytes)
    (counter : N) : Prop :=
  exists assertion_b64 raw assertion,
    dict_lookup signed_data (KStr "passportHash") = Some passport_hash
    /\ dict_lookup signed_data (KStr "evmAddress") = Some evm_address
    /\ dict_lookup signed_data (KStr "assertion") = Some assertion_b64
    /\ b64decode assertion_b64 = Returned raw
    /\ cbor2_loads raw = Returned assertion
    /\ py_subscript assertion "signature" = Returned signature
    /\ py_subscript assertion "authenticatorData" = Returned (PBytes auth_data)
    /\ struct_unpack 4 (slice auth_data 33 37) = Returned counter.

(** ** A stand-in for the libraries

    One instance of [Libraries], small enough to run the verifiers on
    explicit inputs.  A text of four characters, or a multiple of four,
    decodes to [container]; a certificate is a record of what the verifier
    asks of it, and [store] lists the byte strings that load as
    certificates; the digest is a 32-byte checksum; a signature is the
    digest of key and data. *)
Module StandIn.

Record cert := {
  subject : N;
  issuer : N;
  key : outcome public_key;
  nonce_payload : outcome bytes;
}.

Definition checksum (m : bytes) : bytes :=
  let s := foldl (fun acc c => (acc * 31 + Byte.to_N c + 7) mod 256) 0 m in
  repeat (default x00 (Byte.of_N s)) 32.

Fixpoint load (store : list (bytes * cert)) (der : bytes) : outcome cert :=
  match store with
  | [] => Raised OtherException
  | (d, c) :: rest => if decide (d = der) then Returned c else load rest der
  end.

Definition root : cert :=
  {| subject := 0; issuer := 0; key := Returned OtherPublicKey;
     nonce_payload := Raised ExtensionNotFound |}.

Definition libraries (container : outcome pyval) (store : list (bytes * cert))
    : Libraries :=
  {| b64decode := fun v =>
       match v with
       | PStr s =>
           if (length (encode s) mod 4 =? 0)%nat then Returned (encode s)
           else Raised OtherException        (* "Incorrect padding" *)
       | _ => Raised OtherException
       end;
     b64encode := String.string_of_list_byte;
     cbor2_loads := fun _ => container;
     sha256 := checksum;
     json_dumps := fun v =>
       match v with
       | PDict [(_, PStr a); (_, PStr b)] => Returned (encode a ++ encode b)
       | _ => Raised OtherException
       end;
     certificate := cert;
     load_der_x509_certificate := load store;
     root_ca := root;
     verify_issued_by := fun parent child =>
       if issuer child =? subject parent then Returned tt
       else Raised InvalidSignature;
     cert_public_key := key;
     nonce_extension_payload := nonce_payload;
     loaded_key := bytes;
     load_der_public_key := fun der =>
       match parse_ec_public_key der with
       | Some _ => Returned der
       | None => Raised OtherException
       end;
     key_verify := fun k signature data =>
       match signature with
       | PBytes s =>
           if bool_decide (s = checksum (k ++ data)) then Returned tt
           else Raised InvalidSignature
       | _ => Raised OtherException
       end |}.

(** *** An attestation submission *)

Definition team_id : string := "TEAM123456".
Definition bundle_id : string := "com.example.app".
Definition challenge : bytes := encode "challenge".

(** The base point of P-256. *)
Definition key_x : N :=
  0x6b17d1f2e12c4247f8bce6e563a440f277037d812deb33a0f4a13945d898c296.
Definition key_y : N :=
  0x4fe342e2fe1a7f9b8ee7eb4a7c0f9e162bce33576b315ececbb6406837bf51f5.
Definition point : bytes :=
  [x04] ++ default [] (to_bytes_be 32 key_x) ++ default [] (to_bytes_be 32 key_y).

(** [authenticatorData] with the given counter and credential id. *)
Definition auth_data (count : bytes) (cred : bytes) : bytes :=
  checksum (encode (team_id ++ "." ++ bundle_id))
  ++ [x40] ++ count ++ expected_aaguid "dev" ++ [x00; x20] ++ cred.

Definition good_auth_data : bytes := auth_data [x00; x00; x00; x00] (checksum point).

(** The leaf certificate for [authenticatorData] [ad]: the nonce under a
    SEQUENCE and a context tag [1]. *)
Definition leaf (ad : bytes) : cert :=
  {| subject := 2; issuer := 1;
     key := Returned (EllipticCurvePublicKey key_x key_y);
     nonce_payload :=
       Returned ([x30; x24; xa1; x22; x04; x20] ++ checksum (ad ++ challenge)) |}.

Definition intermediate : cert :=
  {| subject := 1; issuer := 0; key := Returned OtherPublicKey;
     nonce_payload := Raised ExtensionNotFound |}.

(** A leaf whose key is not an elliptic-curve key and that has no nonce
    extension. *)
Definition rsa_leaf : cert :=
  {| subject := 3; issuer := 1; key := Returned OtherPublicKey;
     nonce_payload := Raised ExtensionNotFound |}.

Definition leaf_der : bytes := encode "leaf".
Definition intermediate_der : bytes := encode "intermediate".
Definition rsa_leaf_der : bytes := encode "rsa-leaf".

Definition store (ad : bytes) : list (bytes * cert) :=
  [(leaf_der, leaf ad); (intermediate_der, intermediate); (rsa_leaf_der, rsa_leaf)].

(** The decoded container [{'fmt': ..., 'attStmt': {'x5c': chain},
    'authData': ad}]. *)
Definition container (chain : list pyval) (ad : bytes) : pyval :=
  PDict [(KStr "fmt", PStr "apple-appattest");
         (KStr "attStmt", PDict [(KStr "x5c", PList chain)]);
         (KStr "authData", PBytes ad)].

Definition attestation (chain : list pyval) (ad : bytes) : Libraries :=
  libraries (Returned (container chain ad)) (store ad).

(** *** An assertion submission *)

Definition public_key_der : bytes :=
  default [] (build_der_public_key (default [] (to_bytes_be 32 key_x))
                                   (default [] (to_bytes_be 32 key_y))).

(** [authenticatorData] of an assertion: 32 bytes of hash, the flags, the
    counter. *)
Definition assertion_auth_data (count : bytes) : bytes :=
  checksum (encode (team_id ++ "." ++ bundle_id)) ++ [x00] ++ count.

Definition signed_payload : bytes := encode "0xabc" ++ encode "0x123".

Definition assertion_signature (count : bytes) : bytes :=
  checksum (public_key_der
            ++ checksum (assertion_auth_data count ++ checksum signed_payload)).

Definition assertion (count : bytes) : Libraries :=
  libraries
    (Returned (PDict [(KStr "signature", PBytes (assertion_signature count));
                      (KStr "authenticatorData", PBytes (assertion_auth_data count))]))
    [].

Definition signed_data : pydict :=
  [(KStr "passportHash", PStr "0xabc"); (KStr "evmAddress", PStr "0x123");
   (KStr "assertion", PStr "AAAA")].

End StandIn.

(** * More of the scripts

    What the properties after the claims need on top of the definitions
    above: the walker seen element by element, the results of
    [verify_attestation] and [VerificationResult.dump], the builtins behind
    the key files ([bytes.hex], [bytes.fromhex], [str.find],
    [str.replace]), [save_public_key] on a store of files,
    [parse_assertion], and [main] of [verify_attestation.py] run from its
    arguments. *)

(** ** The walker, element by element *)

(** What the loop of [find_octet32] makes of one element with tag [tag]
    and content [value], met at nesting [depth]. *)
Definition element_result (gas : nat) (depth : N) (tag : byte) (value : bytes)
    : option bytes :=
  if bool_decide (tag = x04) && (len value =? 32) then Some value
  else if recurse_into tag then find_octet32_rec gas value (depth + 1)
  else None.

(** One layer around a content: a tag, a length field, and whatever bytes
    follow the content at the same level. *)
Record layer := {
  layer_tag : byte;
  layer_length : bytes;
  layer_after : bytes;
}.

Definition wrap_layer (l : layer) (content : bytes) : bytes :=
  [layer_tag l] ++ layer_length l ++ content ++ layer_after l.

Fixpoint wrap (layers : list layer) (inner : bytes) : bytes :=
  match layers with
  | [] => inner
  | l :: rest => wrap_layer l (wrap rest inner)
  end.

(** Every layer has a tag the walker descends into and a length field that
    reads as the length of what it holds, and none is itself an OCTET
    STRING of 32 bytes. *)
Fixpoint layers_fit (layers : list layer) (inner : bytes) : Prop :=
  match layers with
  | [] => True
  | l :: rest =>
      recurse_into (layer_tag l) = true
      /\ length_field (layer_length l) (len (wrap rest inner))
      /\ ~ (layer_tag l = x04 /\ len (wrap rest inner) = 32)
      /\ layers_fit rest inner
  end.


(** ** Results of [verify_attestation] *)

(** The [VerificationResult(ok=ok, public_key_uncompressed=uncompressed, ...)]
    that ends the body of [verify_attestation]. *)
Definition keyed_result `{Libraries} (x_bytes y_bytes credential_id : bytes)
    (errors : list error) : VerificationResult :=
  let uncompressed := [x04] ++ x_bytes ++ y_bytes in
  {| ok := bool_decide (length errors = 0%nat);
     public_key_uncompressed := Some uncompressed;
     public_key_x := Some x_bytes;
     public_key_y := Some y_bytes;
     key_id := Some (sha256 uncompressed);
     key_id_b64 := Some (b64encode (sha256 uncompressed));
     result_credential_id := Some (credential_id);
     errors := errors |}.

(** The submission gets as far as step 3: it decodes, the chain [x5c] has a
    length of 2 or more, and [authData] is the byte string [auth_data],
    which reads as [ad]. *)
Definition parses `{Libraries} (attestation_b64 : string) (auth_data : bytes)
    (ad : AuthenticatorData) (x5c : pyval) : Prop :=
  decodes attestation_b64 (PBytes auth_data) x5c
  /\ (exists n, py_len x5c = Returned n /\ 2 <= n)
  /\ parse_auth_data auth_data = Returned ad.

(** Steps 3 to 6 in the order they run. *)
Definition auth_data_errors `{Libraries} (ad : AuthenticatorData)
    (team_id bundle_id env : string) : list error :=
  rp_id_hash_errors ad team_id bundle_id ++ flag_errors ad
  ++ sign_count_errors ad ++ aaguid_errors ad env.

(** [load_der_x509_certificate(x5c[i], default_backend())] *)
Definition load_chain_entry `{Libraries} (x5c : pyval) (i : nat)
    : outcome certificate :=
  item ← py_item x5c i; load_certificate item.

(** [VerificationResult.dump], as far as it can fail or branch.  Under
    [if self.ok:] it calls [.hex()] on five of the optional fields and
    [base64.b64encode] on [credential_id], each of which raises on [None],
    and then compares [credential_id] with [key_id].  The value returned
    here tells which of the two messages is printed: [Some true] for
    "credentialId == keyId (correct)", [Some false] for "credentialId !=
    keyId (mismatch)", [None] when [ok] is false and neither is.  The text
    that is printed is left out. *)
Definition dump (r : VerificationResult) : outcome (option bool) :=
  if ok r then
    _ ← or_raise (public_key_uncompressed r);
    _ ← or_raise (public_key_x r);
    _ ← or_raise (public_key_y r);
    key_id ← or_raise (key_id r);
    credential_id ← or_raise (result_credential_id r);
    Returned (Some (bool_decide (credential_id = key_id)))
  else Returned None.

(** *** Stand-ins for other leaf certificates *)



(** A submission like the one of [StandIn], with a leaf key on another
    curve of the same size: the base point of secp256k1. *)
Definition other_curve_x : N :=
  0x79be667ef9dcbbac55a06295ce870b07029bfcdb2dce28d959f2815b16f81798.
Definition other_curve_y : N :=
  0x483ada7726a3c4655da4fbfc0e1108a8fd17b448a68554199c47d08ffb10d4b8.

Definition other_curve_point : bytes :=
  [x04] ++ default [] (to_bytes_be 32 other_curve_x)
  ++ default [] (to_bytes_be 32 other_curve_y).

Definition other_curve_auth_data : bytes :=
  StandIn.auth_data [x00; x00; x00; x00] (StandIn.checksum other_curve_point).

Definition other_curve_leaf : StandIn.cert :=
  {| StandIn.subject := 2; StandIn.issuer := 1;
     StandIn.key := Returned (EllipticCurvePublicKey other_curve_x other_curve_y);
     StandIn.nonce_payload :=
       StandIn.nonce_payload (StandIn.leaf other_curve_auth_data) |}.

Definition other_curve_attestation : Libraries :=
  StandIn.libraries
    (Returned (StandIn.container
                 [PBytes StandIn.leaf_der; PBytes StandIn.intermediate_der]
                 other_curve_auth_data))
    [(StandIn.leaf_der, other_curve_leaf);
     (StandIn.intermediate_der, StandIn.intermediate)].

(** ** [bytes.hex], [bytes.fromhex], [str.find] and [str.replace] *)

Definition hex_digit (n : N) : Ascii.ascii :=
  default Ascii.zero (String.get (N.to_nat n) "0123456789abcdef").

(** [b.hex()]: two lower-case digits for each byte. *)
Fixpoint hex (b : bytes) : string :=
  match b with
  | [] => EmptyString
  | c :: rest =>
      String (hex_digit (Byte.to_N c / 16))
        (String (hex_digit (Byte.to_N c mod 16)) (hex rest))
  end.

(** The white space [bytes.fromhex] passes over: tab, line feed, vertical
    tab, form feed, carriage return and the space. *)
Definition is_space (c : Ascii.ascii) : bool :=
  let n := Ascii.N_of_ascii c in
  ((9 <=? n) && (n <=? 13)) || (n =? 32).

(** The value of a hexadecimal digit, in either case. *)
Definition hex_value (c : Ascii.ascii) : option N :=
  let n := Ascii.N_of_ascii c in
  if (48 <=? n) && (n <=? 57) then Some (n - 48)
  else if (97 <=? n) && (n <=? 102) then Some (n - 87)
  else if (65 <=? n) && (n <=? 70) then Some (n - 55)
  else None.

(** [bytes.fromhex(s)]: white space is passed over before each pair of
    digits, and [None] stands for the [ValueError] raised on anything that
    is not a digit or on a pair cut short. *)
Fixpoint fromhex (s : string) : option bytes :=
  match s with
  | EmptyString => Some []
  | String c rest =>
      if is_space c then fromhex rest
      else
        match rest with
        | EmptyString => None
        | String d rest' =>
            top ← hex_value c;
            bot ← hex_value d;
            value ← Byte.of_N (top * 16 + bot);
            tail ← fromhex rest';
            Some (value :: tail)
        end
  end.

(** [s.find(old)]: the index of the first place where [old] stands in [s],
    [None] for [-1]. *)
Fixpoint str_find (old s : string) : option nat :=
  if String.prefix old s then Some 0%nat
  else
    match s with
    | EmptyString => None
    | String _ rest => S <$> str_find old rest
    end.

(** [s.replace(old, new)] for a non-empty [old]: every place where [old]
    stands is replaced, from left to right, and the search goes on after the
    replaced part.  [skip] counts the characters of a replaced [old] that
    are still to be passed. *)
Fixpoint replace_from (old new : string) (skip : nat) (s : string) : string :=
  match s with
  | EmptyString => EmptyString
  | String c rest =>
      match skip with
      | S skip' => replace_from old new skip' rest
      | O =>
          if String.prefix old s
          then (new ++ replace_from old new (String.length old - 1) rest)%string
          else String c (replace_from old new 0 rest)
      end
  end.

Definition str_replace (s old new : string) : string := replace_from old new 0 s.

(** ** [save_public_key] *)

(** The files the script writes, by path.  Paths are taken as they are
    written: two different texts are two different files. *)
Abbreviation files := (gmap string bytes).

Class Storage := {
  (** the text [json.dump(data, f, indent=2)] writes for a [data] made of
      strings and [None], on which it does not raise *)
  json_dump : pyval -> bytes;
  (** whether [open(path, 'w')] and [open(path, 'wb')] succeed *)
  writable : string -> bool;
}.

(** [with open(path, mode) as f: f.write(data)] for a mode that
    truncates: [OSError] when the file cannot be opened. *)
Definition write_file `{Storage} (path : string) (data : bytes) (fs : files)
    : outcome unit * files :=
  if writable path then (Returned tt, <[path := data]> fs)
  else (Raised OtherException, fs).

(** An [Optional[str]] as a value. *)
Definition optional_str (s : option string) : pyval :=
  match s with
  | Some s => PStr s
  | None => PNone
  end.

(** The dict [data] of [save_public_key].  [.hex()] and
    [base64.b64encode] raise on a field that is [None]. *)
Definition key_file_data `{Libraries} (result : VerificationResult)
    (der_key : bytes) : outcome pyval :=
  key_id ← or_raise (key_id result);
  uncompressed ← or_raise (public_key_uncompressed result);
  x ← or_raise (public_key_x result);
  y ← or_raise (public_key_y result);
  Returned
    (PDict
       [(KStr "keyId", optional_str (key_id_b64 result));
        (KStr "keyIdHex", PStr (hex key_id));
        (KStr "publicKey",
         PDict
           [(KStr "uncompressed", PStr (hex uncompressed));
            (KStr "uncompressedB64", PStr (b64encode uncompressed));
            (KStr "der", PStr (hex der_key));
            (KStr "derB64", PStr (b64encode der_key));
            (KStr "x", PStr (hex x));
            (KStr "y", PStr (hex y));
            (KStr "xB64", PStr (b64encode x));
            (KStr "yB64", PStr (b64encode y))])]).

(** [save_public_key(result, output_path)] run on the files [fs]: what it
    raises, if anything, and the files as it leaves them.  The [print]s are
    left out. *)
Definition save_public_key `{Libraries} `{Storage} (result : VerificationResult)
    (output_path : string) (fs : files) : outcome unit * files :=
  if negb (ok result) || negb (truthy (public_key_uncompressed result))
  then (Returned tt, fs)
  else
    (* Build DER-encoded public key; [b'\x04' + x + y] raises on [None] *)
    match
      x ← or_raise (public_key_x result);
      y ← or_raise (public_key_y result);
      der_key ← or_raise (build_der_public_key x y);
      (* Save as JSON with all formats (including DER) *)
      data ← key_file_data result der_key;
      Returned (der_key, data)
    with
    | Raised e => (Raised e, fs)
    | Returned (der_key, data) =>
        match write_file output_path (json_dump data) fs with
        | (Raised e, fs) => (Raised e, fs)
        | (Returned _, fs) =>
            (* Also save DER file for direct use *)
            let der_path := str_replace output_path ".json" ".der" in
            write_file der_path der_key fs
        end
    end.

(** A storage for examples: the JSON text is a fixed text, and every path
    can be written except those that start with a slash. *)
Definition example_storage : Storage :=
  {| json_dump := fun _ => encode "{}";
     writable := fun path => negb (String.prefix "/" path) |}.

(** ** [parse_assertion] *)

(** The dict [parse_assertion] returns. *)
Record ParsedAssertion := {
  parsed_rp_id_hash : option string;
  parsed_flags : option N;
  parsed_counter : option N;
  signature_length : N;
  raw_auth_data : pyval;
  raw_signature : pyval;
}.

(** The three entries read from [auth_data], each of the form
    [... if auth_data else None].  [None], [False], [0] and the empty
    string, byte string, list and dict are false.  On a byte string that is
    not empty, [auth_data[32]] and [struct.unpack] raise when it is too
    short; on any other value that is true, [auth_data[:32].hex()] raises.
    Whether an object of another class is true, and what slicing it gives,
    depends on the class: the outer [None] says that the model of values
    does not settle the result. *)
Definition auth_data_entries (auth_data : pyval)
    : option (outcome (option string * option N * option N)) :=
  match auth_data with
  | POther _ => None
  | PBytes ((_ :: _) as b) =>
      Some (flags ← byte_at b 32;
            counter ← struct_unpack 4 (slice b 33 37);
            Returned (Some (hex (slice b 0 32)), Some flags, Some counter))
  | PNone | PBool false | PInt 0 | PStr EmptyString
  | PBytes [] | PList [] | PDict [] => Some (Returned (None, None, None))
  | _ => Some (Raised OtherException)
  end.

(** [len(signature) if signature else 0]: a container that is false has
    length 0, so that the entry is its length in either case; [True] and a
    number other than 0 have no length. *)
Definition signature_length_entry (signature : pyval) : option (outcome N) :=
  match signature with
  | POther _ => None
  | PNone | PBool false | PInt 0 => Some (Returned 0)
  | _ => Some (py_len signature)
  end.

(** [parse_assertion(assertion_b64)] *)
Definition parse_assertion `{Libraries} (assertion_b64 : pyval)
    : option (outcome ParsedAssertion) :=
  match
    assertion_data ← b64decode assertion_b64;
    assertion ← cbor2_loads assertion_data;
    auth_data ← py_get assertion "authenticatorData" PNone;
    signature ← py_get assertion "signature" PNone;
    Returned (auth_data, signature)
  with
  | Raised e => Some (Raised e)
  | Returned (auth_data, signature) =>
      match auth_data_entries auth_data with
      | None => None
      | Some (Raised e) => Some (Raised e)
      | Some (Returned (rp_id_hash, flags, counter)) =>
          match signature_length_entry signature with
          | None => None
          | Some (Raised e) => Some (Raised e)
          | Some (Returned length) =>
              Some (Returned {| parsed_rp_id_hash := rp_id_hash;
                                parsed_flags := flags;
                                parsed_counter := counter;
                                signature_length := length;
                                raw_auth_data := auth_data;
                                raw_signature := signature |})
          end
      end
  end.

(** ** The algorithm identifier *)

(** The [algo_seq] of [build_der_public_key]: a SEQUENCE of the two OIDs,
    21 bytes whatever the key. *)
Definition algorithm_identifier : bytes :=
  [x30; x13] ++ [x06; x07] ++ ec_public_key_oid ++ [x06; x08] ++ prime256v1_oid.

(** ** [main] of [verify_attestation.py], run from arguments *)

(** A [str] that comes from the command line is kept as the bytes that
    were typed.  Bytes that are no UTF-8 reach the program as lone
    surrogates, one for each byte, and [s.encode()] raises on them; on
    well-formed UTF-8 it gives the bytes back.  Well-formed is meant as in
    the Unicode standard (table 3-7): shortest form only, no surrogates,
    nothing above U+10FFFF. *)
Definition in_range (lo hi : N) (c : byte) : bool :=
  (lo <=? Byte.to_N c) && (Byte.to_N c <=? hi).

(** The first two bytes of a sequence of three. *)
Definition three_byte_start (c c1 : byte) : bool :=
  (bool_decide (c = xe0) && in_range 0xA0 0xBF c1)
  || (in_range 0xE1 0xEC c && in_range 0x80 0xBF c1)
  || (bool_decide (c = xed) && in_range 0x80 0x9F c1)
  || (in_range 0xEE 0xEF c && in_range 0x80 0xBF c1).

(** The first two bytes of a sequence of four. *)
Definition four_byte_start (c c1 : byte) : bool :=
  (bool_decide (c = xf0) && in_range 0x90 0xBF c1)
  || (in_range 0xF1 0xF3 c && in_range 0x80 0xBF c1)
  || (bool_decide (c = xf4) && in_range 0x80 0x8F c1).

Fixpoint well_formed_utf8 (b : bytes) : bool :=
  match b with
  | [] => true
  | c :: rest =>
      if in_range 0x00 0x7F c then well_formed_utf8 rest
      else
        match rest with
        | [] => false
        | c1 :: rest1 =>
            if in_range 0xC2 0xDF c then
              in_range 0x80 0xBF c1 && well_formed_utf8 rest1
            else
              match rest1 with
              | [] => false
              | c2 :: rest2 =>
                  if three_byte_start c c1 then
                    in_range 0x80 0xBF c2 && well_formed_utf8 rest2
                  else
                    match rest2 with
                    | [] => false
                    | c3 :: rest3 =>
                        four_byte_start c c1 && in_range 0x80 0xBF c2
                        && in_range 0x80 0xBF c3 && well_formed_utf8 rest3
                    end
              end
        end
  end.

(** [s.encode()] on such a [str]: [UnicodeEncodeError] on a lone
    surrogate. *)
Definition str_encode (s : string) : outcome bytes :=
  if well_formed_utf8 (encode s) then Returned (encode s)
  else Raised OtherException.

(** What [argparse] hands over when [--file] is not given: each of
    [--attestation], [--challenge], [--team-id], [--bundle-id] and
    [--output] is a string or [None], and [--env] is a string. *)
Record arguments := {
  attestation : option string;
  challenge : option string;
  team_id : option string;
  bundle_id : option string;
  env : string;
  output : option string;
}.

(** The truth value of an [Optional[str]]: [None] and the empty string are
    false. *)
Definition given (s : option string) : bool :=
  match s with
  | Some (String _ _) => true
  | _ => false
  end.

(** An [Optional[str]] that is [None] or well-formed text. *)
Definition encodable (s : option string) : Prop :=
  well_formed_utf8 (encode (default EmptyString s)) = true.

(** Arguments as [argparse] lets them through, written in well-formed
    text where the text is encoded or printed: [--env] is one of its two
    choices, and [--team-id], [--bundle-id] and [--output] hold no lone
    surrogate.  The attestation and the challenge are any text. *)
Definition plain_arguments (args : arguments) : Prop :=
  encodable (team_id args) /\ encodable (bundle_id args)
  /\ encodable (output args)
  /\ (env args = "dev"%string \/ env args = "prod"%string).

(** [s[2:]] *)
Definition from_third (s : string) : string :=
  match s with
  | String _ (String _ rest) => rest
  | _ => EmptyString
  end.

Class StrictBase64 := {
  (** [base64.b64decode(s, validate=True)] *)
  b64decode_validate : string -> outcome bytes;
}.

(** The part of [main] under [# Parse challenge]: hexadecimal after [0x],
    else base64 when the text decodes as such, else the text itself,
    encoded.  The first branch raises on what is not hexadecimal, and the
    last, which is the handler of the [try], on text that cannot be
    encoded. *)
Definition parse_challenge `{StrictBase64} (challenge_str : string)
    : outcome bytes :=
  if String.prefix "0x" challenge_str then
    or_raise (fromhex (from_third challenge_str))
  else
    match b64decode_validate challenge_str with
    | Returned decoded => Returned decoded
    | Raised _ => str_encode challenge_str
    end.

(** [main()] once the arguments are parsed, without [--file]: what it
    raises, if anything, and the files as it leaves them.  What it prints is
    left out: the standard output is taken to accept the text, symbols
    included. *)
Definition main `{Libraries} `{Storage} `{StrictBase64} (args : arguments)
    (fs : files) : outcome unit * files :=
  let attestation_b64 := attestation args in
  let challenge_str := default EmptyString (challenge args) in
  if negb (given attestation_b64) then (Returned tt, fs)
  else if negb (given (team_id args)) || negb (given (bundle_id args))
  then (Returned tt, fs)
  else
    (* Parse challenge (supports: raw string, hex with 0x prefix, or base64) *)
    match parse_challenge challenge_str with
    | Raised e => (Raised e, fs)
    | Returned challenge =>
        (* Verify *)
        let result :=
          verify_attestation (default EmptyString attestation_b64) challenge
            (default EmptyString (team_id args))
            (default EmptyString (bundle_id args)) (env args) in
        match dump result with
        | Raised e => (Raised e, fs)
        | Returned _ =>
            (* Save if requested *)
            if given (output args) && ok result
            then save_public_key result (default EmptyString (output args)) fs
            else (Returned tt, fs)
        end
    end.
(** ** Facts about the DER encoder *)

Lemma der_len_short n : n < 128 ->
  exists c, Byte.to_N c = n /\ der_len n = Some [c].
Proof.
  intros Hn. unfold der_len. rewrite (proj2 (N.ltb_lt _ _) Hn).
  destruct (Byte.of_N n) as [c|] eqn:Hc.
  - exists c. split; [by apply Byte.to_of_N|]. cbn. by rewrite Hc.
  - pose proof (Byte.to_of_N_option_map n) as H. rewrite Hc in H. cbn in H.
    destruct (N.leb_spec n 255); [discriminate | lia].
Qed.

Lemma of_N_total n : n < 256 -> exists c, Byte.of_N n = Some c /\ Byte.to_N c = n.
Proof.
  intros Hn. destruct (Byte.of_N n) as [c|] eqn:Hc.
  - exists c. split; [done | by apply Byte.to_of_N].
  - pose proof (Byte.to_of_N_option_map n) as H. rewrite Hc in H. cbn in H.
    destruct (N.leb_spec n 255); [discriminate | lia].
Qed.

Lemma der_len_one_byte n : 128 <= n < 256 ->
  exists c, Byte.to_N c = n /\ der_len n = Some [x81; c].
Proof.
  intros [Hlo Hhi]. unfold der_len.
  rewrite (proj2 (N.ltb_ge _ _) Hlo), (proj2 (N.ltb_lt _ _) Hhi).
  destruct (of_N_total n Hhi) as (c & Hc & Hto).
  exists c. split; [done|]. cbn. by rewrite Hc.
Qed.

Lemma der_len_two_bytes n : 256 <= n < 65536 ->
  exists hi lo, Byte.to_N hi * 256 + Byte.to_N lo = n
                /\ der_len n = Some [x82; hi; lo].
Proof.
  intros [Hlo Hhi]. unfold der_len.
  rewrite (proj2 (N.ltb_ge n 128)) by lia.
  rewrite (proj2 (N.ltb_ge n 256)) by lia.
  assert (Hq : N.shiftr n 8 < 256).
  { rewrite N.shiftr_div_pow2. change (2 ^ 8) with 256.
    apply N.Div0.div_lt_upper_bound. lia. }
  assert (Hr : N.land n 0xff < 256).
  { change 0xff with (N.ones 8). rewrite N.land_ones. change (2 ^ 8) with 256.
    apply N.mod_lt. lia. }
  destruct (of_N_total _ Hq) as (hi & Hhi' & Hhito).
  destruct (of_N_total _ Hr) as (lo & Hlo' & Hloto).
  exists hi, lo. split.
  - rewrite Hhito, Hloto, N.shiftr_div_pow2.
    change 0xff with (N.ones 8). rewrite N.land_ones. change (2 ^ 8) with 256.
    pose proof (N.div_mod n 256). lia.
  - cbn. rewrite Hhi', Hlo'. done.
Qed.

Lemma der_len_too_large n : 65536 <= n -> der_len n = None.
Proof.
  intros Hn. unfold der_len.
  rewrite (proj2 (N.ltb_ge n 128)) by lia.
  rewrite (proj2 (N.ltb_ge n 256)) by lia.
  assert (Hq : 256 <= N.shiftr n 8).
  { rewrite N.shiftr_div_pow2. change (2 ^ 8) with 256.
    apply N.div_le_lower_bound; lia. }
  cbn. destruct (Byte.of_N (N.shiftr n 8)) as [c|] eqn:Hc; [|done].
  apply Byte.to_of_N in Hc. pose proof (Byte.to_N_bounded c). lia.
Qed.

(** Reading back a length written by [der_len]. *)
Lemma der_read_len_der_len n l rest :
  der_len n = Some l -> der_read_len (l ++ rest) = Some (n, rest).
Proof.
  intros Hl.
  destruct (N.lt_ge_cases n 128) as [H1|H1].
  { destruct (der_len_short n H1) as (c & Hc & E). rewrite E in Hl.
    injection Hl as <-. cbn. rewrite Hc, (proj2 (N.ltb_lt _ _) H1). done. }
  destruct (N.lt_ge_cases n 256) as [H2|H2].
  { destruct (der_len_one_byte n (conj H1 H2)) as (c & Hc & E). rewrite E in Hl.
    injection Hl as <-. cbn. by rewrite Hc. }
  destruct (N.lt_ge_cases n 65536) as [H3|H3].
  { destruct (der_len_two_bytes n (conj H2 H3)) as (hi & lo & Hc & E).
    rewrite E in Hl. injection Hl as <-. cbn. by rewrite Hc. }
  rewrite der_len_too_large in Hl by done. discriminate.
Qed.

(** [cbn] does not compute [N] arithmetic under stdpp's settings; closed
    calls of [der_len] are evaluated by conversion instead. *)
Ltac eval_der_len :=
  repeat match goal with
    | |- context [der_len ?n] =>
        let v := eval vm_compute in (der_len n) in
        progress change (der_len n) with v
    end.

Lemma build_der_public_key_p256 (x y : bytes) :
  length x = 32%nat -> length y = 32%nat ->
  build_der_public_key x y = Some (spki_p256_header ++ [x04] ++ x ++ y).
Proof.
  intros Hx Hy.
  unfold build_der_public_key, len, ec_public_key_oid, prime256v1_oid.
  cbn [length app]. rewrite length_app, Hx, Hy.
  eval_der_len. cbn [mbind option_bind length app].
  rewrite length_app, Hx, Hy. eval_der_len. reflexivity.
Qed.

Lemma expect_tlv_short tag c b v rest :
  Byte.to_N c < 128 -> len v = Byte.to_N c -> b = v ++ rest ->
  expect_tlv tag (tag :: c :: b) = Some (v, rest).
Proof.
  intros Hc Hv ->. unfold expect_tlv, der_read_tlv, der_read_len.
  rewrite (proj2 (N.ltb_lt _ _) Hc). cbn [mbind option_bind].
  rewrite <- Hv. unfold len.
  rewrite (proj2 (N.ltb_ge _ _)) by (rewrite length_app; lia).
  rewrite Nat2N.id, take_app_length, drop_app_length.
  cbn [mbind option_bind]. by rewrite decide_True.
Qed.

Lemma read_spki_point_p256 (x y : bytes) :
  length x = 32%nat -> length y = 32%nat ->
  read_spki_point (spki_p256_header ++ [x04] ++ x ++ y) = Some (x, y).
Proof.
  intros Hx Hy.
  assert (Hxy : length (x ++ y) = 64%nat) by (rewrite length_app; lia).
  set (oids := [x06; x07] ++ ec_public_key_oid ++ [x06; x08] ++ prime256v1_oid).
  set (algo := [x30; x13] ++ oids).
  set (bits := [x00; x04] ++ x ++ y).
  assert (Hbits : len bits = 66).
  { unfold len, bits. cbn [app length]. by rewrite Hxy. }
  unfold read_spki_point.
  change (spki_p256_header ++ [x04] ++ x ++ y)
    with (x30 :: x59 :: (algo ++ [x03; x42] ++ bits)).
  rewrite (expect_tlv_short x30 x59 _ (algo ++ [x03; x42] ++ bits) []);
    [|done| |by rewrite app_nil_r].
  2:{ unfold len, bits. rewrite !length_app, Hx, Hy. reflexivity. }
  cbn [mbind option_bind].
  change (algo ++ [x03; x42] ++ bits)
    with (x30 :: x13 :: (oids ++ [x03; x42] ++ bits)).
  rewrite (expect_tlv_short x30 x13 _ oids ([x03; x42] ++ bits)); [|done..].
  cbn [mbind option_bind].
  change oids
    with (x06 :: x07 :: (ec_public_key_oid ++ [x06; x08] ++ prime256v1_oid)).
  rewrite (expect_tlv_short x06 x07 _ ec_public_key_oid
             ([x06; x08] ++ prime256v1_oid)); [|done..].
  cbn [mbind option_bind].
  change ([x06; x08] ++ prime256v1_oid) with (x06 :: x08 :: prime256v1_oid).
  rewrite (expect_tlv_short x06 x08 _ prime256v1_oid []); [|done..].
  cbn [mbind option_bind].
  change ([x03; x42] ++ bits) with (x03 :: x42 :: bits).
  rewrite (expect_tlv_short x03 x42 _ bits []);
    [|done|done|by rewrite app_nil_r].
  cbn [mbind option_bind]. unfold bits. cbn [app].
  rewrite decide_True by done.
  by rewrite take_app_length', drop_app_length'.
Qed.

(** The encoded key read back: the coordinates when they are a point of
    the curve, nothing otherwise. *)
Lemma parse_ec_public_key_p256 (x y : bytes) :
  length x = 32%nat -> length y = 32%nat ->
  parse_ec_public_key (spki_p256_header ++ [x04] ++ x ++ y)
  = if on_p256 (int_from_bytes x) (int_from_bytes y) then Some (x, y) else None.
Proof.
  intros Hx Hy. unfold parse_ec_public_key.
  by rewrite (read_spki_point_p256 x y Hx Hy).
Qed.

(** ** Facts about the nonce extractor *)

Lemma land_0x80_small n : n < 128 -> N.land n 0x80 = 0.
Proof.
  intros Hn. apply N.bits_inj_0. intros k. rewrite N.land_spec.
  change 0x80 with (2 ^ 7). rewrite N.pow2_bits_eqb.
  destruct (N.eqb_spec 7 k) as [<-|]; [|by rewrite andb_false_r].
  rewrite andb_true_r. apply N.testbit_false.
  rewrite N.div_small; [done | by change (2 ^ 7) with 128].
Qed.

Lemma slice_length b i j :
  (i <= j)%nat -> (j <= length b)%nat -> length (slice b i j) = (j - i)%nat.
Proof. intros. unfold slice. rewrite length_take, length_drop. lia. Qed.

(** A slice and what surrounds it. *)
Lemma drop_slice b i n :
  drop i b = slice b i (i + n) ++ drop (i + n) b.
Proof.
  unfold slice. replace (i + n - i)%nat with n by lia.
  rewrite <- (drop_drop b n i). symmetry. apply take_drop.
Qed.

(** Only the values of [recurse] matter. *)
Lemma while_loop_ext f g b steps i :
  (forall value, f value = g value) ->
  while_loop f b steps i = while_loop g b steps i.
Proof.
  intros Hfg. revert i. induction steps as [|steps IH]; intros i; [done|].
  cbn [while_loop].
  destruct (b !! i) as [tag|]; [|done].
  destruct (b !! S i) as [length_byte|]; [|done].
  destruct (if negb (N.land (Byte.to_N length_byte) 128 =? 0) then _ else _)
    as [[length j]|]; [|done].
  rewrite Hfg, !IH. done.
Qed.

(** The loop never runs out of passes: any bound of at least
    [length b - i] gives the same answer. *)
Lemma while_loop_steps recurse b s1 s2 i :
  (length b - i <= s1)%nat -> (length b - i <= s2)%nat ->
  while_loop recurse b s1 i = while_loop recurse b s2 i.
Proof.
  revert s2 i. induction s1 as [|s1 IH]; intros s2 i H1 H2.
  - destruct s2 as [|s2]; [done|]. cbn [while_loop].
    rewrite (lookup_ge_None_2 b i) by lia. done.
  - destruct s2 as [|s2].
    { cbn [while_loop]. rewrite (lookup_ge_None_2 b i) by lia. done. }
    cbn [while_loop].
    destruct (b !! i) as [tag|] eqn:Htag; [|done].
    apply lookup_lt_Some in Htag.
    destruct (b !! S i) as [length_byte|]; [|done].
    destruct (negb (N.land (Byte.to_N length_byte) 128 =? 0)).
    + destruct (len b <? _); [done|]. cbn iota beta.
      destruct (len b <? _); [done|].
      rewrite (IH s2) by lia. done.
    + cbn iota beta. destruct (len b <? _); [done|].
      rewrite (IH s2) by lia. done.
Qed.

(** Neither does the recursion run out of [gas]: the depth test stops it
    first. *)
Lemma find_octet32_gas g1 g2 b depth :
  11 < depth + N.of_nat g1 -> 11 < depth + N.of_nat g2 ->
  find_octet32_rec g1 b depth = find_octet32_rec g2 b depth.
Proof.
  revert g2 b depth. induction g1 as [|g1 IH]; intros g2 b depth H1 H2.
  - destruct g2 as [|g2]; [done|]. cbn [find_octet32_rec].
    rewrite (proj2 (N.ltb_lt 10 depth)) by lia. done.
  - destruct g2 as [|g2].
    { cbn [find_octet32_rec]. rewrite (proj2 (N.ltb_lt 10 depth)) by lia. done. }
    cbn [find_octet32_rec].
    destruct (N.ltb_spec 10 depth); [done|].
    destruct (len b <? 2); [done|]. cbn [orb].
    apply while_loop_ext. intros value. apply IH; lia.
Qed.

(** The code's test of a tag agrees with [descends]. *)
Lemma recurse_into_descends tag : recurse_into tag = descends tag.
Proof. destruct tag; vm_compute; reflexivity. Qed.

Lemma length_field_nonempty hdr n : length_field hdr n -> (1 <= length hdr)%nat.
Proof. destruct hdr; [done|]. cbn [length]. lia. Qed.

(** What holds a 32-byte OCTET STRING has 34 bytes or more, and is within
    the cap on nesting. *)
Lemma octet32_at_size depth b value :
  octet32_at depth b value ->
  length value = 32%nat /\ (34 <= length b)%nat /\ depth <= 10.
Proof.
  induction 1 as [depth hdr value rest Hdepth Hhdr Hvalue
                 |depth tag hdr content rest value Hdepth Htag Hhdr _ IH
                 |depth tag hdr content rest value Hhdr _ IH].
  - apply length_field_nonempty in Hhdr.
    split; [done|]. split; [|done].
    cbn [app length]. rewrite !length_app. lia.
  - apply length_field_nonempty in Hhdr. destruct IH as (Hv & Hb & _).
    split; [done|]. split; [|done].
    cbn [app length]. rewrite !length_app. lia.
  - destruct IH as (Hv & Hb & Hd).
    split; [done|]. split; [|done].
    cbn [app length]. rewrite !length_app. lia.
Qed.

(** The element read at [i]: tag, length field, value, and the rest. *)
Lemma element_from b i tag length_byte more j n :
  b !! i = Some tag -> b !! S i = Some length_byte ->
  more = slice b (S (S i)) j -> (S (S i) <= j)%nat ->
  drop i b = [tag] ++ (length_byte :: more)
               ++ slice b j (j + n) ++ drop (j + n) b.
Proof.
  intros Htag Hlen -> Hj.
  rewrite (drop_S _ _ _ Htag). cbn [app]. f_equal.
  rewrite (drop_S _ _ _ Hlen). f_equal.
  rewrite (drop_slice b (S (S i)) (j - S (S i))).
  replace (S (S i) + (j - S (S i)))%nat with j by lia.
  f_equal. apply drop_slice.
Qed.

(** Whatever the loop returns from index [i] on is the content of a
    32-byte OCTET STRING that the rest of the buffer holds as an element,
    provided the recursive call returns only such values. *)
Lemma while_loop_sound recurse depth b steps i r :
  depth <= 10 ->
  (forall value r', recurse value = Some r' -> octet32_at (depth + 1) value r') ->
  while_loop recurse b steps i = Some r -> octet32_at depth (drop i b) r.
Proof.
  intros Hdepth Hrec. revert i. induction steps as [|steps IH]; intros i; [done|].
  cbn [while_loop].
  destruct (b !! i) as [tag|] eqn:Htag; [|done].
  destruct (b !! S i) as [length_byte|] eqn:Hlb; [|done].
  assert (Hend : forall length j more,
    more = slice b (S (S i)) j -> (S (S i) <= j)%nat ->
    length_field (length_byte :: more) length ->
    (if len b <? N.of_nat j + length then None
     else if bool_decide (tag = x04)
             && (len (slice b j (j + N.to_nat length)) =? 32)
          then Some (slice b j (j + N.to_nat length))
          else if recurse_into tag
               then if truthy (recurse (slice b j (j + N.to_nat length)))
                    then recurse (slice b j (j + N.to_nat length))
                    else while_loop recurse b steps (j + N.to_nat length)
               else while_loop recurse b steps (j + N.to_nat length)) = Some r ->
    octet32_at depth (drop i b) r).
  { intros length j more Hmore Hj Hfield.
    destruct (N.ltb_spec (len b) (N.of_nat j + length)) as [|Hfit]; [done|].
    unfold len in Hfit.
    rewrite (element_from b i tag length_byte more j (N.to_nat length)
               Htag Hlb Hmore Hj).
    set (value := slice b j (j + N.to_nat length)) in *.
    assert (Hvalue : Datatypes.length value = N.to_nat length).
    { unfold value. rewrite slice_length; lia. }
    assert (Hfield' : length_field (length_byte :: more) (len value)).
    { unfold len. rewrite Hvalue, N2Nat.id. exact Hfield. }
    destruct (bool_decide (tag = x04) && (len value =? 32)) eqn:Hhit.
    - intros [= <-]. apply andb_prop in Hhit as [Htag4 Hlen32].
      apply bool_decide_eq_true in Htag4 as ->. apply N.eqb_eq in Hlen32.
      apply octet32_here; [done| |unfold len in Hlen32; lia].
      by rewrite <- Hlen32.
    - destruct (recurse_into tag) eqn:Hinto.
      2:{ intros Hr. apply octet32_later; [done|]. by apply IH. }
      destruct (truthy (recurse value)).
      2:{ intros Hr. apply octet32_later; [done|]. by apply IH. }
      intros Hr. apply octet32_inside; [done| |done|by apply Hrec].
      by rewrite <- recurse_into_descends. }
  destruct (N.land (Byte.to_N length_byte) 128 =? 0) eqn:Hform; cbn [negb].
  - apply (Hend _ (S (S i)) []); [|lia|].
    + unfold slice. by rewrite Nat.sub_diag.
    + cbn [length_field]. by rewrite Hform.
  - destruct (N.ltb_spec (len b)
                (N.of_nat (S (S i)) + N.land (Byte.to_N length_byte) 127))
      as [|Hfit]; [done|].
    unfold len in Hfit.
    apply (Hend _ _ (slice b (S (S i))
                       (S (S i) + N.to_nat (N.land (Byte.to_N length_byte) 127))));
      [done|lia|].
    cbn [length_field]. rewrite Hform. split; [|done].
    rewrite slice_length; lia.
Qed.

Lemma find_octet32_rec_sound gas b depth r :
  find_octet32_rec gas b depth = Some r -> octet32_at depth b r.
Proof.
  revert b depth r. induction gas as [|gas IH]; intros b depth r; [done|].
  cbn [find_octet32_rec].
  destruct (N.ltb_spec 10 depth) as [|Hdepth]; [done|].
  destruct (len b <? 2); [done|]. cbn [orb].
  intros Hr. change b with (drop 0 b).
  eapply while_loop_sound; [done| |exact Hr].
  intros value r'. apply IH.
Qed.

(** An element with a one-byte length at the front of the buffer: one pass
    of the loop. *)
Lemma while_loop_front recurse tag c value after steps :
  Byte.to_N c < 128 -> len value = Byte.to_N c ->
  while_loop recurse (tag :: c :: value ++ after) (S steps) 0 =
    if bool_decide (tag = x04) && (len value =? 32) then Some value
    else if recurse_into tag
         then if truthy (recurse value) then recurse value
              else while_loop recurse (tag :: c :: value ++ after) steps
                     (2 + length value)
         else while_loop recurse (tag :: c :: value ++ after) steps
                (2 + length value).
Proof.
  intros Hc Hlen. cbn [while_loop lookup list_lookup].
  rewrite (land_0x80_small _ Hc). cbn [N.eqb negb].
  unfold len in *.
  rewrite (proj2 (N.ltb_ge _ _)).
  2:{ cbn [length]. rewrite length_app. lia. }
  rewrite <- Hlen, Nat2N.id.
  assert (Hslice : slice (tag :: c :: value ++ after) 2 (2 + length value) = value).
  { unfold slice. replace (2 + length value - 2)%nat with (length value) by lia.
    cbn [drop]. apply take_app_length. }
  rewrite Hslice. reflexivity.
Qed.

Lemma while_loop_bad_length recurse b steps i :
  bad_length_at b i -> while_loop recurse b steps i = None.
Proof.
  intros [[tag Htag] Hbad]. destruct steps as [|steps]; [done|].
  cbn [while_loop]. rewrite Htag.
  destruct (b !! S i) as [c|]; [|done]. cbn zeta in Hbad.
  destruct (N.land (Byte.to_N c) 128 =? 0); cbn [negb].
  - by rewrite (proj2 (N.ltb_lt _ _) Hbad).
  - destruct (N.ltb_spec (len b) (N.of_nat (S (S i)) + N.land (Byte.to_N c) 127))
      as [|Hfit]; [done|].
    destruct Hbad as [Hbad|Hbad]; [lia|].
    by rewrite (proj2 (N.ltb_lt _ _) Hbad).
Qed.

Lemma nest_short k inner :
  (length inner + 2 * k < 128)%nat ->
  exists p, nest k inner = Some p /\ length p = (length inner + 2 * k)%nat
    /\ match k with
       | O => p = inner
       | S k' => exists c content,
           nest k' inner = Some content /\ p = x30 :: c :: content ++ []
           /\ Byte.to_N c < 128 /\ len content = Byte.to_N c
       end.
Proof.
  revert inner. induction k as [|k IH]; intros inner Hlen.
  - exists inner. cbn [nest]. split; [done|]. split; [lia | done].
  - destruct (IH inner) as (content & Hc & Hclen & _); [lia|].
    assert (Hsmall : len content < 128) by (unfold len; lia).
    destruct (der_len_short _ Hsmall) as (c & Hcn & Hder).
    exists (x30 :: c :: content). cbn [nest]. rewrite Hc. cbn [mbind option_bind].
    unfold tlv. rewrite Hder. cbn [mbind option_bind app].
    split; [done|]. split; [cbn [length]; lia|].
    exists c, content. rewrite app_nil_r, Hcn. done.
Qed.

(** A 32-byte OCTET STRING under [k] SEQUENCE layers is found from depth
    [depth] as long as [k + depth] stays within the cap of 10. *)
Lemma find_octet32_rec_nest v k gas depth :
  length v = 32%nat -> N.of_nat k + depth <= 10 -> (k < gas)%nat ->
  exists p, nest k ([x04; x20] ++ v) = Some p
            /\ find_octet32_rec gas p depth = Some v.
Proof.
  intros Hv. revert gas depth.
  induction k as [|k IH]; intros gas depth Hdepth Hgas.
  - exists ([x04; x20] ++ v). split; [done|].
    destruct gas as [|gas]; [lia|]. cbn [find_octet32_rec].
    rewrite (proj2 (N.ltb_ge 10 depth)) by lia.
    unfold len. cbn [app length]. rewrite Hv. cbn [orb].
    change (N.of_nat 34 <? 2) with false. cbn iota.
    rewrite <- (app_nil_r v) at 1.
    rewrite while_loop_front; [|done|by unfold len; rewrite Hv].
    unfold len. rewrite Hv. done.
  - destruct (nest_short (S k) ([x04; x20] ++ v)) as (p & Hp & Hplen & Hshape).
    { cbn [app length]. rewrite Hv. lia. }
    destruct Hshape as (c & content & Hcontent & -> & Hc & Hclen).
    destruct gas as [|gas]; [lia|].
    destruct (IH gas (depth + 1)) as (content' & Hcontent' & Hfind); [lia..|].
    rewrite Hcontent in Hcontent'. injection Hcontent' as <-.
    exists (x30 :: c :: content ++ []). split; [done|].
    cbn [find_octet32_rec].
    rewrite (proj2 (N.ltb_ge 10 depth)) by lia.
    rewrite (proj2 (N.ltb_ge _ 2)) by (unfold len; cbn [length]; lia).
    cbn [orb length].
    rewrite while_loop_front by done.
    rewrite Hfind. cbn [truthy].
    destruct v; [done|]. done.
Qed.

(** ** The walker, element by element *)

Lemma len_app_ltb (pre b : bytes) j n :
  (len (pre ++ b) <? N.of_nat (length pre + j) + n) = (len b <? N.of_nat j + n).
Proof.
  unfold len. rewrite length_app.
  destruct (N.ltb_spec (N.of_nat (length b)) (N.of_nat j + n));
    [apply N.ltb_lt | apply N.ltb_ge]; lia.
Qed.

Lemma slice_shift (pre b : bytes) j k :
  slice (pre ++ b) (length pre + j) (length pre + j + k) = slice b j (j + k).
Proof.
  unfold slice. rewrite drop_app_add. f_equal. lia.
Qed.

(** The loop only looks at the bytes from [i] on, and at where the buffer
    ends. *)
Lemma while_loop_shift recurse (pre b : bytes) steps i :
  while_loop recurse (pre ++ b) steps (length pre + i)
  = while_loop recurse b steps i.
Proof.
  revert i. induction steps as [|steps IH]; intros i; [done|].
  cbn [while_loop].
  rewrite (lookup_app_r pre b) by lia.
  replace (length pre + i - length pre)%nat with i by lia.
  destruct (b !! i) as [tag|]; [|done].
  replace (S (length pre + i)) with (length pre + S i)%nat by lia.
  rewrite (lookup_app_r pre b) by lia.
  replace (length pre + S i - length pre)%nat with (S i) by lia.
  destruct (b !! S i) as [length_byte|]; [|done].
  replace (S (length pre + S i)) with (length pre + S (S i))%nat by lia.
  destruct (negb (N.land (Byte.to_N length_byte) 128 =? 0)).
  - rewrite len_app_ltb.
    destruct (len b <? _); [done|]. cbn iota beta.
    rewrite slice_shift.
    replace (length pre + S (S i)
             + N.to_nat (N.land (Byte.to_N length_byte) 127))%nat
      with (length pre
            + (S (S i) + N.to_nat (N.land (Byte.to_N length_byte) 127)))%nat
      by lia.
    rewrite len_app_ltb. destruct (len b <? _); [done|].
    rewrite slice_shift.
    match goal with
    | |- context [while_loop recurse (pre ++ b) steps ?j] =>
        match j with
        | (length pre + ?a + ?c)%nat =>
            replace j with (length pre + (a + c))%nat by lia
        end
    end.
    by rewrite IH.
  - cbn iota beta. rewrite len_app_ltb. destruct (len b <? _); [done|].
    rewrite slice_shift.
    match goal with
    | |- context [while_loop recurse (pre ++ b) steps ?j] =>
        match j with
        | (length pre + ?a + ?c)%nat =>
            replace j with (length pre + (a + c))%nat by lia
        end
    end.
    by rewrite IH.
Qed.

Lemma while_loop_too_short recurse (b : bytes) steps :
  (length b < 2)%nat -> while_loop recurse b steps 0 = None.
Proof.
  intros Hb. destruct steps as [|steps]; [done|]. cbn [while_loop].
  destruct (b !! 0%nat) as [tag|]; [|done].
  by rewrite (lookup_ge_None_2 b 1) by lia.
Qed.

(** One pass of the loop over an element at the front of the buffer,
    whichever way its length is written. *)
Lemma while_loop_element recurse tag hdr value after steps :
  length_field hdr (len value) ->
  let b := [tag] ++ hdr ++ value ++ after in
  while_loop recurse b (S steps) 0 =
    if bool_decide (tag = x04) && (len value =? 32) then Some value
    else if recurse_into tag
         then if truthy (recurse value) then recurse value
              else while_loop recurse b steps (1 + length hdr + length value)
         else while_loop recurse b steps (1 + length hdr + length value).
Proof.
  intros Hfield b. unfold b. destruct hdr as [|c more]; [done|].
  cbn [length_field] in Hfield. cbn [app while_loop lookup list_lookup].
  destruct (N.land (Byte.to_N c) 128 =? 0) eqn:Hform; cbn [negb].
  - destruct Hfield as [-> Hc]. cbn [app length]. unfold len in *.
    rewrite (proj2 (N.ltb_ge _ _)) by (cbn [length]; rewrite length_app; lia).
    rewrite Hc, Nat2N.id.
    assert (Hslice : slice (tag :: c :: value ++ after) 2 (2 + length value)
                     = value).
    { unfold slice. replace (2 + length value - 2)%nat with (length value) by lia.
      cbn [drop]. apply take_app_length. }
    rewrite Hslice. reflexivity.
  - destruct Hfield as [Hmore Hvalue]. unfold len in *.
    rewrite <- Hmore.
    assert (Hn : N.land (Byte.to_N c) 127 = N.of_nat (length more)) by lia.
    rewrite Hn.
    rewrite (proj2 (N.ltb_ge _ _))
      by (cbn [length]; rewrite !length_app; lia).
    assert (Hslice1 : slice (tag :: c :: more ++ value ++ after) 2
                        (2 + length more) = more).
    { unfold slice. replace (2 + length more - 2)%nat with (length more) by lia.
      cbn [drop]. apply take_app_length. }
    rewrite Hslice1, Hvalue.
    rewrite (proj2 (N.ltb_ge _ _))
      by (cbn [length]; rewrite !length_app; lia).
    rewrite Nat2N.id.
    assert (Hslice2 : slice (tag :: c :: more ++ value ++ after)
                        (2 + length more) (2 + length more + length value)
                      = value).
    { unfold slice.
      replace (2 + length more + length value - (2 + length more))%nat
        with (length value) by lia.
      change (tag :: c :: more ++ value ++ after)
        with ([tag; c] ++ more ++ value ++ after).
      rewrite app_assoc.
      rewrite (drop_app_length' ([tag; c] ++ more))
        by (rewrite length_app; reflexivity).
      apply take_app_length. }
    rewrite Hslice2. cbn [length].
    replace (1 + S (length more) + length value)%nat
      with (2 + length more + length value)%nat by lia.
    reflexivity.
Qed.

Lemma find_octet32_rec_truthy gas b depth r :
  find_octet32_rec gas b depth = Some r -> truthy (Some r) = true.
Proof.
  intros Hr. apply find_octet32_rec_sound, octet32_at_size in Hr as (Hlen & _).
  by destruct r.
Qed.

(** The walker takes the elements of a level in order: the first one that
    gives a value decides, and one that gives none is passed over. *)
Lemma find_octet32_rec_element gas depth tag hdr value rest :
  depth <= 10 -> length_field hdr (len value) ->
  find_octet32_rec (S gas) ([tag] ++ hdr ++ value ++ rest) depth
  = match element_result gas depth tag value with
    | Some r => Some r
    | None => find_octet32_rec (S gas) rest depth
    end.
Proof.
  intros Hdepth Hfield.
  assert (Hhdr : (1 <= length hdr)%nat) by (destruct hdr; [done | cbn; lia]).
  cbn [find_octet32_rec].
  rewrite (proj2 (N.ltb_ge 10 depth)) by lia.
  rewrite (proj2 (N.ltb_ge _ 2))
    by (unfold len; cbn [app length]; rewrite length_app; lia).
  cbn [orb].
  set (f := fun v => find_octet32_rec gas v (depth + 1)).
  assert (Hcontinue :
    while_loop f ([tag] ++ hdr ++ value ++ rest)
      (length hdr + length (value ++ rest)) (1 + length hdr + length value)
    = if len rest <? 2 then None
      else while_loop f rest (length rest) 0).
  { replace ([tag] ++ hdr ++ value ++ rest)
      with (([tag] ++ hdr ++ value) ++ rest) by (by rewrite <- !app_assoc).
    replace (1 + length hdr + length value)%nat
      with (length ([tag] ++ hdr ++ value) + 0)%nat
      by (cbn [app length]; rewrite length_app; lia).
    rewrite while_loop_shift.
    destruct (N.ltb_spec (len rest) 2) as [Hshort|Hlong].
    - apply while_loop_too_short. unfold len in Hshort. lia.
    - apply while_loop_steps; rewrite ?length_app; lia. }
  replace (length ([tag] ++ hdr ++ value ++ rest))
    with (S (length hdr + length (value ++ rest)))
    by (rewrite !length_app; cbn [length]; lia).
  rewrite (while_loop_element f tag hdr value rest _ Hfield).
  unfold element_result. fold (f value).
  destruct (bool_decide (tag = x04) && (len value =? 32)); [done|].
  destruct (recurse_into tag); [|exact Hcontinue].
  destruct (f value) as [r|] eqn:Hr.
  - unfold f in Hr. by rewrite (find_octet32_rec_truthy _ _ _ _ Hr).
  - cbn [truthy]. exact Hcontinue.
Qed.

(** And whenever the payload holds such an OCTET STRING, the search
    returns one. *)
Lemma find_octet32_rec_complete depth b value :
  octet32_at depth b value ->
  forall gas, 11 < depth + N.of_nat gas ->
    exists r, find_octet32_rec gas b depth = Some r.
Proof.
  induction 1 as [depth hdr value rest Hdepth Hhdr Hvalue
                 |depth tag hdr content rest value Hdepth Htag Hhdr _ IH
                 |depth tag hdr content rest value Hhdr Hrest IH];
    intros gas Hgas.
  - destruct gas as [|gas]; [lia|].
    assert (Hlen : len value = 32) by (unfold len; lia).
    rewrite find_octet32_rec_element by (done || by rewrite Hlen).
    unfold element_result. rewrite Hlen, bool_decide_eq_true_2 by done.
    by eexists.
  - destruct gas as [|gas]; [lia|].
    rewrite find_octet32_rec_element by done.
    unfold element_result.
    destruct (bool_decide (tag = x04) && (len content =? 32)); [by eexists|].
    rewrite recurse_into_descends, Htag.
    destruct (IH gas) as [r Hr]; [lia|]. rewrite Hr. by eexists.
  - apply octet32_at_size in Hrest as (_ & _ & Hdepth).
    destruct gas as [|gas]; [lia|].
    rewrite find_octet32_rec_element by done.
    destruct (element_result gas depth tag content) as [r|]; [by eexists|].
    by apply IH.
Qed.

(** ** Reasoning about [Verify] computations *)

Lemma post_ret {A} (a : A) errors Q :
  Q (Returned a) errors -> post (mret a) errors Q.
Proof. done. Qed.

Lemma post_bind {A B} (I : list error -> Prop) (m : Verify A)
    (f : A -> Verify B) errors Q :
  I errors -> keeps I m ->
  (forall a errors', I errors' -> post (f a) errors' Q) ->
  (forall e errors', I errors' -> Q (Raised e) errors') ->
  post (m ≫= f) errors Q.
Proof.
  intros HI Hm Hf He. unfold post, mbind, verify_bind.
  specialize (Hm errors HI).
  destruct (m errors) as [[a|e] errors']; cbn in *; [by apply Hf | by apply He].
Qed.

Lemma keeps_call {A} I (o : outcome A) : keeps I (call o).
Proof. by intros errors. Qed.

Lemma keeps_append (I : list error -> Prop) e :
  (forall errors, I errors -> I (errors ++ [e])) -> keeps I (append e).
Proof. intros H errors. apply H. Qed.

Lemma keeps_when I c body : keeps I body -> keeps I (when c body).
Proof. intros H. destruct c; [done | by intros errors]. Qed.

Lemma keeps_try_except I body handler :
  keeps I body -> (forall e, keeps I (handler e)) ->
  keeps I (try_except body handler).
Proof.
  intros Hb Hh errors HI. unfold try_except.
  specialize (Hb errors HI). destruct (body errors) as [[a|e] errors']; cbn in *;
    [done | by apply Hh].
Qed.

Lemma keeps_bind {A B} I (m : Verify A) (f : A -> Verify B) :
  keeps I m -> (forall a, keeps I (f a)) -> keeps I (m ≫= f).
Proof.
  intros Hm Hf errors HI. unfold mbind, verify_bind.
  specialize (Hm errors HI). destruct (m errors) as [[a|e] errors']; cbn in *;
    [by apply Hf | done].
Qed.

Lemma keeps_ret {A} I (a : A) : keeps I (mret a).
Proof. by intros errors. Qed.

Lemma keeps_if {A} I (c : bool) (m1 m2 : Verify A) :
  keeps I m1 -> keeps I m2 -> keeps I (if c then m1 else m2).
Proof. by destruct c. Qed.

Create HintDb keeps.
#[local] Hint Resolve keeps_call keeps_when keeps_try_except keeps_bind
  keeps_ret keeps_if : keeps.

Lemma post_current {B} (f : list error -> Verify B) errors Q :
  post (f errors) errors Q -> post (current_errors ≫= f) errors Q.
Proof. done. Qed.

(** An early [return] of a failed result right after an [append]. *)
Lemma post_fail e cred errors Q :
  Q (Returned (failed cred (errors ++ [e]))) (errors ++ [e]) ->
  post (append e;; errors ← current_errors; mret (failed cred errors)) errors Q.
Proof. done. Qed.

(** Proves that a step keeps [I], given [tac] for what an [append] owes. *)
Ltac keeps_steps tac :=
  repeat first
    [ apply keeps_call | apply keeps_ret | apply keeps_when
    | apply keeps_try_except | apply keeps_bind | apply keeps_if
    | apply keeps_append; let errors := fresh "errors" in
                          let HI := fresh "HI" in intros errors HI; tac
    | match goal with
      | |- forall _, _ => intros ?
      | |- keeps _ (match ?e with _ => _ end) => destruct e
      end ].

(** Splits a [post] goal along the program: one goal per [return], the
    steps in between only have to keep [I]. *)
Ltac walk I :=
  repeat match goal with
    | |- post (mret _) _ _ => apply post_ret
    | |- post (append _ ≫= _) _ _ => apply post_fail
    | |- post (current_errors ≫= _) _ _ => apply post_current
    | |- post (_ ≫= _) _ _ =>
        apply (post_bind I); [assumption | | intros ? ? ? | intros ? ? ?]
    | |- post (if ?c then _ else _) _ _ => destruct c eqn:?
    | |- post (match ?x with _ => _ end) _ _ => destruct x eqn:?
    end.



Section attestation_facts.
Context `{Libraries}.



(** *** Running the steps *)

Lemma run_when_append c e errors :
  when c (append e) errors = (Returned tt, errors ++ (if c then [e] else [])).
Proof. destruct c; [done|]. by rewrite app_nil_r. Qed.

Lemma run_signature_check report parent child errors :
  try_except (call (verify_issued_by parent child))
    (fun e => append (report e)) errors
  = (Returned tt, errors ++ signature_errors report parent child).
Proof.
  unfold try_except, call, signature_errors.
  destruct (verify_issued_by parent child); [|done]. by rewrite app_nil_r.
Qed.

Lemma run_nonce_check leaf_cert auth_data challenge errors :
  try_except
    (payload ← call (nonce_extension_payload leaf_cert);
     cert_nonce ← call (extract_nonce_from_extension payload);
     let expected_nonce_1 := sha256 (auth_data ++ challenge) in
     let client_data_hash := sha256 challenge in
     let expected_nonce_2 := sha256 (auth_data ++ client_data_hash) in
     if bool_decide (cert_nonce = expected_nonce_1) then mret tt
     else if bool_decide (cert_nonce = expected_nonce_2) then mret tt
     else append NonceMismatch)
    (fun e =>
       match e with
       | ExtensionNotFound => append NonceExtensionNotFound
       | _ => append (NonceVerificationError e)
       end) errors
  = (Returned tt, errors ++ nonce_errors leaf_cert auth_data challenge).
Proof.
  unfold try_except, nonce_errors, mbind, verify_bind, call.
  destruct (nonce_extension_payload leaf_cert) as [payload|e]; [|by destruct e].
  destruct (extract_nonce_from_extension payload) as [cert_nonce|e];
    [|by destruct e].
  cbn beta iota zeta.
  destruct (bool_decide_reflect (cert_nonce = sha256 (auth_data ++ challenge)))
    as [E1|E1].
  { rewrite bool_decide_eq_true_2 by (by left). cbn. by rewrite app_nil_r. }
  destruct (bool_decide_reflect
              (cert_nonce = sha256 (auth_data ++ sha256 challenge))) as [E2|E2].
  { rewrite bool_decide_eq_true_2 by (by right). cbn. by rewrite app_nil_r. }
  rewrite bool_decide_eq_false_2 by tauto. done.
Qed.

Lemma run_bind {A B} (m : Verify A) (f : A -> Verify B) errors a errors' :
  m errors = (Returned a, errors') -> (m ≫= f) errors = f a errors'.
Proof. intros Hm. unfold mbind, verify_bind. by rewrite Hm. Qed.

Lemma run_bind_raise {A B} (m : Verify A) (f : A -> Verify B) errors e errors' :
  m errors = (Raised e, errors') -> (m ≫= f) errors = (Raised e, errors').
Proof. intros Hm. unfold mbind, verify_bind. by rewrite Hm. Qed.

Lemma run_call {A} (o : outcome A) a errors :
  o = Returned a -> call o errors = (Returned a, errors).
Proof. by intros ->. Qed.

Lemma run_call_raise {A} (o : outcome A) e errors :
  o = Raised e -> call o errors = (Raised e, errors).
Proof. by intros ->. Qed.

Lemma py_get_found items key fallback v :
  dict_lookup items (KStr key) = Some v ->
  py_get (PDict items) key fallback = Returned v.
Proof. intros Hv. cbn [py_get]. by rewrite Hv. Qed.

Lemma py_get_missing items key fallback :
  dict_lookup items (KStr key) = None ->
  py_get (PDict items) key fallback = Returned fallback.
Proof. intros Hv. cbn [py_get]. by rewrite Hv. Qed.

Lemma run_rp_id_hash_check ad t b errors :
  when (negb (bool_decide (rp_id_hash ad = sha256 (encode (t ++ "." ++ b)))))
    (append RpIdHashMismatch) errors
  = (Returned tt, errors ++ rp_id_hash_errors ad t b).
Proof.
  rewrite run_when_append. unfold rp_id_hash_errors. by destruct (bool_decide _).
Qed.

Lemma run_flag_check ad errors :
  when (N.land (flags ad) 0x40 =? 0) (append ATFlagNotSet) errors
  = (Returned tt, errors ++ flag_errors ad).
Proof. apply run_when_append. Qed.

Lemma run_sign_count_check ad errors :
  when (negb (sign_count ad =? 0)) (append (SignCountNotZero (sign_count ad))) errors
  = (Returned tt, errors ++ sign_count_errors ad).
Proof.
  rewrite run_when_append. unfold sign_count_errors. by destruct (_ =? _).
Qed.

Lemma run_aaguid_check ad env errors :
  when (negb (bool_decide (aaguid ad = expected_aaguid env)))
    (append (AaguidMismatch env)) errors
  = (Returned tt, errors ++ aaguid_errors ad env).
Proof.
  rewrite run_when_append. unfold aaguid_errors. by destruct (bool_decide _).
Qed.

Lemma run_credential_check ad key_id errors :
  when (negb (bool_decide (credential_id ad = key_id)))
    (append CredentialIdMismatch) errors
  = (Returned tt, errors ++ credential_errors ad key_id).
Proof.
  rewrite run_when_append. unfold credential_errors. by destruct (bool_decide _).
Qed.

End attestation_facts.

(** One step that returns: [tac] proves what the step gives. *)
Ltac run_step tac := erewrite run_bind; [|tac].
Ltac run_call_with H := run_step ltac:(apply run_call; apply H).

(** Step 1 up to the test of the chain length, on a submission that
    decodes. *)
Ltac run_to_chain Hdec :=
  let raw := fresh "raw" in
  let att := fresh "att" in
  let att_stmt := fresh "att_stmt" in
  let Hraw := fresh "Hraw" in
  let Hatt := fresh "Hatt" in
  let Hfmt := fresh "Hfmt" in
  let Hstmt := fresh "Hstmt" in
  let Hauth := fresh "Hauth" in
  let Hx5c := fresh "Hx5c" in
  destruct Hdec as (raw & att & att_stmt
                    & Hraw & Hatt & Hfmt & Hstmt & Hauth & Hx5c);
  unfold verify_attestation, verify_attestation_body;
  run_call_with Hraw; run_call_with Hatt;
  run_call_with (py_get_found _ _ PNone _ Hfmt);
  cbn [differs_from_str]; rewrite bool_decide_eq_true_2 by done;
  cbn [negb];
  run_call_with Hstmt; run_call_with Hauth; run_call_with Hx5c.


Section main_path.
Context `{Libraries}.



End main_path.

(** *** Paths that end early *)

Section early_returns.
Context `{Libraries}.

Lemma post_result (P : VerificationResult -> Prop) (m : Verify VerificationResult)
    errors :
  post m errors (fun o errors' =>
    match o with
    | Returned r => P r
    | Raised e => P (failed None (errors' ++ [ParseError e]))
    end) ->
  P (match m errors with
     | (Returned r, _) => r
     | (Raised e, errors') => failed None (errors' ++ [ParseError e])
     end).
Proof. unfold post. by destruct (m errors) as [[r|e] errors']. Qed.

Lemma verify_attestation_b64_raises a c t b env e :
  b64decode (PStr a) = Raised e ->
  verify_attestation a c t b env = failed None [ParseError e].
Proof.
  intros Hraw. unfold verify_attestation, verify_attestation_body.
  erewrite run_bind_raise by (by apply run_call_raise). reflexivity.
Qed.

Lemma verify_attestation_cbor_raises a c t b env raw e :
  b64decode (PStr a) = Returned raw -> cbor2_loads raw = Raised e ->
  verify_attestation a c t b env = failed None [ParseError e].
Proof.
  intros Hraw Hatt. unfold verify_attestation, verify_attestation_body.
  run_call_with Hraw.
  erewrite run_bind_raise by (by apply run_call_raise). reflexivity.
Qed.

Lemma verify_attestation_not_a_dict a c t b env raw v :
  b64decode (PStr a) = Returned raw -> cbor2_loads raw = Returned v ->
  (forall items, v <> PDict items) ->
  verify_attestation a c t b env = failed None [ParseError OtherException].
Proof.
  intros Hraw Hatt Hv. unfold verify_attestation, verify_attestation_body.
  run_call_with Hraw. run_call_with Hatt.
  erewrite run_bind_raise
    by (apply run_call_raise; destruct v; try done; by destruct (Hv items)).
  reflexivity.
Qed.

Lemma verify_attestation_wrong_format a c t b env raw att :
  b64decode (PStr a) = Returned raw -> cbor2_loads raw = Returned (PDict att) ->
  let fmt := default PNone (dict_lookup att (KStr "fmt")) in
  differs_from_str fmt "apple-appattest" = true ->
  verify_attestation a c t b env = failed None [InvalidFormat fmt].
Proof.
  intros Hraw Hatt fmt Hfmt. unfold verify_attestation, verify_attestation_body.
  run_call_with Hraw. run_call_with Hatt.
  run_step ltac:(apply run_call; reflexivity).
  fold fmt. rewrite Hfmt. reflexivity.
Qed.

Lemma verify_attestation_chain_too_short a c t b env auth_data x5c n :
  decodes a auth_data x5c -> py_len x5c = Returned n -> n < 2 ->
  verify_attestation a c t b env = failed None [ChainTooShort].
Proof.
  intros Hdec Hlen Hn. run_to_chain Hdec. run_call_with Hlen.
  rewrite (proj2 (N.ltb_lt _ _) Hn). reflexivity.
Qed.

Lemma verify_attestation_chain_without_len a c t b env auth_data x5c e :
  decodes a auth_data x5c -> py_len x5c = Raised e ->
  verify_attestation a c t b env = failed None [ParseError e].
Proof.
  intros Hdec Hlen. run_to_chain Hdec.
  erewrite run_bind_raise by (by apply run_call_raise). reflexivity.
Qed.

Lemma verify_attestation_auth_data_raises a c t b env auth_data x5c n e :
  decodes a auth_data x5c -> py_len x5c = Returned n -> 2 <= n ->
  parse_auth_data_value auth_data = Raised e ->
  verify_attestation a c t b env = failed None [ParseError e].
Proof.
  intros Hdec Hlen Hn Hparse. run_to_chain Hdec. run_call_with Hlen.
  rewrite (proj2 (N.ltb_ge _ _) Hn).
  erewrite run_bind_raise by (by apply run_call_raise). reflexivity.
Qed.


Lemma parse_error_last earlier e e0 :
  (forall e', ParseError e' ∉ earlier) ->
  ParseError e ∈ earlier ++ [ParseError e0] -> e0 = e.
Proof.
  intros Hno Hin. apply elem_of_app in Hin as [Hin|Hin]; [by destruct (Hno _ Hin)|].
  apply list_elem_of_singleton in Hin. by injection Hin.
Qed.

(** "Parse error" is appended by the outer handler only, as the last
    entry of a result that carries nothing else. *)
Lemma verify_attestation_parse_error a c t b env e :
  ParseError e ∈ errors (verify_attestation a c t b env) ->
  exists earlier,
    verify_attestation a c t b env = failed None (earlier ++ [ParseError e])
    /\ forall e', ParseError e' ∉ earlier.
Proof.
  unfold verify_attestation.
  apply (post_result (fun r => ParseError e ∈ errors r ->
           exists earlier, r = failed None (earlier ++ [ParseError e])
                           /\ forall e', ParseError e' ∉ earlier)).
  assert (Hstart : (fun errors : list error => forall e', ParseError e' ∉ errors) [])
    by (intros e'; apply not_elem_of_nil).
  unfold verify_attestation_body.
  walk (fun errors : list error => forall e', ParseError e' ∉ errors).
  all: try (keeps_steps ltac:(intros e'; rewrite elem_of_app, list_elem_of_singleton;
                               intros [?|?]; [by eapply HI | done]); fail).
  all: cbn [errors failed].
  all: match goal with
       | Hno : forall e', ParseError e' ∉ ?l |- ParseError _ ∈ ?l -> _ =>
           intros Hin; by destruct (Hno _ Hin)
       | Hno : forall e', ParseError e' ∉ ?l
         |- ParseError _ ∈ ?l ++ [ParseError _] -> _ =>
           intros Hin; apply (parse_error_last _ _ _ Hno) in Hin as ->; eauto
       | Hno : forall e', ParseError e' ∉ ?l |- ParseError _ ∈ ?l ++ [_] -> _ =>
           intros Hin; apply elem_of_app in Hin as [Hin|Hin];
           [by destruct (Hno _ Hin) | by apply list_elem_of_singleton in Hin]
       end.
Qed.

End early_returns.

(** * The claims *)

(** ** Public key codec *)

(** C7, as the encoder and a standard reader have it.  For all 32-byte
    coordinates [x] and [y], [build_der_public_key x y] is the
    SubjectPublicKeyInfo made of the outer SEQUENCE, the
    algorithm-identifier SEQUENCE with the two OIDs and the BIT STRING with
    a leading zero byte around [04 || x || y], and the structure reads back
    as [(x, y)].  Parsed as an EC public key it gives [(x, y)] again exactly
    when [(x, y)] is a point of P-256, and is refused otherwise: the encoder
    checks nothing of its arguments.  [der_len] writes a length below 128
    as one byte, from 128 to 255 as [0x81] and one byte, from 256 to 65535
    as [0x82] and two bytes, big-endian. *)
Theorem build_der_public_key_round_trip :
  (forall x y : bytes, length x = 32%nat -> length y = 32%nat ->
     exists der,
       build_der_public_key x y = Some der
       /\ der = spki_p256_header ++ [x04] ++ x ++ y
       /\ read_spki_point der = Some (x, y)
       /\ parse_ec_public_key der
          = if on_p256 (int_from_bytes x) (int_from_bytes y)
            then Some (x, y) else None)
  /\ (forall n, n < 128 ->
        exists c, Byte.to_N c = n /\ der_len n = Some [c])
  /\ (forall n, 128 <= n < 256 ->
        exists c, Byte.to_N c = n /\ der_len n = Some [x81; c])
  /\ (forall n, 256 <= n < 65536 ->
        exists hi lo, Byte.to_N hi * 256 + Byte.to_N lo = n
                      /\ der_len n = Some [x82; hi; lo]).
Proof.
  split; [|split; [|split]].
  - intros x y Hx Hy. exists (spki_p256_header ++ [x04] ++ x ++ y).
    split; [by apply build_der_public_key_p256|].
    split; [done|].
    split; [by apply read_spki_point_p256 | by apply parse_ec_public_key_p256].
  - apply der_len_short.
  - apply der_len_one_byte.
  - apply der_len_two_bytes.
Qed.

(** The base point of the curve goes round; a length of each of the three
    forms. *)
Lemma build_der_public_key_round_trip_witness :
  let x := default [] (to_bytes_be 32 StandIn.key_x) in
  let y := default [] (to_bytes_be 32 StandIn.key_y) in
  (exists der,
     build_der_public_key x y = Some der
     /\ der = spki_p256_header ++ [x04] ++ x ++ y
     /\ parse_ec_public_key der = Some (x, y))
  /\ (exists c, Byte.to_N c = 66 /\ der_len 66 = Some [c])
  /\ (exists c, Byte.to_N c = 200 /\ der_len 200 = Some [x81; c])
  /\ (exists hi lo, Byte.to_N hi * 256 + Byte.to_N lo = 300
                    /\ der_len 300 = Some [x82; hi; lo]).
Proof.
  intros x y.
  destruct build_der_public_key_round_trip as (Hkey & Hshort & Hone & Htwo).
  split; [|split; [|split]].
  - destruct (Hkey x y) as (der & Hbuild & Hder & _ & Hparse);
      [by vm_compute..|].
    exists der. split; [done|]. split; [done|].
    rewrite Hparse. by vm_compute.
  - apply Hshort. reflexivity.
  - apply Hone. split; [discriminate | reflexivity].
  - apply Htwo. split; [discriminate | reflexivity].
Defined.

(** Two coordinates of 32 bytes that are no point of the curve: the
    encoder returns a key, and parsing it as an EC public key fails. *)
Lemma off_curve_key_is_refused :
  let x := repeat x11 32 in
  let y := repeat x22 32 in
  on_p256 (int_from_bytes x) (int_from_bytes y) = false
  /\ build_der_public_key x y = Some (spki_p256_header ++ [x04] ++ x ++ y)
  /\ parse_ec_public_key (spki_p256_header ++ [x04] ++ x ++ y) = None.
Proof. by vm_compute. Qed.

(** ** ASN.1 nonce extractor *)

(** C6, as the script has it.  A 32-byte value in an OCTET STRING under 0
    to 10 SEQUENCE layers is returned as it is.  Read as TLV elements, with
    the content of an element read in turn when its tag has the constructed
    bit or is OCTET STRING, and no deeper than nesting 10: a payload that
    holds no OCTET STRING of 32 bytes makes the extractor raise its
    [ValueError]; what the extractor returns is the content of one that the
    payload holds; and it returns whenever the payload holds one.  The tags
    the code descends into are exactly those, so that a 32-byte OCTET
    STRING written inside the content of any other element, an INTEGER say,
    is not found.  The extractor raises nothing but its [ValueError].  A
    length field that is cut short or runs past the end of the buffer ends
    the loop of the level it is met at, without a result and without an
    exception: met at the front of the payload, the extractor raises its
    [ValueError]; met inside a nested element, the enclosing level goes on
    with its next element.  The two bounds of the model are never reached:
    more [gas] or more [steps] change nothing. *)
Theorem extract_nonce_from_extension_spec :
  (forall value k, length value = 32%nat -> (k <= 10)%nat ->
     exists payload,
       nest k ([x04; x20] ++ value) = Some payload
       /\ extract_nonce_from_extension payload = Returned value)
  /\ (forall payload,
        (forall value, ~ octet32_at 0 payload value) ->
        extract_nonce_from_extension payload = Raised OtherException)
  /\ (forall payload value,
        extract_nonce_from_extension payload = Returned value ->
        octet32_at 0 payload value)
  /\ (forall payload value,
        octet32_at 0 payload value ->
        exists found, extract_nonce_from_extension payload = Returned found)
  /\ (forall tag, recurse_into tag = descends tag)
  /\ (forall tag hdr value,
        descends tag = false -> length_field hdr 34 -> length value = 32%nat ->
        extract_nonce_from_extension ([tag] ++ hdr ++ [x04; x20] ++ value)
        = Raised OtherException)
  /\ (forall payload e,
        extract_nonce_from_extension payload = Raised e -> e = OtherException)
  /\ (forall recurse b steps i,
        bad_length_at b i -> while_loop recurse b steps i = None)
  /\ (forall payload,
        bad_length_at payload 0 ->
        extract_nonce_from_extension payload = Raised OtherException)
  /\ (forall gas payload, (12 <= gas)%nat ->
        find_octet32_rec gas payload 0 = find_octet32 payload)
  /\ (forall recurse b steps, (length b <= steps)%nat ->
        while_loop recurse b steps 0 = while_loop recurse b (length b) 0).
Proof.
  assert (Hsound : forall payload value,
            extract_nonce_from_extension payload = Returned value ->
            octet32_at 0 payload value).
  { intros payload value. unfold extract_nonce_from_extension, find_octet32.
    destruct (find_octet32_rec 12 payload 0) as [r|] eqn:Hr; [|done].
    intros [= <-]. by eapply find_octet32_rec_sound. }
  repeat split.
  - intros value k Hvalue Hk.
    destruct (find_octet32_rec_nest value k 12 0 Hvalue) as (payload & Hp & Hfind);
      [lia..|].
    exists payload. split; [done|].
    unfold extract_nonce_from_extension, find_octet32. by rewrite Hfind.
  - intros payload Hnone.
    destruct (extract_nonce_from_extension payload) as [value|e] eqn:Hx.
    + by destruct (Hnone value (Hsound _ _ Hx)).
    + unfold extract_nonce_from_extension in Hx.
      destruct (find_octet32 payload); [done | by injection Hx as <-].
  - exact Hsound.
  - intros payload value Hholds.
    destruct (find_octet32_rec_complete 0 payload value Hholds 12) as [r Hr];
      [lia|].
    exists r. unfold extract_nonce_from_extension, find_octet32. by rewrite Hr.
  - apply recurse_into_descends.
  - intros tag hdr value Htag Hhdr Hvalue.
    unfold extract_nonce_from_extension, find_octet32.
    rewrite <- (app_nil_r ([x04; x20] ++ value)).
    rewrite (find_octet32_rec_element 11 0 tag hdr ([x04; x20] ++ value) [])
      by (try done; unfold len; cbn [app length]; by rewrite Hvalue).
    unfold element_result. rewrite recurse_into_descends, Htag.
    destruct (bool_decide_reflect (tag = x04)) as [->|_]; [done|].
    reflexivity.
  - intros payload e. unfold extract_nonce_from_extension.
    destruct (find_octet32 payload); [done | by intros [= <-]].
  - intros recurse b steps i. apply while_loop_bad_length.
  - intros payload Hbad. unfold extract_nonce_from_extension, find_octet32.
    cbn [find_octet32_rec]. destruct (_ || _); [done|].
    by rewrite while_loop_bad_length.
  - intros gas payload Hgas. apply find_octet32_gas; lia.
  - intros recurse b steps Hsteps. apply while_loop_steps; lia.
Qed.

Lemma extract_nonce_from_extension_spec_witness :
  (exists payload,
     nest 3 ([x04; x20] ++ repeat xab 32) = Some payload
     /\ extract_nonce_from_extension payload = Returned (repeat xab 32))
  /\ extract_nonce_from_extension [x30; x03; x02; x01; x05] = Raised OtherException
  /\ (exists found,
        extract_nonce_from_extension
          ([x30] ++ [x24] ++ ([xa1; x22; x04; x20] ++ repeat xab 32) ++ [])
        = Returned found)
  /\ extract_nonce_from_extension ([x02] ++ [x22] ++ [x04; x20] ++ repeat xab 32)
     = Raised OtherException
  /\ extract_nonce_from_extension ([x30; x85; x04; x20] ++ repeat xab 32)
     = Raised OtherException
  /\ find_octet32_rec 20 [x30; x02; x04; x00] 0 = find_octet32 [x30; x02; x04; x00]
  /\ while_loop (fun _ => None) [x30; x02; x04; x00] 9 0
     = while_loop (fun _ => None) [x30; x02; x04; x00] 4 0.
Proof.
  destruct extract_nonce_from_extension_spec
    as (Hnest & Hnone & _ & Hholds & _ & Hprimitive & _ & _ & Hbad & Hgas & Hsteps).
  split; [|split; [|split; [|split; [|split; [|split]]]]].
  - apply Hnest; [reflexivity | repeat constructor].
  - apply Hnone. intros value Hvalue.
    apply octet32_at_size in Hvalue as (_ & Hsize & _). cbn in Hsize. lia.
  - apply (Hholds _ (repeat xab 32)).
    apply octet32_inside; [done | by vm_compute | by vm_compute |].
    rewrite <- (app_nil_r ([xa1; x22; x04; x20] ++ repeat xab 32)).
    apply (octet32_inside _ xa1 [x22] ([x04; x20] ++ repeat xab 32) []);
      [done | by vm_compute | by vm_compute |].
    rewrite <- (app_nil_r (repeat xab 32)) at 1.
    apply (octet32_here _ [x20] (repeat xab 32) []); [done | by vm_compute | done].
  - apply Hprimitive; [by vm_compute | by vm_compute | done].
  - apply Hbad. split; [by eexists|]. cbn. right. reflexivity.
  - apply Hgas. repeat constructor.
  - apply (Hsteps _ [x30; x02; x04; x00] 9%nat). cbn. lia.
Defined.

(** Under 11 layers the OCTET STRING sits at depth 11 and is not looked
    for. *)
Example eleven_layers_not_found :
  (payload ← nest 11 ([x04; x20] ++ repeat xab 32);
   Some (extract_nonce_from_extension payload))
  = Some (Raised OtherException).
Proof. reflexivity. Qed.

(** A length field that runs past the end of the content of a SEQUENCE
    does not make the extractor fail: the OCTET STRING after the SEQUENCE
    is returned. *)
Lemma extract_nonce_after_bad_length :
  let value := repeat xab 32 in
  let payload := [x30; x02; x04; xff] ++ [x04; x20] ++ value in
  bad_length_at (slice payload 2 4) 0
  /\ extract_nonce_from_extension payload = Returned value.
Proof.
  split.
  - split; [by eexists|]. cbn. left. reflexivity.
  - reflexivity.
Qed.

(** ** Binary field reader *)

Lemma parse_auth_data_short b :
  (length b < 55)%nat -> parse_auth_data b = Raised OtherException.
Proof.
  intros Hb. unfold parse_auth_data, byte_at.
  destruct (b !! 32%nat) as [c|]; [|done].
  cbn [mbind option_bind or_raise outcome_bind].
  unfold struct_unpack.
  destruct (decide (length (slice b 33 37) = 4%nat)) as [H4|H4]; [|done].
  cbn [mbind outcome_bind].
  destruct (decide (length (slice b 53 55) = 2%nat)) as [H2|H2]; [|done].
  unfold slice in H2. rewrite length_take, length_drop in H2. lia.
Qed.

Lemma parse_auth_data_long b :
  (55 <= length b)%nat ->
  exists ad,
    parse_auth_data b = Returned ad
    /\ rp_id_hash ad = take 32 b
    /\ Some (flags ad) = Byte.to_N <$> b !! 32%nat
    /\ sign_count ad = int_from_bytes (slice b 33 37)
    /\ aaguid ad = slice b 37 53
    /\ cred_id_len ad = int_from_bytes (slice b 53 55)
    /\ credential_id ad = take (N.to_nat (cred_id_len ad)) (drop 55 b)
    /\ length (credential_id ad)
       = Nat.min (N.to_nat (cred_id_len ad)) (length b - 55).
Proof.
  intros Hb. unfold parse_auth_data.
  destruct (lookup_lt_is_Some_2 b 32) as [c Hc]; [lia|].
  unfold byte_at. rewrite Hc. cbn [mbind option_bind or_raise outcome_bind].
  unfold struct_unpack.
  rewrite decide_True by (rewrite slice_length; lia).
  cbn [mbind outcome_bind].
  rewrite decide_True by (rewrite slice_length; lia).
  cbn [mbind outcome_bind].
  eexists. split; [reflexivity|].
  cbn [rp_id_hash flags sign_count aaguid cred_id_len credential_id].
  repeat split; try done.
  - unfold slice. f_equal. lia.
  - unfold slice. rewrite length_take, length_drop. lia.
Qed.

(** C3, as the script has it.  A buffer shorter than 55 bytes makes the
    parsing step raise, which [verify_attestation] reports as "Parse
    error" in a failed result; a byte is only ever taken through a lookup
    that fails past the end, or through a slice.  A buffer of 55 bytes or
    more always
    parses: [credentialId] is [bytes[55:55+credentialIdLen]] cut at the end
    of the buffer, so it is shorter than [credentialIdLen] when the buffer
    is shorter than [55 + credentialIdLen]. *)
Theorem parse_auth_data_spec :
  (forall b, (length b < 55)%nat -> parse_auth_data b = Raised OtherException)
  /\ (forall b, (55 <= length b)%nat ->
        exists ad,
          parse_auth_data b = Returned ad
          /\ rp_id_hash ad = take 32 b
          /\ Some (flags ad) = Byte.to_N <$> b !! 32%nat
          /\ sign_count ad = int_from_bytes (slice b 33 37)
          /\ aaguid ad = slice b 37 53
          /\ cred_id_len ad = int_from_bytes (slice b 53 55)
          /\ credential_id ad = take (N.to_nat (cred_id_len ad)) (drop 55 b)
          /\ length (credential_id ad)
             = Nat.min (N.to_nat (cred_id_len ad)) (length b - 55))
  /\ (forall (L : Libraries) attestation_b64 challenge team_id bundle_id env
             auth_data x5c n,
        decodes attestation_b64 (PBytes auth_data) x5c ->
        py_len x5c = Returned n -> 2 <= n ->
        (length auth_data < 55)%nat ->
        verify_attestation attestation_b64 challenge team_id bundle_id env
        = failed None [ParseError OtherException]).
Proof.
  split; [exact parse_auth_data_short|]. split; [exact parse_auth_data_long|].
  intros L a c t b env auth_data x5c n Hdec Hlen Hn Hb.
  eapply verify_attestation_auth_data_raises; [done..|].
  cbn [parse_auth_data_value]. by rewrite (parse_auth_data_short _ Hb).
Qed.

Lemma parse_auth_data_spec_witness :
  parse_auth_data (repeat x00 54) = Raised OtherException
  /\ (exists ad,
        parse_auth_data (repeat x00 54 ++ [x02; xaa; xbb]) = Returned ad
        /\ credential_id ad = [xaa; xbb])
  /\ @verify_attestation
       (StandIn.attestation
          [PBytes StandIn.leaf_der; PBytes StandIn.intermediate_der]
          (repeat x00 54))
       "AAAA" StandIn.challenge StandIn.team_id StandIn.bundle_id "dev"
     = failed None [ParseError OtherException].
Proof.
  destruct parse_auth_data_spec as (Hshort & Hlong & Hverify).
  split; [|split].
  - apply Hshort. cbn. lia.
  - destruct (Hlong (repeat x00 54 ++ [x02; xaa; xbb])) as (ad & Had & H).
    + cbn. lia.
    + exists ad. split; [exact Had|].
      destruct H as (_ & _ & _ & _ & Hlen & Hcred & _).
      rewrite Hcred, Hlen. reflexivity.
  - eapply (Hverify _ _ _ _ _ _ (repeat x00 54));
      [unfold decodes; repeat eexists | reflexivity | discriminate
      | cbn; lia].
Defined.

(** A buffer of 55 bytes that announces a 32-byte [credentialId] and holds
    none of it parses, with an empty [credentialId]. *)
Lemma parse_auth_data_truncated_credential_id :
  let b := repeat x00 54 ++ [x20] in
  (N.of_nat (length b) < 55 + 32)
  /\ exists ad, parse_auth_data b = Returned ad
                /\ cred_id_len ad = 32 /\ credential_id ad = [].
Proof. split; [reflexivity|]. eexists. split; [reflexivity|]. done. Qed.

(** ** Assertion verifier *)

(** The steps of [verify_assertion] up to the counter, on an assertion
    that decodes. *)
Lemma verify_assertion_body_decoded `{Libraries} signed_data pk stored
    passport_hash evm_address signature auth_data counter :
  assertion_decodes signed_data passport_hash evm_address signature
    auth_data counter ->
  verify_assertion_body signed_data pk stored =
    if (Z.of_N counter <=? stored)%Z
    then Returned (false, stored, Replay counter stored)
    else
      request_data ← json_dumps (PDict [(KStr "passportHash", passport_hash);
                                        (KStr "evmAddress", evm_address)]);
      public_key ← load_der_public_key pk;
      key_verify public_key signature
        (sha256 (auth_data ++ sha256 request_data));;
      Returned (true, Z.of_N counter, Valid counter).
Proof.
  intros (assertion_b64 & raw & assertion & Hph & Hevm & Hb64 & Hraw & Hcbor
          & Hsig & Hauth & Hcounter).
  unfold verify_assertion_body.
  rewrite Hph, Hevm, Hb64. cbn [or_raise mbind outcome_bind].
  rewrite Hraw. cbn [mbind outcome_bind].
  rewrite Hcbor. cbn [mbind outcome_bind].
  rewrite Hsig. cbn [mbind outcome_bind].
  rewrite Hauth. cbn [mbind outcome_bind read_counter].
  rewrite Hcounter. reflexivity.
Qed.

(** C2. An assertion whose [signCount] is at most [storedCounter] is
    rejected as a replay, whatever the key and the signature are (the result
    is fixed before either is looked at); one whose [signCount] is greater
    and whose signature verifies is accepted, and the counter returned is
    its [signCount]. *)
Theorem verify_assertion_replay_check :
  forall (L : Libraries) signed_data public_key_bytes stored_counter
         passport_hash evm_address signature auth_data counter,
    assertion_decodes signed_data passport_hash evm_address signature
      auth_data counter ->
    ((Z.of_N counter <= stored_counter)%Z ->
       verify_assertion signed_data public_key_bytes stored_counter
       = (false, stored_counter, Replay counter stored_counter))
    /\ ((stored_counter < Z.of_N counter)%Z ->
        forall request_data public_key,
          json_dumps (PDict [(KStr "passportHash", passport_hash);
                             (KStr "evmAddress", evm_address)])
          = Returned request_data ->
          load_der_public_key public_key_bytes = Returned public_key ->
          key_verify public_key signature
            (sha256 (auth_data ++ sha256 request_data)) = Returned tt ->
          verify_assertion signed_data public_key_bytes stored_counter
          = (true, Z.of_N counter, Valid counter)).
Proof.
  intros L signed_data pk stored ph evm sig ad counter Hdec.
  unfold verify_assertion.
  rewrite (verify_assertion_body_decoded _ _ _ _ _ _ _ _ Hdec).
  split.
  - intros Hle. by rewrite (proj2 (Z.leb_le _ _) Hle).
  - intros Hlt request key Hjson Hkey Hverify.
    rewrite (proj2 (Z.leb_gt _ _) Hlt), Hjson. cbn [mbind outcome_bind].
    rewrite Hkey. cbn [mbind outcome_bind]. by rewrite Hverify.
Qed.

Lemma verify_assertion_replay_check_witness :
  @verify_assertion (StandIn.assertion [x00; x00; x00; x05])
     StandIn.signed_data StandIn.public_key_der 5
  = (false, 5%Z, Replay 5 5)
  /\ @verify_assertion (StandIn.assertion [x00; x00; x00; x06])
       StandIn.signed_data StandIn.public_key_der 5
     = (true, 6%Z, Valid 6).
Proof.
  split.
  - refine (proj1 (verify_assertion_replay_check
                     (StandIn.assertion [x00; x00; x00; x05])
                     StandIn.signed_data StandIn.public_key_der 5
                     (PStr "0xabc") (PStr "0x123")
                     (PBytes (StandIn.assertion_signature [x00; x00; x00; x05]))
                     (StandIn.assertion_auth_data [x00; x00; x00; x05]) 5 _) _).
    + unfold assertion_decodes. repeat eexists.
    + discriminate.
  - refine (proj2 (verify_assertion_replay_check
                     (StandIn.assertion [x00; x00; x00; x06])
                     StandIn.signed_data StandIn.public_key_der 5
                     (PStr "0xabc") (PStr "0x123")
                     (PBytes (StandIn.assertion_signature [x00; x00; x00; x06]))
                     (StandIn.assertion_auth_data [x00; x00; x00; x06]) 6 _)
                  _ StandIn.signed_payload StandIn.public_key_der _ _ _).
    + unfold assertion_decodes. repeat eexists.
    + reflexivity.
    + reflexivity.
    + reflexivity.
    + reflexivity.
Defined.

(** C9. Whenever [verify_assertion] reports a failure, the counter it
    returns is the [stored_counter] it was given. *)
Theorem verify_assertion_failure_keeps_counter :
  forall (L : Libraries) signed_data public_key_bytes stored_counter
         valid counter msg,
    verify_assertion signed_data public_key_bytes stored_counter
    = (valid, counter, msg) ->
    valid = false -> counter = stored_counter.
Proof.
  intros L signed_data pk stored valid counter msg.
  unfold verify_assertion.
  destruct (verify_assertion_body signed_data pk stored) as [r|e] eqn:Hbody.
  2:{ destruct e; by intros [= <- <- <-]. }
  intros -> ->. revert Hbody. unfold verify_assertion_body.
  repeat match goal with
    | |- (?o ≫= _) = Returned _ -> _ =>
        let E := fresh in destruct o as [?|?] eqn:E; cbn [mbind outcome_bind];
        [|discriminate]
    | |- (let '(_, _) := ?p in _) = _ -> _ => destruct p
    | |- (if ?c then _ else _) = _ -> _ => destruct c
    end.
  - by intros [= <- _].
  - discriminate.
Qed.

Lemma verify_assertion_failure_keeps_counter_witness :
  snd (fst (@verify_assertion (StandIn.assertion [x00; x00; x00; x06])
              StandIn.signed_data [] 5)) = 5%Z.
Proof.
  eapply (verify_assertion_failure_keeps_counter
            (StandIn.assertion [x00; x00; x00; x06]) StandIn.signed_data [] 5
            false _ (ErrorMessage OtherException)).
  - reflexivity.
  - reflexivity.
Defined.

(** ** Attestation verifier *)













(** C10, as the script has it.  [verify_attestation] returns a result for
    every input: an exception raised in its body ends in the outer handler,
    which appends "Parse error" to the errors gathered so far and returns a
    failed result.  So it is when the base64 text or the CBOR does not
    decode, when the decoded value is not a map, and when [authData] is
    missing or is not a byte string; a "Parse error" entry comes from
    nowhere else and is always the last one, in a result with [ok] false.
    A missing [fmt], [attStmt] or [x5c] key raises nothing, the [.get]
    calls fall back to their defaults: the result is failed with "Invalid
    format: None", or with "Certificate chain too short", and has no "Parse
    error" entry. *)
Theorem verify_attestation_never_raises :
  forall (L : Libraries) attestation_b64 challenge team_id bundle_id env,
    let r := verify_attestation attestation_b64 challenge team_id bundle_id
               env in
    (forall e, b64decode (PStr attestation_b64) = Raised e ->
       r = failed None [ParseError e])
    /\ (forall raw e,
          b64decode (PStr attestation_b64) = Returned raw ->
          cbor2_loads raw = Raised e ->
          r = failed None [ParseError e])
    /\ (forall raw v,
          b64decode (PStr attestation_b64) = Returned raw ->
          cbor2_loads raw = Returned v ->
          (forall items, v <> PDict items) ->
          r = failed None [ParseError OtherException])
    /\ (forall auth_data x5c n,
          decodes attestation_b64 auth_data x5c ->
          py_len x5c = Returned n -> 2 <= n ->
          (forall auth_bytes, auth_data <> PBytes auth_bytes) ->
          r = failed None [ParseError OtherException])
    /\ (forall e, ParseError e ∈ errors r ->
          ok r = false
          /\ exists earlier,
               r = failed None (earlier ++ [ParseError e])
               /\ forall e', ParseError e' ∉ earlier)
    /\ (forall raw att,
          b64decode (PStr attestation_b64) = Returned raw ->
          cbor2_loads raw = Returned (PDict att) ->
          dict_lookup att (KStr "fmt") = None ->
          r = failed None [InvalidFormat PNone])
    /\ (forall raw att,
          b64decode (PStr attestation_b64) = Returned raw ->
          cbor2_loads raw = Returned (PDict att) ->
          dict_lookup att (KStr "fmt") = Some (PStr "apple-appattest") ->
          dict_lookup att (KStr "attStmt") = None ->
          r = failed None [ChainTooShort]).
Proof.
  intros L a c t b env r. unfold r.
  split; [|split; [|split; [|split; [|split; [|split]]]]].
  - intros e. apply verify_attestation_b64_raises.
  - intros raw e. apply verify_attestation_cbor_raises.
  - intros raw v. apply verify_attestation_not_a_dict.
  - intros auth_data x5c n Hdec Hlen Hn Hauth.
    eapply verify_attestation_auth_data_raises; [done..|].
    destruct auth_data; try done. by destruct (Hauth b0).
  - intros e Hin.
    destruct (verify_attestation_parse_error a c t b env e Hin)
      as (earlier & Hr & Hno).
    split; [by rewrite Hr | by exists earlier].
  - intros raw att Hraw Hatt Hfmt.
    pose proof (verify_attestation_wrong_format a c t b env raw att Hraw Hatt)
      as Hwrong.
    rewrite Hfmt in Hwrong. by apply Hwrong.
  - intros raw att Hraw Hatt Hfmt Hstmt.
    apply (verify_attestation_chain_too_short a c t b env
             (default PNone (dict_lookup att (KStr "authData"))) (PList []) 0);
      [|done..].
    exists raw, att, (PDict []).
    split; [done|]. split; [done|]. split; [done|].
    split; [by apply py_get_missing|]. done.
Qed.

Lemma verify_attestation_never_raises_witness :
  let run (L : Libraries) (text : string) :=
    @verify_attestation L text StandIn.challenge StandIn.team_id
      StandIn.bundle_id "dev" in
  run (StandIn.libraries (Returned PNone) []) "AAA"
  = failed None [ParseError OtherException]
  /\ run (StandIn.libraries (Raised OtherException) []) "AAAA"
     = failed None [ParseError OtherException]
  /\ run (StandIn.libraries (Returned (PList [])) []) "AAAA"
     = failed None [ParseError OtherException]
  /\ run (StandIn.libraries
            (Returned (PDict [(KStr "fmt", PStr "apple-appattest");
                              (KStr "attStmt",
                               PDict [(KStr "x5c",
                                       PList [PBytes StandIn.leaf_der;
                                              PBytes StandIn.intermediate_der])])]))
            []) "AAAA"
     = failed None [ParseError OtherException]
  /\ ok (run (StandIn.libraries (Raised OtherException) []) "AAAA") = false
  /\ run (StandIn.libraries (Returned (PDict [])) []) "AAAA"
     = failed None [InvalidFormat PNone]
  /\ run (StandIn.libraries
            (Returned (PDict [(KStr "fmt", PStr "apple-appattest")])) [])
       "AAAA"
     = failed None [ChainTooShort].
Proof.
  intros run.
  split; [|split; [|split; [|split; [|split; [|split]]]]].
  - refine (proj1 (verify_attestation_never_raises _ "AAA" _ _ _ _) _ _).
    reflexivity.
  - destruct (verify_attestation_never_raises
                (StandIn.libraries (Raised OtherException) []) "AAAA"
                StandIn.challenge StandIn.team_id StandIn.bundle_id "dev")
      as (_ & Hcbor & _).
    eapply Hcbor; reflexivity.
  - destruct (verify_attestation_never_raises
                (StandIn.libraries (Returned (PList [])) []) "AAAA"
                StandIn.challenge StandIn.team_id StandIn.bundle_id "dev")
      as (_ & _ & Hdict & _).
    eapply Hdict; [reflexivity | reflexivity | discriminate].
  - match goal with
    | |- run ?L _ = _ =>
        destruct (verify_attestation_never_raises L "AAAA"
                    StandIn.challenge StandIn.team_id StandIn.bundle_id "dev")
          as (_ & _ & _ & Hauth & _)
    end.
    eapply (Hauth PNone);
      [unfold decodes; repeat eexists | reflexivity | discriminate
      | discriminate].
  - destruct (verify_attestation_never_raises
                (StandIn.libraries (Raised OtherException) []) "AAAA"
                StandIn.challenge StandIn.team_id StandIn.bundle_id "dev")
      as (_ & _ & _ & _ & Hparse & _).
    eapply (Hparse OtherException). constructor.
  - destruct (verify_attestation_never_raises
                (StandIn.libraries (Returned (PDict [])) []) "AAAA"
                StandIn.challenge StandIn.team_id StandIn.bundle_id "dev")
      as (_ & _ & _ & _ & _ & Hfmt & _).
    eapply Hfmt; reflexivity.
  - match goal with
    | |- run ?L _ = _ =>
        destruct (verify_attestation_never_raises L "AAAA"
                    StandIn.challenge StandIn.team_id StandIn.bundle_id "dev")
          as (_ & _ & _ & _ & _ & _ & Hstmt)
    end.
    eapply Hstmt; reflexivity.
Defined.

(** A map without any key is an input with missing container keys: the
    result is failed, and there is no "Parse error" in it. *)
Lemma missing_keys_give_no_parse_error :
  let r := @verify_attestation (StandIn.libraries (Returned (PDict [])) [])
             "AAAA" StandIn.challenge StandIn.team_id StandIn.bundle_id "dev" in
  ok r = false /\ errors r = [InvalidFormat PNone]
  /\ forall e, ParseError e ∉ errors r.
Proof.
  split; [done|]. split; [done|].
  intros e Hin. vm_compute in Hin. by apply list_elem_of_singleton in Hin.
Qed.

(** * More properties of the scripts *)

(** ** The nonce extractor, element by element *)

(** X1. [extract_nonce_from_extension] goes through the elements of the
    payload from left to right.  When the first element has a length field
    that fits, it decides as soon as it gives a value: itself when it is an
    OCTET STRING of 32 bytes, what the search finds inside when its tag is
    one the walker descends into.  Only when it gives nothing is the rest of
    the payload looked at, exactly as if the payload began there. *)
Theorem extract_nonce_element_by_element tag hdr value rest :
  length_field hdr (len value) ->
  extract_nonce_from_extension ([tag] ++ hdr ++ value ++ rest)
  = match element_result 11 0 tag value with
    | Some r => Returned r
    | None => extract_nonce_from_extension rest
    end.
Proof.
  intros Hfield. unfold extract_nonce_from_extension, find_octet32.
  rewrite (find_octet32_rec_element 11 0 tag hdr value rest) by (lia || done).
  by destruct (element_result 11 0 tag value).
Qed.

Lemma extract_nonce_element_by_element_witness :
  extract_nonce_from_extension
    ([x02] ++ [x01] ++ [x05] ++ ([x04; x20] ++ repeat xab 32))
  = match element_result 11 0 x02 [x05] with
    | Some r => Returned r
    | None => extract_nonce_from_extension ([x04; x20] ++ repeat xab 32)
    end.
Proof.
  apply (extract_nonce_element_by_element x02 [x01] [x05]). vm_compute. done.
Defined.

Lemma find_octet32_rec_wrap layers : forall inner hdr value after gas depth,
  layers_fit layers inner ->
  inner = [x04] ++ hdr ++ value ++ after ->
  length_field hdr 32 -> length value = 32%nat ->
  (length layers < gas)%nat -> N.of_nat (length layers) + depth <= 10 ->
  find_octet32_rec gas (wrap layers inner) depth = Some value.
Proof.
  induction layers as [|l layers IH];
    intros inner hdr value after gas depth Hfit -> Hhdr Hvalue Hgas Hdepth.
  - destruct gas as [|gas]; [cbn in Hgas; lia|]. cbn [wrap].
    assert (Hlen : len value = 32) by (unfold len; lia).
    rewrite (find_octet32_rec_element gas depth x04 hdr value after)
      by (lia || by rewrite Hlen).
    unfold element_result. rewrite Hlen. by rewrite bool_decide_eq_true_2.
  - destruct gas as [|gas]; [cbn in Hgas; lia|].
    destruct Hfit as (Htag & Hfield & Hnot & Hfit).
    cbn [wrap]. unfold wrap_layer. cbn [length] in Hgas, Hdepth.
    rewrite (find_octet32_rec_element gas depth) by (lia || done).
    unfold element_result.
    destruct (bool_decide (layer_tag l = x04)
              && (len (wrap layers ([x04] ++ hdr ++ value ++ after)) =? 32))
      eqn:Hhit.
    + apply andb_true_iff in Hhit as [Ht Hl].
      apply bool_decide_eq_true in Ht. apply N.eqb_eq in Hl. by destruct Hnot.
    + rewrite Htag.
      by rewrite (IH _ hdr value after gas (depth + 1) Hfit eq_refl Hhdr Hvalue)
        by lia.
Qed.

(** X2. An OCTET STRING of 32 bytes is found under up to 10 layers of any
    kind the walker descends into (constructed or context tags such as
    [0xA1], SEQUENCE, SET, OCTET STRING), whichever form their length fields
    have and whatever bytes follow the content at each level. *)
Theorem extract_nonce_under_layers layers hdr value after :
  let inner := [x04] ++ hdr ++ value ++ after in
  (length layers <= 10)%nat ->
  layers_fit layers inner ->
  length_field hdr 32 -> length value = 32%nat ->
  extract_nonce_from_extension (wrap layers inner) = Returned value.
Proof.
  intros inner Hlayers Hfit Hhdr Hvalue.
  unfold extract_nonce_from_extension, find_octet32.
  by rewrite (find_octet32_rec_wrap layers inner hdr value after 12 0)
    by (done || cbn; lia).
Qed.

(** The extension as Apple writes it: [SEQUENCE { [1] { OCTET STRING } }],
    here with the outer length in the long form and a byte after the
    OCTET STRING. *)
Lemma extract_nonce_under_layers_witness :
  extract_nonce_from_extension
    (wrap [ {| layer_tag := x30; layer_length := [x81; x25]; layer_after := [] |};
            {| layer_tag := xa1; layer_length := [x23]; layer_after := [] |} ]
          ([x04] ++ [x20] ++ repeat xab 32 ++ [x00]))
  = Returned (repeat xab 32).
Proof.
  apply (extract_nonce_under_layers
           [ {| layer_tag := x30; layer_length := [x81; x25]; layer_after := [] |};
             {| layer_tag := xa1; layer_length := [x23]; layer_after := [] |} ]
           [x20] (repeat xab 32) [x00]).
  - cbn. lia.
  - cbn [layers_fit]. repeat split; try (vm_compute; congruence).
    + intros [Ht _]. discriminate Ht.
    + intros [Ht _]. discriminate Ht.
  - vm_compute. done.
  - reflexivity.
Defined.

Lemma find_octet32_rec_too_deep layers : forall inner gas depth,
  Forall (fun l => layer_after l = []) layers ->
  layers_fit layers inner ->
  10 < N.of_nat (length layers) + depth ->
  find_octet32_rec gas (wrap layers inner) depth = None.
Proof.
  induction layers as [|l layers IH]; intros inner gas depth Hafter Hfit Hdepth.
  - destruct gas as [|gas]; [done|]. cbn [find_octet32_rec wrap].
    cbn [length] in Hdepth. by rewrite (proj2 (N.ltb_lt 10 depth)) by lia.
  - destruct gas as [|gas]; [done|].
    destruct (N.ltb_spec 10 depth) as [Hdeep|Hshallow].
    { cbn [find_octet32_rec]. by rewrite (proj2 (N.ltb_lt 10 depth)) by lia. }
    destruct Hfit as (Htag & Hfield & Hnot & Hfit).
    apply Forall_cons in Hafter as [Hl Hafter].
    cbn [wrap]. unfold wrap_layer. rewrite Hl. cbn [length] in Hdepth.
    rewrite (find_octet32_rec_element gas depth) by (lia || done).
    unfold element_result.
    destruct (bool_decide (layer_tag l = x04) && (len (wrap layers inner) =? 32))
      eqn:Hhit.
    + apply andb_true_iff in Hhit as [Ht Hlen].
      apply bool_decide_eq_true in Ht. apply N.eqb_eq in Hlen. by destruct Hnot.
    + rewrite Htag. rewrite (IH inner gas (depth + 1)) by (done || lia).
      cbn [find_octet32_rec]. destruct (10 <? depth); done.
Qed.

(** X3. The search stops at depth 10.  Whatever stands under 11 or more
    layers with nothing beside them is not looked at, and the extractor
    raises its [ValueError]. *)
Theorem extract_nonce_too_deep layers inner :
  Forall (fun l => layer_after l = []) layers ->
  layers_fit layers inner ->
  (11 <= length layers)%nat ->
  extract_nonce_from_extension (wrap layers inner) = Raised OtherException.
Proof.
  intros Hafter Hfit Hlayers. unfold extract_nonce_from_extension, find_octet32.
  by rewrite (find_octet32_rec_too_deep layers inner 12 0) by (done || lia).
Qed.

Lemma extract_nonce_too_deep_witness :
  extract_nonce_from_extension
    (wrap (map (fun c => {| layer_tag := x30; layer_length := [c];
                            layer_after := [] |})
             [x36; x34; x32; x30; x2e; x2c; x2a; x28; x26; x24; x22])
          ([x04; x20] ++ repeat xab 32))
  = Raised OtherException.
Proof.
  apply extract_nonce_too_deep.
  - repeat constructor.
  - cbn [map layers_fit layer_tag layer_length].
    repeat split;
      try (vm_compute; congruence); try (intros [Ht _]; discriminate Ht).
  - cbn. lia.
Defined.

(** ** Integers as big-endian bytes *)

Lemma int_from_bytes_snoc (high : bytes) (low : byte) :
  int_from_bytes (high ++ [low]) = int_from_bytes high * 256 + Byte.to_N low.
Proof. unfold int_from_bytes. by rewrite foldl_app. Qed.

Lemma to_bytes_be_fits width : forall n,
  n < 256 ^ N.of_nat width ->
  exists b, to_bytes_be width n = Some b
            /\ length b = width /\ int_from_bytes b = n.
Proof.
  induction width as [|width IH]; intros n Hn.
  - cbn in Hn. assert (n = 0) as -> by lia. by exists [].
  - rewrite Nat2N.inj_succ, N.pow_succ_r' in Hn.
    destruct (IH (n / 256)) as (high & Hhigh & Hlen & Hval).
    { apply N.Div0.div_lt_upper_bound. lia. }
    destruct (of_N_total (n mod 256)) as (low & Hlow & Hto).
    { apply N.mod_lt. lia. }
    exists (high ++ [low]). cbn [to_bytes_be]. rewrite Hhigh. cbn. rewrite Hlow.
    cbn. split; [done|]. split.
    + rewrite length_app, Hlen. cbn. lia.
    + rewrite int_from_bytes_snoc, Hval, Hto.
      pose proof (N.div_mod n 256). lia.
Qed.

Lemma to_bytes_be_overflow width : forall n,
  256 ^ N.of_nat width <= n -> to_bytes_be width n = None.
Proof.
  induction width as [|width IH]; intros n Hn.
  - cbn in Hn. cbn. destruct (N.eqb_spec n 0); [lia | done].
  - rewrite Nat2N.inj_succ, N.pow_succ_r' in Hn.
    cbn [to_bytes_be]. rewrite IH; [done|].
    apply N.div_le_lower_bound; lia.
Qed.

Lemma to_bytes_be_some width n b :
  to_bytes_be width n = Some b ->
  n < 256 ^ N.of_nat width /\ length b = width /\ int_from_bytes b = n.
Proof.
  intros Hb. destruct (N.lt_ge_cases n (256 ^ N.of_nat width)) as [Hn|Hn].
  - destruct (to_bytes_be_fits width n Hn) as (b' & Hb' & Hlen & Hval).
    rewrite Hb in Hb'. injection Hb' as <-. done.
  - rewrite to_bytes_be_overflow in Hb by done. discriminate.
Qed.

(** ** [verify_attestation], path by path *)

Tactic Notation "split_call" ident(name) ident(E) :=
  match goal with
  | |- context [(call ?o ≫= _) _] =>
      destruct o as [name|?e] eqn:E;
      [ erewrite run_bind by (apply run_call; reflexivity)
      | erewrite run_bind_raise by (apply run_call_raise; reflexivity) ]
  end.

(** Steps 1 to 6 on a submission that parses, leaving the goal at step 7
    with the errors of steps 3 to 6 appended. *)
Ltac run_to_certificates Hp :=
  let Hdec := fresh "Hdec" in
  let n := fresh "n" in
  let Hlen := fresh "Hlen" in
  let Hn := fresh "Hn" in
  let Hparse := fresh "Hparse" in
  destruct Hp as (Hdec & (n & Hlen & Hn) & Hparse);
  run_to_chain Hdec;
  run_call_with Hlen;
  rewrite (proj2 (N.ltb_ge _ 2)) by exact Hn;
  run_step ltac:(apply run_call; cbn [parse_auth_data_value]; rewrite Hparse;
                 reflexivity);
  cbv beta iota;
  run_step ltac:(apply run_rp_id_hash_check);
  run_step ltac:(apply run_flag_check);
  run_step ltac:(apply run_sign_count_check);
  run_step ltac:(apply run_aaguid_check);
  rewrite <- !app_assoc; cbn [app];
  match goal with
  | |- context [rp_id_hash_errors ?ad ?t ?b ++ flag_errors ?ad
                ++ sign_count_errors ?ad ++ aaguid_errors ?ad ?env] =>
      fold (auth_data_errors ad t b env)
  end.

(** Steps 7 on two entries that load, leaving the goal at step 8. *)
Ltac run_signatures Hleaf Hinter :=
  run_step ltac:(apply run_call; exact Hleaf);
  run_step ltac:(apply run_call; exact Hinter);
  run_step ltac:(apply run_signature_check);
  run_step ltac:(apply run_signature_check);
  unfold auth_data_errors; rewrite <- !app_assoc;
  match goal with
  | |- context [rp_id_hash_errors ?ad ?t ?b ++ flag_errors ?ad
                ++ sign_count_errors ?ad ++ aaguid_errors ?ad ?env
                ++ signature_errors _ _ ?i ++ signature_errors _ ?i ?l] =>
      fold (errors_before_key ad t b env l i)
  end.

Section attestation_paths.
Context `{Libraries}.



Lemma verify_attestation_key_raises a c t b env auth_data ad x5c
    leaf_cert intermediate e :
  parses a auth_data ad x5c ->
  load_chain_entry x5c 0 = Returned leaf_cert ->
  load_chain_entry x5c 1 = Returned intermediate ->
  cert_public_key leaf_cert = Raised e ->
  verify_attestation a c t b env
  = failed None (errors_before_key ad t b env leaf_cert intermediate
                 ++ [ParseError e]).
Proof.
  intros Hp Hleaf Hinter Hkey. run_to_certificates Hp.
  run_signatures Hleaf Hinter.
  erewrite run_bind_raise by (apply run_call_raise; exact Hkey). reflexivity.
Qed.



Lemma differs_from_str_false v s :
  differs_from_str v s = false -> v = PStr s.
Proof.
  destruct v; try done. cbn. intros Hs. apply negb_false_iff in Hs.
  apply bool_decide_eq_true in Hs. by subst.
Qed.

Lemma parse_auth_data_value_returned v auth_data ad :
  parse_auth_data_value v = Returned (auth_data, ad) ->
  v = PBytes auth_data /\ parse_auth_data auth_data = Returned ad.
Proof.
  destruct v; try done. cbn [parse_auth_data_value].
  destruct (parse_auth_data b) as [ad'|e] eqn:Hparse; [|done].
  cbn. by intros [= -> ->].
Qed.

(** Every run ends in one of four ways: before step 3 with one entry and
    nothing else, at step 7 or 8 on an exception after the errors of steps 3
    to 7, at step 8 on a key that is not an EC key, or at the end with the
    key and the errors of all the checks. *)
Lemma verify_attestation_paths a c t b env :
  let r := verify_attestation a c t b env in
  (exists e, r = failed None [e])
  \/ (exists auth_data ad x5c, parses a auth_data ad x5c /\
       ((exists e, load_chain_entry x5c 0 = Raised e
                   /\ r = failed None (auth_data_errors ad t b env ++ [ParseError e]))
        \/ (exists leaf_cert e,
              load_chain_entry x5c 0 = Returned leaf_cert
              /\ load_chain_entry x5c 1 = Raised e
              /\ r = failed None (auth_data_errors ad t b env ++ [ParseError e]))
        \/ (exists leaf_cert intermediate,
              load_chain_entry x5c 0 = Returned leaf_cert
              /\ load_chain_entry x5c 1 = Returned intermediate
              /\ let earlier := errors_before_key ad t b env leaf_cert intermediate in
                 (exists e, cert_public_key leaf_cert = Raised e
                            /\ r = failed None (earlier ++ [ParseError e]))
                 \/ (cert_public_key leaf_cert = Returned OtherPublicKey
                     /\ r = failed (Some (credential_id ad)) (earlier ++ [LeafKeyNotEC]))
                 \/ (exists x y,
                       cert_public_key leaf_cert = Returned (EllipticCurvePublicKey x y)
                       /\ (to_bytes_be 32 x = None \/ to_bytes_be 32 y = None)
                       /\ r = failed None (earlier ++ [ParseError OtherException]))
                 \/ (exists x y x_bytes y_bytes,
                       cert_public_key leaf_cert = Returned (EllipticCurvePublicKey x y)
                       /\ to_bytes_be 32 x = Some x_bytes
                       /\ to_bytes_be 32 y = Some y_bytes
                       /\ r = keyed_result x_bytes y_bytes (credential_id ad)
                              (earlier
                               ++ credential_errors ad (sha256 ([x04] ++ x_bytes ++ y_bytes))
                               ++ nonce_errors leaf_cert auth_data c))))).
Proof.
  intros r. unfold r, verify_attestation, verify_attestation_body.
  split_call raw Hraw; [|left; by eexists].
  split_call att Hatt; [|left; by eexists].
  split_call fmt Hfmt; [|left; by eexists].
  destruct (differs_from_str fmt "apple-appattest") eqn:Hdiff;
    [left; by eexists|].
  apply differs_from_str_false in Hdiff as ->.
  split_call att_stmt Hstmt; [|left; by eexists].
  split_call auth_data Hauth; [|left; by eexists].
  split_call x5c Hx5c; [|left; by eexists].
  split_call n Hlen; [|left; by eexists].
  destruct (N.ltb_spec n 2) as [Hn|Hn]; [left; by eexists|].
  split_call parsed Hparse; [|left; by eexists].
  destruct parsed as [auth_bytes ad]. cbv beta iota.
  apply parse_auth_data_value_returned in Hparse as [-> Hparse].
  destruct att as [| | | | |?|items|]; try discriminate Hfmt.
  assert (Hfmt' : dict_lookup items (KStr "fmt") = Some (PStr "apple-appattest")).
  { cbn [py_get] in Hfmt. destruct (dict_lookup items (KStr "fmt")); [|done].
    cbn in Hfmt. congruence. }
  assert (Hparses : parses a auth_bytes ad x5c).
  { split; [by exists raw, items, att_stmt|]. split; [by exists n | done]. }
  right. exists auth_bytes, ad, x5c. split; [done|].
  run_step ltac:(apply run_rp_id_hash_check).
  run_step ltac:(apply run_flag_check).
  run_step ltac:(apply run_sign_count_check).
  run_step ltac:(apply run_aaguid_check).
  rewrite <- !app_assoc. cbn [app].
  fold (auth_data_errors ad t b env).
  split_call leaf_cert Hleaf; [|left; by exists e].
  split_call intermediate Hinter; [|right; left; by exists leaf_cert, e].
  right; right. exists leaf_cert, intermediate. split; [done|]. split; [done|].
  run_step ltac:(apply run_signature_check).
  run_step ltac:(apply run_signature_check).
  unfold auth_data_errors. rewrite <- !app_assoc.
  fold (errors_before_key ad t b env leaf_cert intermediate).
  split_call leaf_pk Hkey; [|left; by exists e].
  destruct leaf_pk as [x y|]; [|right; left; done].
  right; right.
  split_call x_bytes Hx.
  2:{ left. exists x, y. split; [done|]. unfold or_raise in Hx.
      destruct (to_bytes_be 32 x); [done|]. injection Hx as <-. by split; [left|]. }
  split_call y_bytes Hy.
  2:{ left. exists x, y. split; [done|]. unfold or_raise in Hy.
      destruct (to_bytes_be 32 y); [done|]. injection Hy as <-. by split; [right|]. }
  right. exists x, y, x_bytes, y_bytes. split; [done|].
  unfold or_raise in Hx, Hy.
  destruct (to_bytes_be 32 x) as [x'|]; [|done].
  destruct (to_bytes_be 32 y) as [y'|]; [|done].
  injection Hx as ->. injection Hy as ->. split; [done|]. split; [done|].
  cbv beta iota zeta.
  run_step ltac:(apply run_credential_check).
  run_step ltac:(apply run_nonce_check).
  rewrite <- !app_assoc. reflexivity.
Qed.

(** *** What an empty list of errors means, check by check *)






Lemma credential_errors_nil ad key_id :
  credential_errors ad key_id = [] <-> credential_id ad = key_id.
Proof. unfold credential_errors. by case_bool_decide. Qed.



Lemma keyed_result_ok x_bytes y_bytes cred errs :
  ok (keyed_result x_bytes y_bytes cred errs) = true <-> errs = [].
Proof.
  cbn. rewrite bool_decide_eq_true. by destruct errs.
Qed.

Lemma failed_last_not_ok cred errs e : ok (failed cred (errs ++ [e])) = true -> False.
Proof. done. Qed.

End attestation_paths.

(** ** When an attestation is accepted *)



Section attestation_results.
Context `{Libraries}.

(** A result either carries no key at all, with [ok] false and errors to
    show for it, or it is the one built at the end of the function. *)
Lemma verify_attestation_result_cases a c t b env :
  let r := verify_attestation a c t b env in
  (exists cred earlier e, r = failed cred (earlier ++ [e]))
  \/ (exists ad x_bytes y_bytes before after,
        length x_bytes = 32%nat /\ length y_bytes = 32%nat
        /\ r = keyed_result x_bytes y_bytes (credential_id ad)
                 (before
                  ++ credential_errors ad (sha256 ([x04] ++ x_bytes ++ y_bytes))
                  ++ after)).
Proof.
  intros r.
  destruct (verify_attestation_paths a c t b env)
    as [(e & Hr)|(auth_data & ad & x5c & Hp & Hpaths)].
  { left. by exists None, [], e. }
  destruct Hpaths
    as [(e & _ & Hr)|[(leaf_cert & e & _ & _ & Hr)
                     |(leaf_cert & intermediate & Hleaf & Hinter & Hkey)]].
  { left. by eexists _, _, _. }
  { left. by eexists _, _, _. }
  destruct Hkey
    as [(e & _ & Hr)|[(_ & Hr)|[(x & y & _ & _ & Hr)
                               |(x & y & x_bytes & y_bytes & Hkey & Hx & Hy & Hr)]]].
  { left. by eexists _, _, _. }
  { left. by eexists _, _, _. }
  { left. by eexists _, _, _. }
  right. apply to_bytes_be_some in Hx as (_ & Hx & _).
  apply to_bytes_be_some in Hy as (_ & Hy & _).
  by eexists ad, x_bytes, y_bytes, _, _.
Qed.

(** [dump] on a result of [verify_attestation]. *)
Lemma dump_verify_attestation a c t b env :
  dump (verify_attestation a c t b env)
  = Returned (if ok (verify_attestation a c t b env) then Some true else None).
Proof.
  destruct (verify_attestation_result_cases a c t b env)
    as [(cred & earlier & e & Hr)
       |(ad & x_bytes & y_bytes & before & after & Hx & Hy & Hr)].
  { by rewrite Hr. }
  rewrite Hr. unfold dump.
  destruct (ok (keyed_result _ _ _ _)) eqn:Hok; [|done].
  apply keyed_result_ok in Hok.
  apply app_nil in Hok as [_ Hok]. apply app_nil in Hok as [Hcred _].
  apply credential_errors_nil in Hcred.
  cbn. by rewrite bool_decide_eq_true_2.
Qed.

End attestation_results.

(** X5. An accepted attestation comes with its key: both coordinates have
    32 bytes, the uncompressed point is [04 || X || Y], the key id is its
    digest and the credential id is the same value, and no error is listed.
    [build_der_public_key] on the two coordinates, as [save_public_key] calls
    it, returns the P-256 SubjectPublicKeyInfo around them.  Its structure
    reads back as the same coordinates; parsed as an EC public key it is
    accepted exactly when they are a point of P-256, which nothing in
    [verify_attestation] makes sure of: step 8 asks for an EC key, of
    whatever curve. *)
Theorem verify_attestation_accepted_key :
  forall (L : Libraries) attestation_b64 challenge team_id bundle_id env,
    let r := verify_attestation attestation_b64 challenge team_id bundle_id env in
    ok r = true ->
    exists x_bytes y_bytes,
      length x_bytes = 32%nat /\ length y_bytes = 32%nat
      /\ r = keyed_result x_bytes y_bytes (sha256 ([x04] ++ x_bytes ++ y_bytes)) []
      /\ key_id r = result_credential_id r
      /\ build_der_public_key x_bytes y_bytes
         = Some (spki_p256_header ++ [x04] ++ x_bytes ++ y_bytes)
      /\ read_spki_point (spki_p256_header ++ [x04] ++ x_bytes ++ y_bytes)
         = Some (x_bytes, y_bytes)
      /\ parse_ec_public_key (spki_p256_header ++ [x04] ++ x_bytes ++ y_bytes)
         = if on_p256 (int_from_bytes x_bytes) (int_from_bytes y_bytes)
           then Some (x_bytes, y_bytes) else None.
Proof.
  intros L a c t b env r Hok. unfold r in *.
  destruct (verify_attestation_result_cases a c t b env)
    as [(cred & earlier & e & Hr)
       |(ad & x_bytes & y_bytes & before & after & Hx & Hy & Hr)].
  { rewrite Hr in Hok. discriminate Hok. }
  rewrite Hr in Hok |- *. apply keyed_result_ok in Hok.
  apply app_nil in Hok as [-> Hok]. apply app_nil in Hok as [Hcred ->].
  rewrite Hcred. apply credential_errors_nil in Hcred.
  exists x_bytes, y_bytes. split; [done|]. split; [done|].
  rewrite Hcred. split; [done|]. split; [done|].
  split; [by apply build_der_public_key_p256|].
  split; [by apply read_spki_point_p256 | by apply parse_ec_public_key_p256].
Qed.

Lemma verify_attestation_accepted_key_witness :
  let L := StandIn.attestation
             [PBytes StandIn.leaf_der; PBytes StandIn.intermediate_der]
             StandIn.good_auth_data in
  exists x_bytes y_bytes,
    length x_bytes = 32%nat /\ length y_bytes = 32%nat
    /\ @verify_attestation L "AAAA" StandIn.challenge StandIn.team_id
         StandIn.bundle_id "dev"
       = @keyed_result L x_bytes y_bytes
           (@sha256 L ([x04] ++ x_bytes ++ y_bytes)) [].
Proof.
  intros L.
  destruct (verify_attestation_accepted_key L
              "AAAA"%string StandIn.challenge StandIn.team_id
              StandIn.bundle_id "dev"%string)
    as (x_bytes & y_bytes & Hx & Hy & Hr & _).
  - vm_compute. reflexivity.
  - exists x_bytes, y_bytes. split; [exact Hx|]. split; [exact Hy|]. exact Hr.
Defined.

(** An attestation whose leaf key is the base point of secp256k1 is
    accepted, and the key built from it is no P-256 key. *)
Example accepted_key_on_another_curve :
  let r := @verify_attestation other_curve_attestation "AAAA" StandIn.challenge
             StandIn.team_id StandIn.bundle_id "dev" in
  ok r = true
  /\ public_key_uncompressed r = Some other_curve_point
  /\ parse_ec_public_key (spki_p256_header ++ other_curve_point) = None.
Proof. by vm_compute. Qed.

(** X6. [dump] never fails on a result of [verify_attestation], whatever
    the input was: the fields it reads under [if self.ok:] are all there
    when [ok] is true.  And what it then prints is always "credentialId ==
    keyId (correct)": the other branch of its comparison is never taken. *)
Theorem dump_after_verify_attestation :
  forall (L : Libraries) attestation_b64 challenge team_id bundle_id env,
    let r := verify_attestation attestation_b64 challenge team_id bundle_id env in
    dump r = Returned (if ok r then Some true else None).
Proof. intros L a c t b env r. apply dump_verify_attestation. Qed.







(** ** [verify_assertion], path by path *)

Lemma int_from_bytes_bound (b : bytes) : int_from_bytes b < 256 ^ len b.
Proof.
  induction b as [|c b IH] using rev_ind; [done|].
  rewrite int_from_bytes_snoc. unfold len in *. rewrite length_app. cbn [length].
  replace (N.of_nat (length b + 1)) with (N.succ (N.of_nat (length b))) by lia.
  rewrite N.pow_succ_r'. pose proof (Byte.to_N_bounded c). lia.
Qed.

Lemma struct_unpack_bound size buf n :
  struct_unpack size buf = Returned n -> n < 256 ^ N.of_nat size.
Proof.
  unfold struct_unpack. case_decide as Hsize; [|done]. intros [= <-].
  rewrite <- Hsize. apply int_from_bytes_bound.
Qed.

Section assertion_paths.
Context `{Libraries}.

(** The body of [verify_assertion] raises, or returns at the counter test,
    or runs to its end. *)
Lemma verify_assertion_body_paths signed_data pk stored :
  let r := verify_assertion_body signed_data pk stored in
  (exists e, r = Raised e)
  \/ (exists passport_hash evm_address signature auth_data counter,
        assertion_decodes signed_data passport_hash evm_address signature
          auth_data counter
        /\ ((Z.of_N counter <= stored)%Z
            /\ r = Returned (false, stored, Replay counter stored)
            \/ (stored < Z.of_N counter)%Z
               /\ exists request_data public_key,
                    json_dumps (PDict [(KStr "passportHash", passport_hash);
                                       (KStr "evmAddress", evm_address)])
                    = Returned request_data
                    /\ load_der_public_key pk = Returned public_key
                    /\ key_verify public_key signature
                         (sha256 (auth_data ++ sha256 request_data))
                       = Returned tt
                    /\ r = Returned (true, Z.of_N counter, Valid counter))).
Proof.
  intros r. unfold r, verify_assertion_body.
  destruct (dict_lookup signed_data (KStr "passportHash")) as [passport_hash|]
    eqn:Hph; [|left; by eexists].
  destruct (dict_lookup signed_data (KStr "evmAddress")) as [evm_address|]
    eqn:Hevm; [|left; by eexists].
  destruct (dict_lookup signed_data (KStr "assertion")) as [assertion_b64|]
    eqn:Hb64; [|left; by eexists].
  cbn [or_raise mbind outcome_bind].
  destruct (b64decode assertion_b64) as [raw|e] eqn:Hraw; [|left; by eexists].
  cbn [mbind outcome_bind].
  destruct (cbor2_loads raw) as [assertion|e] eqn:Hcbor; [|left; by eexists].
  cbn [mbind outcome_bind].
  destruct (py_subscript assertion "signature") as [signature|e] eqn:Hsig;
    [|left; by eexists].
  cbn [mbind outcome_bind].
  destruct (py_subscript assertion "authenticatorData") as [auth_value|e]
    eqn:Hauth; [|left; by eexists].
  cbn [mbind outcome_bind].
  destruct auth_value as [| | | |auth_data| | |]; try (left; by eexists).
  cbn [read_counter].
  destruct (struct_unpack 4 (slice auth_data 33 37)) as [counter|e] eqn:Hcounter;
    [|left; by eexists].
  cbn [mbind outcome_bind].
  assert (Hdec : assertion_decodes signed_data passport_hash evm_address
                   signature auth_data counter).
  { by exists assertion_b64, raw, assertion. }
  destruct (Z.leb_spec (Z.of_N counter) stored) as [Hreplay|Hfresh].
  { right. exists passport_hash, evm_address, signature, auth_data, counter.
    split; [done|]. by left. }
  destruct (json_dumps _) as [request_data|e] eqn:Hjson; [|left; by eexists].
  cbn [mbind outcome_bind].
  destruct (load_der_public_key pk) as [public_key|e] eqn:Hkey;
    [|left; by eexists].
  cbn [mbind outcome_bind].
  destruct (key_verify public_key signature _) as [[]|e] eqn:Hverify;
    [|left; by eexists].
  right. exists passport_hash, evm_address, signature, auth_data, counter.
  split; [done|]. right. split; [done|]. by exists request_data, public_key.
Qed.

Lemma verify_assertion_raised signed_data pk stored e :
  verify_assertion_body signed_data pk stored = Raised e ->
  fst (fst (verify_assertion signed_data pk stored)) = false.
Proof. intros Hr. unfold verify_assertion. rewrite Hr. by destruct e. Qed.

Lemma assertion_decodes_unique signed_data p1 e1 s1 a1 c1 p2 e2 s2 a2 c2 :
  assertion_decodes signed_data p1 e1 s1 a1 c1 ->
  assertion_decodes signed_data p2 e2 s2 a2 c2 ->
  p1 = p2 /\ e1 = e2 /\ s1 = s2 /\ a1 = a2 /\ c1 = c2.
Proof.
  intros (b1 & r1 & v1 & Hp1 & He1 & Hb1 & Hr1 & Hv1 & Hs1 & Ha1 & Hc1)
         (b2 & r2 & v2 & Hp2 & He2 & Hb2 & Hr2 & Hv2 & Hs2 & Ha2 & Hc2).
  assert (b1 = b2) as -> by congruence.
  assert (r1 = r2) as -> by congruence.
  assert (v1 = v2) as -> by congruence.
  assert (a1 = a2) as -> by congruence.
  repeat split; congruence.
Qed.

End assertion_paths.

(** ** When an assertion is accepted *)

(** X9. [verify_assertion] answers [True] exactly when the three fields
    are there, the assertion decodes to a map with [signature] and a byte
    string [authenticatorData] of 37 bytes or more, the counter read from it
    is above the stored one, the payload serialises, the key loads, and the
    signature verifies over [SHA256(authData || SHA256(requestData))].
    Nothing else of [authenticatorData] is looked at: neither the
    application hash in its first 32 bytes nor the flags. *)
Theorem verify_assertion_accepts_iff :
  forall (L : Libraries) signed_data public_key_bytes stored_counter,
    fst (fst (verify_assertion signed_data public_key_bytes stored_counter)) = true
    <-> exists passport_hash evm_address signature auth_data counter
               request_data public_key,
          assertion_decodes signed_data passport_hash evm_address signature
            auth_data counter
          /\ (37 <= length auth_data)%nat
          /\ (stored_counter < Z.of_N counter)%Z
          /\ json_dumps (PDict [(KStr "passportHash", passport_hash);
                                (KStr "evmAddress", evm_address)])
             = Returned request_data
          /\ load_der_public_key public_key_bytes = Returned public_key
          /\ key_verify public_key signature
               (sha256 (auth_data ++ sha256 request_data))
             = Returned tt.
Proof.
  intros L d k s. split.
  - intros Hok.
    destruct (verify_assertion_body_paths d k s)
      as [(e & Hr)|(ph & evm & sig & ad & c & Hdec & Hpaths)].
    { by rewrite (verify_assertion_raised d k s e Hr) in Hok. }
    destruct Hpaths as [(_ & Hr)|(Hfresh & req & key & Hjson & Hkey & Hverify & Hr)].
    { unfold verify_assertion in Hok. by rewrite Hr in Hok. }
    exists ph, evm, sig, ad, c, req, key. split; [done|]. split; [|done].
    destruct Hdec as (_ & _ & _ & _ & _ & _ & _ & _ & _ & _ & Hc).
    unfold struct_unpack in Hc. case_decide as Hlen; [|done].
    unfold slice in Hlen. rewrite length_take, length_drop in Hlen. lia.
  - intros (ph & evm & sig & ad & c & req & key & Hdec & _ & Hfresh & Hjson
            & Hkey & Hverify).
    destruct Hdec as (a64 & raw & assertion & Hph & Hevm & Hb64 & Hraw & Hcbor
                      & Hsig & Hauth & Hc).
    unfold verify_assertion, verify_assertion_body.
    rewrite Hph, Hevm, Hb64. cbn [or_raise mbind outcome_bind].
    rewrite Hraw. cbn [mbind outcome_bind].
    rewrite Hcbor. cbn [mbind outcome_bind].
    rewrite Hsig. cbn [mbind outcome_bind].
    rewrite Hauth. cbn [mbind outcome_bind read_counter].
    rewrite Hc. cbn [mbind outcome_bind].
    rewrite (proj2 (Z.leb_gt _ _) Hfresh).
    rewrite Hjson. cbn [mbind outcome_bind].
    rewrite Hkey. cbn [mbind outcome_bind].
    rewrite Hverify. reflexivity.
Qed.

Lemma verify_assertion_accepts_iff_witness :
  fst (fst (@verify_assertion (StandIn.assertion [x00; x00; x00; x06])
              StandIn.signed_data StandIn.public_key_der 5)) = true.
Proof.
  apply (proj2 (verify_assertion_accepts_iff
                  (StandIn.assertion [x00; x00; x00; x06])
                  StandIn.signed_data StandIn.public_key_der 5)).
  exists (PStr "0xabc"), (PStr "0x123"),
    (PBytes (StandIn.assertion_signature [x00; x00; x00; x06])),
    (StandIn.assertion_auth_data [x00; x00; x00; x06]), 6,
    StandIn.signed_payload, StandIn.public_key_der.
  split; [unfold assertion_decodes; repeat eexists|].
  split; [vm_compute; lia|]. split; [reflexivity|].
  split; [reflexivity|]. split; reflexivity.
Defined.

(** X10. The counter [verify_assertion] hands back is never below the one
    it was given.  When the assertion is accepted it is strictly above,
    fits 32 bits, and is the assertion's own counter: presented again with
    that counter stored, or any higher one, the same assertion is turned
    down as a replay, whatever the key. *)
Theorem verify_assertion_counter_monotone :
  forall (L : Libraries) signed_data public_key_bytes stored_counter,
    let r := verify_assertion signed_data public_key_bytes stored_counter in
    (stored_counter <= snd (fst r))%Z
    /\ (fst (fst r) = true ->
        (stored_counter < snd (fst r) < 2 ^ 32)%Z
        /\ forall other_key later_counter,
             (snd (fst r) <= later_counter)%Z ->
             verify_assertion signed_data other_key later_counter
             = (false, later_counter,
                Replay (Z.to_N (snd (fst r))) later_counter)).
Proof.
  intros L d k s r. unfold r.
  destruct (verify_assertion_body_paths d k s)
    as [(e & Hr)|(ph & evm & sig & ad & c & Hdec & Hpaths)].
  { unfold verify_assertion. rewrite Hr. destruct e; cbn; (split; [lia | done]). }
  destruct Hpaths as [(_ & Hr)|(Hfresh & req & key & Hjson & Hkey & Hverify & Hr)].
  { unfold verify_assertion. rewrite Hr. cbn. split; [lia | done]. }
  assert (Hres : verify_assertion d k s = (true, Z.of_N c, Valid c)).
  { unfold verify_assertion. by rewrite Hr. }
  rewrite Hres. cbn [fst snd].
  split; [lia|]. intros _. split.
  - split; [done|].
    destruct Hdec as (_ & _ & _ & _ & _ & _ & _ & _ & _ & _ & Hc).
    apply struct_unpack_bound in Hc. change (256 ^ N.of_nat 4) with (2 ^ 32) in Hc.
    change (2 ^ 32)%Z with (Z.of_N (2 ^ 32)). lia.
  - intros k' s' Hlater. rewrite N2Z.id.
    destruct Hdec as (a64 & raw & assertion & Hph & Hevm & Hb64 & Hraw & Hcbor
                      & Hsig & Hauth & Hc).
    unfold verify_assertion, verify_assertion_body.
    rewrite Hph, Hevm, Hb64. cbn [or_raise mbind outcome_bind].
    rewrite Hraw. cbn [mbind outcome_bind].
    rewrite Hcbor. cbn [mbind outcome_bind].
    rewrite Hsig. cbn [mbind outcome_bind].
    rewrite Hauth. cbn [mbind outcome_bind read_counter].
    rewrite Hc. cbn [mbind outcome_bind].
    by rewrite (proj2 (Z.leb_le _ _) Hlater).
Qed.

Lemma verify_assertion_counter_monotone_witness :
  @verify_assertion (StandIn.assertion [x00; x00; x00; x06])
    StandIn.signed_data [] 6
  = (false, 6%Z, Replay 6 6).
Proof.
  destruct (verify_assertion_counter_monotone
              (StandIn.assertion [x00; x00; x00; x06])
              StandIn.signed_data StandIn.public_key_der 5) as [_ Haccepted].
  destruct Haccepted as [_ Hreplay]; [vm_compute; reflexivity|].
  etransitivity; [apply Hreplay; vm_compute; discriminate|].
  vm_compute. reflexivity.
Defined.

(** X11. The counter of an assertion is a 32-bit field.  Once the stored
    counter has reached [2^32 - 1], no assertion is accepted any more,
    whatever it holds and however it is signed. *)
Theorem verify_assertion_counter_exhausted :
  forall (L : Libraries) signed_data public_key_bytes stored_counter,
    (2 ^ 32 - 1 <= stored_counter)%Z ->
    fst (fst (verify_assertion signed_data public_key_bytes stored_counter)) = false.
Proof.
  intros L d k s Hs.
  destruct (verify_assertion_body_paths d k s)
    as [(e & Hr)|(ph & evm & sig & ad & c & Hdec & Hpaths)].
  { by apply (verify_assertion_raised d k s e). }
  destruct Hpaths as [(_ & Hr)|(Hfresh & _)].
  { unfold verify_assertion. by rewrite Hr. }
  destruct Hdec as (_ & _ & _ & _ & _ & _ & _ & _ & _ & _ & Hc).
  apply struct_unpack_bound in Hc. change (256 ^ N.of_nat 4) with (2 ^ 32) in Hc.
  change (2 ^ 32)%Z with (Z.of_N (2 ^ 32)) in Hs. lia.
Qed.

Lemma verify_assertion_counter_exhausted_witness :
  fst (fst (@verify_assertion (StandIn.assertion [xff; xff; xff; xff])
              StandIn.signed_data StandIn.public_key_der 4294967295)) = false.
Proof.
  apply (verify_assertion_counter_exhausted
           (StandIn.assertion [xff; xff; xff; xff])
           StandIn.signed_data StandIn.public_key_der 4294967295).
  vm_compute. discriminate.
Defined.

(** ** Hexadecimal text and paths *)

Lemma fromhex_hex_byte (c : byte) (s : string) :
  fromhex (String (hex_digit (Byte.to_N c / 16))
             (String (hex_digit (Byte.to_N c mod 16)) s))
  = tail ← fromhex s; Some (c :: tail).
Proof. destruct c; reflexivity. Qed.

Lemma fromhex_hex (b : bytes) : fromhex (hex b) = Some b.
Proof.
  induction b as [|c b IH]; [done|].
  cbn [hex]. rewrite fromhex_hex_byte, IH. done.
Qed.

Lemma str_find_none_tail old c rest :
  str_find old (String c rest) = None ->
  String.prefix old (String c rest) = false /\ str_find old rest = None.
Proof.
  cbn [str_find]. destruct (String.prefix old (String c rest)); [done|].
  by destruct (str_find old rest).
Qed.

Lemma str_replace_absent s old new :
  str_find old s = None -> str_replace s old new = s.
Proof.
  unfold str_replace. induction s as [|c rest IH]; [done|].
  intros Hfind. apply str_find_none_tail in Hfind as [Hprefix Hrest].
  cbn [replace_from]. rewrite Hprefix. by rewrite IH.
Qed.

Lemma replace_from_skip old new (passed after : string) :
  replace_from old new (String.length passed) (passed ++ after)
  = replace_from old new 0 after.
Proof.
  induction passed as [|c passed IH].
  - by destruct after.
  - exact IH.
Qed.

Lemma prefix_app (old after : string) : String.prefix old (old ++ after) = true.
Proof.
  induction old as [|c old IH]; [by destruct after|].
  change (String c old ++ after)%string with (String c (old ++ after)).
  cbn [String.prefix]. by destruct (Ascii.ascii_dec c c).
Qed.

Lemma str_replace_first (before old new after : string) :
  old <> EmptyString ->
  str_find old (before ++ old ++ after) = Some (String.length before) ->
  str_replace (before ++ old ++ after) old new
  = (before ++ new ++ str_replace after old new)%string.
Proof.
  intros Hold. unfold str_replace. induction before as [|c before IH]; intros Hfind.
  - change (EmptyString ++ old ++ after)%string with (old ++ after)%string.
    change (EmptyString ++ new ++ replace_from old new 0 after)%string
      with (new ++ replace_from old new 0 after)%string.
    destruct old as [|c old]; [done|].
    change (String c old ++ after)%string with (String c (old ++ after)).
    cbn [replace_from].
    change (String c (old ++ after)) with (String c old ++ after)%string.
    rewrite prefix_app.
    replace (String.length (String c old) - 1)%nat with (String.length old)
      by (cbn [String.length]; lia).
    by rewrite replace_from_skip.
  - change (String c before ++ old ++ after)%string
      with (String c (before ++ old ++ after)) in *.
    cbn [str_find String.length] in Hfind.
    destruct (String.prefix old (String c (before ++ old ++ after))) eqn:Hprefix;
      [done|].
    cbn [replace_from]. rewrite Hprefix.
    destruct (str_find old (before ++ old ++ after)) as [i|] eqn:Hi; [|done].
    cbn in Hfind. injection Hfind as ->. by rewrite IH.
Qed.

(** ** Saving the key of an accepted attestation *)

Lemma string_length_append (s1 s2 : string) :
  String.length (s1 ++ s2) = (String.length s1 + String.length s2)%nat.
Proof.
  induction s1 as [|c s1 IH]; [done|].
  change (String c s1 ++ s2)%string with (String c (s1 ++ s2)).
  cbn [String.length]. by rewrite IH.
Qed.

Section saving.
Context `{Libraries} `{Storage}.

(** [save_public_key] on a result that carries two coordinates of 32 bytes
    and no error. *)
Lemma save_public_key_keyed x_bytes y_bytes cred path fs :
  length x_bytes = 32%nat -> length y_bytes = 32%nat ->
  let r := keyed_result x_bytes y_bytes cred [] in
  let der := spki_p256_header ++ [x04] ++ x_bytes ++ y_bytes in
  exists data,
    key_file_data r der = Returned data
    /\ (pk ← py_subscript data "publicKey"; py_subscript pk "der")
       = Returned (PStr (hex der))
    /\ save_public_key r path fs
       = if writable path then
           let der_path := str_replace path ".json" ".der" in
           if writable der_path
           then (Returned tt, <[der_path := der]> (<[path := json_dump data]> fs))
           else (Raised OtherException, <[path := json_dump data]> fs)
         else (Raised OtherException, fs).
Proof.
  intros Hx Hy r der. eexists. split; [reflexivity|]. split; [reflexivity|].
  unfold save_public_key, r. cbn [ok keyed_result public_key_uncompressed
    public_key_x public_key_y length app truthy bool_decide decide_rel].
  rewrite bool_decide_eq_true_2 by done. cbn [negb orb or_raise mbind outcome_bind].
  rewrite (build_der_public_key_p256 x_bytes y_bytes Hx Hy).
  cbn [or_raise mbind outcome_bind].
  unfold key_file_data. cbn [key_id public_key_uncompressed public_key_x
    public_key_y keyed_result or_raise mbind outcome_bind].
  unfold write_file. destruct (writable path); [|done].
  cbv zeta. by destruct (writable (str_replace path ".json" ".der")).
Qed.

(** The same on an accepted result of [verify_attestation]. *)
Lemma save_public_key_accepted a c t b env path fs :
  let r := verify_attestation a c t b env in
  ok r = true ->
  exists x_bytes y_bytes data,
    let der := spki_p256_header ++ [x04] ++ x_bytes ++ y_bytes in
    public_key_x r = Some x_bytes /\ public_key_y r = Some y_bytes
    /\ parse_ec_public_key der
       = (if on_p256 (int_from_bytes x_bytes) (int_from_bytes y_bytes)
          then Some (x_bytes, y_bytes) else None)
    /\ key_file_data r der = Returned data
    /\ (pk ← py_subscript data "publicKey"; py_subscript pk "der")
       = Returned (PStr (hex der))
    /\ save_public_key r path fs
       = if writable path then
           let der_path := str_replace path ".json" ".der" in
           if writable der_path
           then (Returned tt, <[der_path := der]> (<[path := json_dump data]> fs))
           else (Raised OtherException, <[path := json_dump data]> fs)
         else (Raised OtherException, fs).
Proof.
  intros r Hok. unfold r in *.
  destruct (verify_attestation_result_cases a c t b env)
    as [(cred & earlier & e & Hr)
       |(ad & x_bytes & y_bytes & before & after & Hx & Hy & Hr)].
  { rewrite Hr in Hok. discriminate Hok. }
  rewrite Hr in Hok |- *. apply keyed_result_ok in Hok.
  apply app_nil in Hok as [-> Hok]. apply app_nil in Hok as [-> ->].
  destruct (save_public_key_keyed x_bytes y_bytes (credential_id ad) path fs Hx Hy)
    as (data & Hdata & Hder & Hsave).
  exists x_bytes, y_bytes, data. cbv zeta.
  split; [done|]. split; [done|].
  split; [by apply parse_ec_public_key_p256|]. done.
Qed.

End saving.

(** X12. [save_public_key] on what [verify_attestation] returned.  A
    result that is not [ok] leaves the files as they are.  For an accepted
    one the JSON text is written to [output_path], and then the
    SubjectPublicKeyInfo of the key to the path [replace] makes of it; when
    the first file cannot be opened nothing is written, and when only the
    second cannot, the call raises with the JSON file already written.  The
    bytes written are the P-256 SubjectPublicKeyInfo around the coordinates
    of the result, which parses as an EC public key exactly when they are a
    point of P-256; the [der] entry of the JSON data is the [hex()] of these
    bytes, from which [bytes.fromhex] gives them again. *)
Theorem save_public_key_after_verify_attestation :
  forall (L : Libraries) (S : Storage) attestation_b64 challenge team_id
         bundle_id env output_path fs,
    let r := verify_attestation attestation_b64 challenge team_id bundle_id env in
    if ok r then
      exists x_bytes y_bytes data,
        let der := spki_p256_header ++ [x04] ++ x_bytes ++ y_bytes in
        public_key_x r = Some x_bytes /\ public_key_y r = Some y_bytes
        /\ parse_ec_public_key der
           = (if on_p256 (int_from_bytes x_bytes) (int_from_bytes y_bytes)
              then Some (x_bytes, y_bytes) else None)
        /\ key_file_data r der = Returned data
        /\ (pk ← py_subscript data "publicKey"; py_subscript pk "der")
           = Returned (PStr (hex der))
        /\ fromhex (hex der) = Some der
        /\ save_public_key r output_path fs
           = if writable output_path then
               let der_path := str_replace output_path ".json" ".der" in
               if writable der_path
               then (Returned tt,
                     <[der_path := der]> (<[output_path := json_dump data]> fs))
               else (Raised OtherException, <[output_path := json_dump data]> fs)
             else (Raised OtherException, fs)
    else save_public_key r output_path fs = (Returned tt, fs).
Proof.
  intros L S a c t b env path fs r.
  destruct (ok r) eqn:Hok; [|unfold save_public_key; by rewrite Hok].
  destruct (save_public_key_accepted a c t b env path fs Hok)
    as (x_bytes & y_bytes & data & Hx & Hy & Hparse & Hdata & Hder & Hsave).
  exists x_bytes, y_bytes, data. cbv zeta.
  split; [done|]. split; [done|]. split; [done|]. split; [done|].
  split; [done|]. split; [apply fromhex_hex | done].
Qed.

(** X13. Where the key ends up.  The path of the DER file is
    [output_path.replace('.json', '.der')].  For an [output_path] in which
    [.json] does not occur the two paths are the same, and after the call
    the file holds the DER key: the JSON text written first is gone.  For
    an [output_path] that ends in [.json], with no other [.json] in it,
    the JSON file stays and the DER key is beside it under [.der]. *)
Theorem save_public_key_paths :
  forall (L : Libraries) (S : Storage) attestation_b64 challenge team_id
         bundle_id env output_path fs,
    let r := verify_attestation attestation_b64 challenge team_id bundle_id env in
    ok r = true ->
    writable output_path = true ->
    writable (str_replace output_path ".json" ".der") = true ->
    exists x_bytes y_bytes data fs',
      let der := spki_p256_header ++ [x04] ++ x_bytes ++ y_bytes in
      public_key_x r = Some x_bytes /\ public_key_y r = Some y_bytes
      /\ key_file_data r der = Returned data
      /\ save_public_key r output_path fs = (Returned tt, fs')
      /\ (str_find ".json" output_path = None -> fs' !! output_path = Some der)
      /\ (forall stem,
            output_path = (stem ++ ".json")%string ->
            str_find ".json" output_path = Some (String.length stem) ->
            fs' !! output_path = Some (json_dump data)
            /\ fs' !! (stem ++ ".der")%string = Some der).
Proof.
  intros L S a c t b env path fs r Hok Hpath Hder_path.
  destruct (save_public_key_accepted a c t b env path fs Hok)
    as (x_bytes & y_bytes & data & Hx & Hy & _ & Hdata & _ & Hsave).
  cbv zeta in Hsave. rewrite Hpath, Hder_path in Hsave.
  exists x_bytes, y_bytes, data. eexists. cbv zeta.
  split; [done|]. split; [done|]. split; [done|]. split; [exact Hsave|].
  split.
  - intros Hfind. rewrite (str_replace_absent _ _ _ Hfind).
    apply lookup_insert_eq.
  - intros stem -> Hfind.
    assert (Hreplace : str_replace (stem ++ ".json") ".json" ".der"
                       = (stem ++ ".der")%string).
    { change (stem ++ ".json")%string with (stem ++ ".json" ++ "")%string.
      rewrite str_replace_first; done. }
    rewrite Hreplace.
    assert (Hne : (stem ++ ".der")%string <> (stem ++ ".json")%string).
    { intros Heq. apply (f_equal String.length) in Heq.
      rewrite !string_length_append in Heq. cbn in Heq. lia. }
    split.
    + rewrite lookup_insert_ne by done. apply lookup_insert_eq.
    + apply lookup_insert_eq.
Qed.

Lemma save_public_key_paths_witness :
  let L := StandIn.attestation
             [PBytes StandIn.leaf_der; PBytes StandIn.intermediate_der]
             StandIn.good_auth_data in
  let r := @verify_attestation L "AAAA" StandIn.challenge StandIn.team_id
             StandIn.bundle_id "dev" in
  exists fs',
    @save_public_key L example_storage r "key.json" ∅ = (Returned tt, fs')
    /\ is_Some (fs' !! "key.json"%string) /\ is_Some (fs' !! "key.der"%string).
Proof.
  intros L r.
  destruct (save_public_key_paths L example_storage
              "AAAA"%string StandIn.challenge StandIn.team_id
              StandIn.bundle_id "dev"%string "key.json"%string ∅)
    as (x_bytes & y_bytes & data & fs' & _ & _ & _ & Hsave & _ & Hjson).
  - vm_compute. reflexivity.
  - vm_compute. reflexivity.
  - vm_compute. reflexivity.
  - exists fs'. split; [exact Hsave|].
    destruct (Hjson "key"%string) as [Hfile Hder]; [reflexivity..|].
    split; by eexists.
Defined.

(** ** [parse_assertion] beside [verify_assertion] *)

Section parsing.
Context `{Libraries}.

Lemma py_subscript_returned v key value :
  py_subscript v key = Returned value ->
  exists items, v = PDict items /\ dict_lookup items (KStr key) = Some value.
Proof.
  destruct v; try done. cbn [py_subscript].
  destruct (dict_lookup items (KStr key)) as [value'|] eqn:Hv; [|done].
  intros [= <-]. by exists items.
Qed.

Lemma struct_unpack_length size buf n :
  struct_unpack size buf = Returned n -> length buf = size.
Proof. unfold struct_unpack. by case_decide. Qed.

Lemma counter_needs_37_bytes (b : bytes) n :
  struct_unpack 4 (slice b 33 37) = Returned n -> (37 <= length b)%nat.
Proof.
  intros Hn. apply struct_unpack_length in Hn.
  unfold slice in Hn. rewrite length_take, length_drop in Hn. lia.
Qed.

Lemma counter_of_short_bytes (b : bytes) :
  (length b < 37)%nat -> struct_unpack 4 (slice b 33 37) = Raised OtherException.
Proof.
  intros Hb. unfold struct_unpack. case_decide as Hlen; [|done].
  unfold slice in Hlen. rewrite length_take, length_drop in Hlen. lia.
Qed.

Lemma byte_at_inside (b : bytes) i :
  (i < length b)%nat -> exists n, byte_at b i = Returned n.
Proof.
  intros Hi. destruct (lookup_lt_is_Some_2 b i Hi) as [c Hc].
  exists (Byte.to_N c). unfold byte_at. by rewrite Hc.
Qed.

Lemma auth_data_entries_short (b : bytes) :
  (0 < length b < 37)%nat ->
  auth_data_entries (PBytes b) = Some (Raised OtherException).
Proof.
  intros [Hpos Hshort]. destruct b as [|c b]; [cbn in Hpos; lia|].
  cbn [auth_data_entries].
  destruct (byte_at (c :: b) 32) as [flags|e] eqn:Hflags.
  - cbn [mbind outcome_bind].
    by rewrite (counter_of_short_bytes (c :: b) Hshort).
  - unfold byte_at in Hflags. destruct ((c :: b) !! 32%nat); [done|].
    by injection Hflags as <-.
Qed.

(** [verify_assertion] on an assertion whose [authenticatorData] is
    missing, [None], or a byte string of fewer than 37 bytes. *)
Lemma verify_assertion_without_counter signed_data pk stored a64 raw items :
  dict_lookup signed_data (KStr "assertion") = Some a64 ->
  b64decode a64 = Returned raw ->
  cbor2_loads raw = Returned (PDict items) ->
  let auth_data := default PNone (dict_lookup items (KStr "authenticatorData")) in
  auth_data = PNone \/ (exists b, auth_data = PBytes b /\ (length b < 37)%nat) ->
  verify_assertion signed_data pk stored
  = (false, stored, ErrorMessage OtherException).
Proof.
  intros Ha64 Hraw Hcbor auth_data Hauth.
  unfold verify_assertion, verify_assertion_body.
  destruct (dict_lookup signed_data (KStr "passportHash")); [|done].
  destruct (dict_lookup signed_data (KStr "evmAddress")); [|done].
  rewrite Ha64. cbn [or_raise mbind outcome_bind].
  rewrite Hraw. cbn [mbind outcome_bind].
  rewrite Hcbor. cbn [mbind outcome_bind py_subscript].
  destruct (dict_lookup items (KStr "signature")); [|done].
  cbn [or_raise mbind outcome_bind].
  unfold auth_data in Hauth.
  destruct (dict_lookup items (KStr "authenticatorData")) as [v|]; [|done].
  cbn in Hauth. cbn [or_raise mbind outcome_bind].
  destruct Hauth as [->|(b & -> & Hb)]; [done|].
  cbn [read_counter]. by rewrite (counter_of_short_bytes b Hb).
Qed.

End parsing.

(** X14. Whenever [verify_assertion] gets as far as the counter, with a
    byte string for signature, [parse_assertion] on the same [assertion]
    field returns, and its entries are those [verify_assertion] works with:
    the same counter, the same [authenticatorData] and signature, the flags
    byte at index 32, the [hex()] of the first 32 bytes and the length of
    the signature. *)
Theorem parse_assertion_agrees :
  forall (L : Libraries) signed_data passport_hash evm_address signature
         auth_data counter,
    assertion_decodes signed_data passport_hash evm_address (PBytes signature)
      auth_data counter ->
    exists assertion_b64 flags,
      dict_lookup signed_data (KStr "assertion") = Some assertion_b64
      /\ byte_at auth_data 32 = Returned flags
      /\ parse_assertion assertion_b64
         = Some (Returned {| parsed_rp_id_hash := Some (hex (slice auth_data 0 32));
                             parsed_flags := Some flags;
                             parsed_counter := Some counter;
                             signature_length := len signature;
                             raw_auth_data := PBytes auth_data;
                             raw_signature := PBytes signature |}).
Proof.
  intros L d ph evm sig ad counter
    (a64 & raw & assertion & _ & _ & Ha64 & Hraw & Hcbor & Hsig & Hauth & Hc).
  pose proof (counter_needs_37_bytes ad counter Hc) as Hlen.
  destruct (byte_at_inside ad 32) as [flags Hflags]; [lia|].
  exists a64, flags. split; [done|]. split; [done|].
  apply py_subscript_returned in Hsig as (items & -> & Hsig).
  apply py_subscript_returned in Hauth as (items' & [= <-] & Hauth).
  unfold parse_assertion. rewrite Hraw. cbn [mbind outcome_bind].
  rewrite Hcbor. cbn [mbind outcome_bind py_get].
  rewrite Hauth, Hsig. cbn [from_option mbind outcome_bind]. unfold id.
  destruct ad as [|c ad]; [cbn in Hlen; lia|].
  cbn [auth_data_entries]. rewrite Hflags, Hc. cbn [mbind outcome_bind].
  reflexivity.
Qed.

Lemma parse_assertion_agrees_witness :
  let L := StandIn.assertion [x00; x00; x00; x06] in
  exists assertion_b64 flags,
    dict_lookup StandIn.signed_data (KStr "assertion") = Some assertion_b64
    /\ byte_at (StandIn.assertion_auth_data [x00; x00; x00; x06]) 32
       = Returned flags
    /\ @parse_assertion L assertion_b64
       = Some (Returned
           {| parsed_rp_id_hash :=
                Some (hex (slice (StandIn.assertion_auth_data [x00; x00; x00; x06])
                             0 32));
              parsed_flags := Some flags;
              parsed_counter := Some 6;
              signature_length :=
                len (StandIn.assertion_signature [x00; x00; x00; x06]);
              raw_auth_data :=
                PBytes (StandIn.assertion_auth_data [x00; x00; x00; x06]);
              raw_signature :=
                PBytes (StandIn.assertion_signature [x00; x00; x00; x06]) |}).
Proof.
  intros L.
  apply (parse_assertion_agrees L StandIn.signed_data (PStr "0xabc")
           (PStr "0x123")).
  unfold assertion_decodes. repeat eexists.
Defined.

(** X15. Where the two functions part.  On an [authenticatorData] of 1
    to 36 bytes [parse_assertion] raises, and on one that is missing,
    [None] or empty it returns with no hash, no flags and no counter;
    [verify_assertion] on signed data with the same assertion raises
    nothing in either case and reports an error, with the counter it was
    given. *)
Theorem parse_assertion_without_counter :
  forall (L : Libraries) assertion_b64 raw items,
    b64decode assertion_b64 = Returned raw ->
    cbor2_loads raw = Returned (PDict items) ->
    let auth_data := default PNone (dict_lookup items (KStr "authenticatorData")) in
    let signature := default PNone (dict_lookup items (KStr "signature")) in
    (forall b, auth_data = PBytes b -> (0 < length b < 37)%nat ->
       parse_assertion assertion_b64 = Some (Raised OtherException))
    /\ (auth_data = PNone \/ auth_data = PBytes [] ->
        forall n, signature_length_entry signature = Some (Returned n) ->
          parse_assertion assertion_b64
          = Some (Returned {| parsed_rp_id_hash := None;
                              parsed_flags := None;
                              parsed_counter := None;
                              signature_length := n;
                              raw_auth_data := auth_data;
                              raw_signature := signature |}))
    /\ (auth_data = PNone \/ (exists b, auth_data = PBytes b /\ (length b < 37)%nat) ->
        forall signed_data public_key_bytes stored_counter,
          dict_lookup signed_data (KStr "assertion") = Some assertion_b64 ->
          verify_assertion signed_data public_key_bytes stored_counter
          = (false, stored_counter, ErrorMessage OtherException)).
Proof.
  intros L a64 raw items Hraw Hcbor auth_data signature.
  assert (Hparse : parse_assertion a64
            = match auth_data_entries auth_data with
              | None => None
              | Some (Raised e) => Some (Raised e)
              | Some (Returned (rp_id_hash, flags, counter)) =>
                  match signature_length_entry signature with
                  | None => None
                  | Some (Raised e) => Some (Raised e)
                  | Some (Returned length) =>
                      Some (Returned {| parsed_rp_id_hash := rp_id_hash;
                                        parsed_flags := flags;
                                        parsed_counter := counter;
                                        signature_length := length;
                                        raw_auth_data := auth_data;
                                        raw_signature := signature |})
                  end
              end).
  { unfold parse_assertion. rewrite Hraw. cbn [mbind outcome_bind].
    rewrite Hcbor. reflexivity. }
  split; [|split].
  - intros b Hb Hlen. rewrite Hparse, Hb.
    by rewrite (auth_data_entries_short b Hlen).
  - intros Hnone n Hn. rewrite Hparse, Hn.
    by destruct Hnone as [->| ->].
  - intros Hauth d k s Ha64.
    by apply (verify_assertion_without_counter d k s a64 raw items).
Qed.

Lemma parse_assertion_without_counter_witness :
  let L := StandIn.libraries
             (Returned (PDict [(KStr "signature", PBytes [x01; x02]);
                               (KStr "authenticatorData", PBytes [x01; x02; x03])]))
             [] in
  @parse_assertion L (PStr "AAAA") = Some (Raised OtherException)
  /\ @verify_assertion L StandIn.signed_data [] 5
     = (false, 5%Z, ErrorMessage OtherException).
Proof.
  intros L.
  destruct (parse_assertion_without_counter L (PStr "AAAA") (encode "AAAA")
              [(KStr "signature", PBytes [x01; x02]);
               (KStr "authenticatorData", PBytes [x01; x02; x03])]
              eq_refl eq_refl) as (Hshort & _ & Hverify).
  split.
  - apply (Hshort [x01; x02; x03]); [reflexivity | cbn; lia].
  - apply Hverify; [right; exists [x01; x02; x03]; split; [reflexivity | cbn; lia]
                   | reflexivity].
Defined.

(** ** [build_der_public_key] on coordinates of any length *)

Lemma der_len_defined n :
  n < 65536 -> exists l, der_len n = Some l /\ (length l <= 3)%nat
                         /\ (256 <= n -> length l = 3%nat).
Proof.
  intros Hn.
  destruct (N.lt_ge_cases n 128) as [H1|H1].
  { destruct (der_len_short n H1) as (c & _ & E). exists [c].
    split; [done|]. split; [cbn; lia | lia]. }
  destruct (N.lt_ge_cases n 256) as [H2|H2].
  { destruct (der_len_one_byte n (conj H1 H2)) as (c & _ & E). exists [x81; c].
    split; [done|]. split; [cbn; lia | lia]. }
  destruct (der_len_two_bytes n (conj H2 Hn)) as (hi & lo & _ & E).
  exists [x82; hi; lo]. split; [done|]. split; [cbn; lia | done].
Qed.

Lemma der_read_tlv_der_len tag l content rest :
  der_len (len content) = Some l ->
  der_read_tlv ([tag] ++ l ++ content ++ rest) = Some (tag, content, rest).
Proof.
  intros Hl. cbn [app der_read_tlv].
  rewrite (der_read_len_der_len _ _ _ Hl). cbn [mbind option_bind].
  unfold len. rewrite (proj2 (N.ltb_ge _ _)) by (rewrite length_app; lia).
  by rewrite Nat2N.id, take_app_length, drop_app_length.
Qed.

Lemma expect_tlv_der_len tag l content rest :
  der_len (len content) = Some l ->
  expect_tlv tag ([tag] ++ l ++ content ++ rest) = Some (content, rest).
Proof.
  intros Hl. unfold expect_tlv. rewrite (der_read_tlv_der_len _ _ _ _ Hl).
  cbn [mbind option_bind]. by rewrite decide_True.
Qed.

(** The function with the three lengths that do not depend on the key
    worked out. *)
Lemma build_der_public_key_unfold (x y : bytes) :
  build_der_public_key x y
  = l_bits ← der_len (len x + len y + 2);
    let bit_string := [x03] ++ l_bits ++ [x00; x04] ++ x ++ y in
    l_inner ← der_len (len (algorithm_identifier ++ bit_string));
    Some ([x30] ++ l_inner ++ algorithm_identifier ++ bit_string).
Proof.
  unfold build_der_public_key.
  change (der_len (len ec_public_key_oid + len prime256v1_oid + 4))
    with (Some [x13]).
  change (der_len (len ec_public_key_oid)) with (Some [x07]).
  change (der_len (len prime256v1_oid)) with (Some [x08]).
  cbn [mbind option_bind].
  replace (len ([x04] ++ x ++ y) + 1) with (len x + len y + 2)
    by (unfold len; cbn [app length]; rewrite length_app; lia).
  destruct (der_len (len x + len y + 2)) as [l_bits|]; reflexivity.
Qed.

(** X16. [build_der_public_key] does not look at the length of its
    arguments.  For coordinates of up to 65508 bytes together it returns one
    SEQUENCE with nothing after it, which holds the algorithm identifier and
    a BIT STRING of [00 04 || x || y]; only the join [x || y] shows in it,
    not where [x] ends.  Above that size [der_len] is asked for a length of
    65536 or more and raises. *)
Theorem build_der_public_key_any_length (x y : bytes) :
  let s := len x + len y in
  (s <= 65508 ->
   exists der bit_string,
     build_der_public_key x y = Some der
     /\ expect_tlv x30 der = Some (algorithm_identifier ++ bit_string, [])
     /\ expect_tlv x03 bit_string = Some ([x00; x04] ++ x ++ y, []))
  /\ (65508 < s -> build_der_public_key x y = None)
  /\ (forall x' y', x ++ y = x' ++ y' ->
        build_der_public_key x y = build_der_public_key x' y').
Proof.
  intros s. split; [|split].
  3:{ intros x' y' Hjoin. rewrite !build_der_public_key_unfold.
      replace (len x + len y) with (len (x ++ y))
        by (unfold len; rewrite length_app; lia).
      replace (len x' + len y') with (len (x' ++ y'))
        by (unfold len; rewrite length_app; lia).
      by rewrite Hjoin. }
  all: rewrite build_der_public_key_unfold; fold s.
  - intros Hs.
    destruct (der_len_defined (s + 2)) as (l_bits & Hbits & Hshort & _); [lia|].
    rewrite Hbits. cbn [mbind option_bind]. cbv zeta.
    set (bit_string := [x03] ++ l_bits ++ [x00; x04] ++ x ++ y).
    assert (Hlen : len (algorithm_identifier ++ bit_string) < 65536).
    { unfold len, bit_string, s, len in *. rewrite !length_app.
      change (length algorithm_identifier) with 21%nat. cbn [length]. lia. }
    destruct (der_len_defined _ Hlen) as (l_inner & Hinner & _ & _).
    rewrite Hinner. cbn [mbind option_bind].
    exists ([x30] ++ l_inner ++ algorithm_identifier ++ bit_string), bit_string.
    split; [done|]. split.
    + rewrite <- (app_nil_r (algorithm_identifier ++ bit_string)) at 1.
      by apply expect_tlv_der_len.
    + unfold bit_string.
      rewrite <- (app_nil_r ([x00; x04] ++ x ++ y)) at 1.
      apply expect_tlv_der_len.
      rewrite <- Hbits. f_equal. unfold s, len. cbn [app length].
      rewrite length_app. lia.
  - intros Hs.
    destruct (N.lt_ge_cases (s + 2) 65536) as [Hbits|Hbits].
    + destruct (der_len_defined (s + 2) Hbits) as (l_bits & Hl & _ & Hthree).
      rewrite Hl. cbn [mbind option_bind]. cbv zeta.
      rewrite der_len_too_large; [done|].
      unfold len, s, len in *. rewrite !length_app.
      change (length algorithm_identifier) with 21%nat. cbn [length].
      rewrite Hthree by lia. lia.
    + by rewrite der_len_too_large.
Qed.

Lemma build_der_public_key_any_length_witness :
  (exists der bit_string,
     build_der_public_key (repeat x11 100) (repeat x22 200) = Some der
     /\ expect_tlv x30 der = Some (algorithm_identifier ++ bit_string, [])
     /\ expect_tlv x03 bit_string
        = Some ([x00; x04] ++ repeat x11 100 ++ repeat x22 200, []))
  /\ build_der_public_key (repeat x11 (N.to_nat 65000)) (repeat x22 (N.to_nat 509))
     = None
  /\ build_der_public_key (repeat x11 31) (repeat x11 33)
     = build_der_public_key (repeat x11 32) (repeat x11 32).
Proof.
  split; [|split].
  - apply (proj1 (build_der_public_key_any_length (repeat x11 100) (repeat x22 200))).
    vm_compute. discriminate.
  - apply (proj1 (proj2 (build_der_public_key_any_length
                           (repeat x11 (N.to_nat 65000))
                           (repeat x22 (N.to_nat 509))))).
    vm_compute. reflexivity.
  - apply (proj2 (proj2 (build_der_public_key_any_length
                           (repeat x11 31) (repeat x11 33)))).
    reflexivity.
Defined.

(** ** What an assertion's signature covers *)

(** X17. Of the signed data, [verify_assertion] reads [passportHash],
    [evmAddress] and [assertion] and nothing else: two inputs that agree on
    these three give the same answer.  The [keyId] and [timestamp] that the
    script prints beside them can be changed without the verification
    noticing. *)
Theorem verify_assertion_ignores_other_fields :
  forall (L : Libraries) signed_data signed_data' public_key_bytes stored_counter,
    dict_lookup signed_data (KStr "passportHash")
    = dict_lookup signed_data' (KStr "passportHash") ->
    dict_lookup signed_data (KStr "evmAddress")
    = dict_lookup signed_data' (KStr "evmAddress") ->
    dict_lookup signed_data (KStr "assertion")
    = dict_lookup signed_data' (KStr "assertion") ->
    verify_assertion signed_data public_key_bytes stored_counter
    = verify_assertion signed_data' public_key_bytes stored_counter.
Proof.
  intros L d d' k s Hph Hevm Ha64.
  unfold verify_assertion, verify_assertion_body. by rewrite Hph, Hevm, Ha64.
Qed.

Lemma verify_assertion_ignores_other_fields_witness :
  @verify_assertion (StandIn.assertion [x00; x00; x00; x06])
    ((KStr "keyId", PStr "someone else") :: (KStr "timestamp", PInt 0)
     :: StandIn.signed_data)
    StandIn.public_key_der 5
  = @verify_assertion (StandIn.assertion [x00; x00; x00; x06])
      StandIn.signed_data StandIn.public_key_der 5.
Proof.
  apply (verify_assertion_ignores_other_fields
           (StandIn.assertion [x00; x00; x00; x06])); reflexivity.
Defined.

(** ** [main] of [verify_attestation.py] *)

Section running.
Context `{Libraries} `{Storage} `{StrictBase64}.

(** [main] from the challenge on, for arguments that pass the two tests at
    its start. *)
Lemma main_given args fs :
  given (attestation args) = true ->
  given (team_id args) = true -> given (bundle_id args) = true ->
  main args fs
  = match parse_challenge (default EmptyString (challenge args)) with
    | Raised e => (Raised e, fs)
    | Returned c =>
        let result :=
          verify_attestation (default EmptyString (attestation args)) c
            (default EmptyString (team_id args))
            (default EmptyString (bundle_id args)) (env args) in
        if given (output args) && ok result
        then save_public_key result (default EmptyString (output args)) fs
        else (Returned tt, fs)
    end.
Proof.
  intros Ha Ht Hb. unfold main. rewrite Ha, Ht, Hb. cbn [negb orb].
  destruct (parse_challenge _) as [c|e]; [|done].
  cbv zeta. by rewrite dump_verify_attestation.
Qed.

Lemma parse_challenge_raised challenge_str e :
  parse_challenge challenge_str = Raised e ->
  (String.prefix "0x" challenge_str = true
   /\ fromhex (from_third challenge_str) = None)
  \/ (String.prefix "0x" challenge_str = false
      /\ (exists e', b64decode_validate challenge_str = Raised e')
      /\ well_formed_utf8 (encode challenge_str) = false).
Proof.
  unfold parse_challenge, str_encode.
  destruct (String.prefix "0x" challenge_str).
  - left. by destruct (fromhex (from_third challenge_str)).
  - right. destruct (b64decode_validate challenge_str) as [|e']; [done|].
    destruct (well_formed_utf8 (encode challenge_str)); [done|].
    split; [done|]. split; [by exists e' | done].
Qed.

End running.

(** X18. [main], run from arguments that [argparse] has let through and
    whose team id, bundle id and output path are well-formed text, fails
    for three reasons only and writes for one.  It raises when the
    challenge starts with [0x] and what follows is not hexadecimal; when
    the challenge is neither that nor base64 and holds bytes that are no
    UTF-8, so that encoding it fails inside the handler; both before
    anything is verified; or when the attestation was accepted and one of
    the two key files cannot be opened.  Nothing an attestation holds makes
    it raise.  And it leaves the files as they were unless the attestation
    was accepted and [--output] names a file that can be opened.  All this
    with a standard output that accepts what is printed. *)
Theorem main_raises_and_writes :
  forall (L : Libraries) (S : Storage) (V : StrictBase64) args fs,
    plain_arguments args ->
    let challenge_str := default EmptyString (challenge args) in
    let accepted c :=
      ok (verify_attestation (default EmptyString (attestation args)) c
            (default EmptyString (team_id args))
            (default EmptyString (bundle_id args)) (env args)) = true in
    (forall e, (main args fs).1 = Raised e ->
       (String.prefix "0x" challenge_str = true
        /\ fromhex (from_third challenge_str) = None)
       \/ (String.prefix "0x" challenge_str = false
           /\ (exists e', b64decode_validate challenge_str = Raised e')
           /\ well_formed_utf8 (encode challenge_str) = false)
       \/ (exists c path,
             parse_challenge challenge_str = Returned c /\ accepted c
             /\ output args = Some path
             /\ (writable path = false
                 \/ writable (str_replace path ".json" ".der") = false)))
    /\ ((main args fs).2 <> fs ->
        exists c path,
          parse_challenge challenge_str = Returned c /\ accepted c
          /\ output args = Some path /\ writable path = true).
Proof.
  intros L S V args fs _ challenge_str accepted.
  destruct (given (attestation args)) eqn:Ha;
    [|unfold main; rewrite Ha; by split].
  destruct (given (team_id args)) eqn:Ht;
    [|unfold main; rewrite Ha, Ht; by split].
  destruct (given (bundle_id args)) eqn:Hb;
    [|unfold main; rewrite Ha, Ht, Hb; by split].
  rewrite (main_given args fs Ha Ht Hb). fold challenge_str.
  destruct (parse_challenge challenge_str) as [c|e0] eqn:Hc.
  2:{ split; [|done]. intros e _.
      destruct (parse_challenge_raised _ e0 Hc) as [Hhex|Htext];
        [by left | by right; left]. }
  cbv zeta.
  destruct (given (output args)) eqn:Hout; [|by split].
  destruct (output args) as [path|] eqn:Hpath; [|done].
  set (a := default EmptyString (attestation args)) in *.
  set (t := default EmptyString (team_id args)) in *.
  set (b := default EmptyString (bundle_id args)) in *.
  destruct (ok (verify_attestation a c t b (env args))) eqn:Hok; [|by split].
  cbn [andb from_option]. unfold id.
  destruct (save_public_key_accepted a c t b (env args) path fs Hok)
    as (x_bytes & y_bytes & data & _ & _ & _ & _ & _ & Hsave).
  rewrite Hsave.
  destruct (writable path) eqn:Hw1.
  - cbv zeta. destruct (writable (str_replace path ".json" ".der")) eqn:Hw2.
    + split; [done|]. intros _. by exists c, path.
    + split.
      * intros e _. right; right. exists c, path. repeat split; try done.
        by right.
      * intros _. by exists c, path.
  - split; [|done]. intros e _. right; right. exists c, path.
    repeat split; try done. by left.
Qed.

(** A challenge of one byte that is no UTF-8, as the shell passes it on. *)
Lemma main_raises_and_writes_witness :
  let L := StandIn.attestation
             [PBytes StandIn.leaf_der; PBytes StandIn.intermediate_der]
             StandIn.good_auth_data in
  let V := {| b64decode_validate := fun _ => Raised OtherException |} in
  let text := String.string_of_list_byte [xff] in
  let args := {| attestation := Some "AAAA"%string;
                 challenge := Some text;
                 team_id := Some StandIn.team_id;
                 bundle_id := Some StandIn.bundle_id;
                 env := "dev";
                 output := Some "key.json"%string |} in
  (@main L example_storage V args ∅).1 = Raised OtherException
  /\ well_formed_utf8 (encode text) = false.
Proof.
  intros L V text args.
  assert (Hraised : (@main L example_storage V args ∅).1 = Raised OtherException)
    by (by vm_compute).
  split; [exact Hraised|].
  destruct (main_raises_and_writes L example_storage V args ∅) as [Hraises _].
  { repeat split; try (by vm_compute). by left. }
  destruct (Hraises OtherException Hraised)
    as [[Hhex _]|[(_ & _ & Htext)|(c & path & Hc & _)]].
  - vm_compute in Hhex. discriminate Hhex.
  - exact Htext.
  - vm_compute in Hc. discriminate Hc.
Defined.
